(** * A meeting relay: WebSocket gateway over a NATS broker and a MySQL store

    Shallow embedding of the relay server ([startServer]) and the proofs of
    its specification.  The program is one event loop: connections are
    accepted, every inbound frame runs the [ws.on('message')] handler, every
    disconnect runs the [ws.on('close')] handler, and [setTimeout] callbacks
    run later.  The embedding threads one [world] value through these
    handlers.  The server exists in two versions: src/unnamed/part_000
    handles seven actions, src/main.js the first five of them with the same
    code ([onMessage] and [onMessage_main]).

    Modelling conventions, fixed once here:
    - JavaScript values of control-message fields are JSON scalars
      ([jsval]); numbers are integers, and the model is exact on the ones
      a double holds and JavaScript prints digit for digit
      ([safe_integer]).  Strings are their UTF-8 bytes.  Nested objects or
      arrays as field values are outside the model.
    - [JSON.parse] is a library call: a raw frame is either text on which it
      throws ([Invalid], with the exception's message) or text that parses
      ([Parsed]).  A text frame that is not valid UTF-8 never reaches the
      handler: the socket emits an error event, for which the program
      registers no listener ([EInvalidFrame]).
    - An outbound payload is kept as the JSON document that
      [JSON.stringify] serialises ([json]), with the byte length of its
      text ([JSON_length]); [sc.encode]/[sc.decode] are inverse of each
      other and leave it unchanged.
    - [nc.publish] throws when the encoded payload exceeds the server's
      [max_payload]; an accepted payload is delivered to the live
      subscriptions of exactly that subject, in subscription order, within
      the publishing step.  Other broker failures are not modelled.
    - An exception no [try] catches, or an error event without listener,
      ends the server process ([crash]).
    - The store executes each statement on in-memory tables and does not
      fail for other reasons than an invalid statement; bound parameters
      are compared with column values without implicit casts.  It stamps
      [created_at] from its own clock ([store_now]), which is not the
      gateway's ([Date_now]).
    - A handler runs as one step: its [await]s are not interleaving points. *)

From Stdlib Require Import ZArith String Ascii List Bool Lia.
From Stdlib Require Import DecimalString.
From Stdlib Require Import Sorting.Mergesort Sorting.Sorted Sorting.Permutation Orders.
Import ListNotations.

Open Scope string_scope.
Open Scope Z_scope.
Open Scope list_scope.

(** ** JavaScript values *)

Inductive jsval : Type :=
| JUndefined
| JNull
| JBool (b : bool)
| JNum (n : Z)
| JStr (s : string).

(** ToBoolean: [undefined], [null], [false], [0] and the empty string are
    falsy. *)
Definition truthy (v : jsval) : bool :=
  match v with
  | JUndefined | JNull => false
  | JBool b => b
  | JNum n => negb (n =? 0)
  | JStr s => negb (s =? "")%string
  end.

(** [!v] *)
Definition js_not (v : jsval) : jsval := JBool (negb (truthy v)).

(** [a || b] *)
Definition js_or (a b : jsval) : jsval := if truthy a then a else b.

(** Strict equality [===], which on scalars is also the SameValueZero
    comparison of [Map] keys. *)
Definition strict_eq (a b : jsval) : bool :=
  match a, b with
  | JUndefined, JUndefined => true
  | JNull, JNull => true
  | JBool x, JBool y => Bool.eqb x y
  | JNum x, JNum y => x =? y
  | JStr x, JStr y => (x =? y)%string
  | _, _ => false
  end.

Definition string_of_Z (n : Z) : string := NilZero.string_of_int (Z.to_int n).

Fixpoint drop_trailing_zeros (digits : string) : string :=
  match digits with
  | EmptyString => EmptyString
  | String c rest =>
      match drop_trailing_zeros rest with
      | EmptyString => if Ascii.eqb c "0" then EmptyString else String c EmptyString
      | kept => String c kept
      end
  end.

(** Number::toString of an integer: decimal digits below 10^21, from there
    on exponent notation ([1e+21], [1.5e+21]).  JavaScript prints the
    shortest digits that read back as the same double: these are the
    integer's own digits on the safe integers, which is where statements
    that compare the texts of two numbers are made ([safe_integer]). *)
Definition Number_toString (n : Z) : string :=
  if Z.abs n <? 1000000000000000000000 then string_of_Z n
  else
    match string_of_Z (Z.abs n) with
    | EmptyString => EmptyString
    | String d rest =>
        ((if (n <? 0)%Z then "-" else "")
         ++ String d (match drop_trailing_zeros rest with
                      | EmptyString => EmptyString
                      | fraction => "." ++ fraction
                      end)
         ++ "e+" ++ string_of_Z (Z.of_nat (String.length rest)))%string
    end.

(** The integers on which the model is exact: the safe integers, which
    [JSON.parse] returns as written and JavaScript prints in full. *)
Definition safe_integer (v : jsval) : bool :=
  match v with
  | JNum n => Z.abs n <=? 9007199254740991
  | _ => true
  end.

(** [String(v)], also the conversion of a template literal [`${v}`]. *)
Definition String_ (v : jsval) : string :=
  match v with
  | JUndefined => "undefined"
  | JNull => "null"
  | JBool true => "true"
  | JBool false => "false"
  | JNum n => Number_toString n
  | JStr s => s
  end.

(** ** JSON documents sent to clients and to the broker *)

#[warnings="-register-all"]
Inductive json : Type :=
| JVal (v : jsval)
| JObject (props : list (string * json))
| JArray (items : list json).

Definition is_undefined (j : json) : bool :=
  match j with
  | JVal JUndefined => true
  | _ => false
  end.

(** [JSON.stringify] of an object literal: a property whose value is
    [undefined] is left out. *)
Definition JSON_stringify (props : list (string * json)) : json :=
  JObject (filter (fun p => negb (is_undefined (snd p))) props).

(** The bytes one character of a string takes inside a JSON string
    literal: the quote and the backslash are escaped with a backslash, the
    control characters as [\b \t \n \f \r] or as [\u00XX]. *)
Definition escaped_char_length (c : ascii) : Z :=
  let n := Z.of_nat (nat_of_ascii c) in
  if (n =? 34) || (n =? 92) then 2
  else if 32 <=? n then 1
  else if (n =? 8) || (n =? 9) || (n =? 10) || (n =? 12) || (n =? 13) then 2
  else 6.

Fixpoint escaped_length (s : string) : Z :=
  match s with
  | EmptyString => 0
  | String c rest => escaped_char_length c + escaped_length rest
  end.

Definition quoted_length (s : string) : Z := 2 + escaped_length s.

Definition scalar_length (v : jsval) : Z :=
  match v with
  | JUndefined | JNull => 4
  | JBool true => 4
  | JBool false => 5
  | JNum n => Z.of_nat (String.length (Number_toString n))
  | JStr s => quoted_length s
  end.

(** The byte length of the text [JSON.stringify] produces, which is the
    length of [sc.encode] of it: no white space, members separated by
    commas, [undefined] inside an array printed as [null]. *)
Fixpoint JSON_length (j : json) : Z :=
  match j with
  | JVal v => scalar_length v
  | JObject props =>
      2 + (fix members (l : list (string * json)) : Z :=
             match l with
             | [] => 0
             | (k, v) :: rest =>
                 quoted_length k + 1 + JSON_length v
                 + (match rest with [] => 0 | _ => 1 end) + members rest
             end) props
  | JArray items =>
      2 + (fix elements (l : list json) : Z :=
             match l with
             | [] => 0
             | v :: rest =>
                 JSON_length v + (match rest with [] => 0 | _ => 1 end)
                 + elements rest
             end) items
  end.

(** ** Inbound frames *)

(** What [JSON.parse] yields on text that parses: a scalar ([null], a
    boolean, a number, a string), an array, or an object with its
    properties. *)
Inductive parsed : Type :=
| PScalar (v : jsval)
| PArray
| PObject (fields : list (string * jsval)).

Inductive frame : Type :=
| Invalid (err : string)
| Parsed (p : parsed).

Definition JSON_parse (raw : frame) : string + parsed :=
  match raw with
  | Invalid err => inl err
  | Parsed p => inr p
  end.

Fixpoint lookup (k : string) (fields : list (string * jsval)) : jsval :=
  match fields with
  | [] => JUndefined
  | (k', v) :: rest => if (k =? k')%string then v else lookup k rest
  end.

(** Property read [msg.k]; numbers, booleans, strings and arrays have none
    of the property names the handlers read. *)
Definition prop (msg : parsed) (k : string) : jsval :=
  match msg with
  | PObject fields => lookup k fields
  | _ => JUndefined
  end.

(** The message of the TypeError raised by destructuring [null]. *)
Definition destructure_null_message : string :=
  "Cannot destructure property 'action' of 'msg' as it is null.".

Definition destructure_undefined_message : string :=
  "Cannot destructure property 'action' of 'msg' as it is undefined.".

(** [const { action, channelName, uid } = msg] throws on [null] and
    [undefined] and on nothing else. *)
Definition destructure (msg : parsed) : string + parsed :=
  match msg with
  | PScalar JNull => inl destructure_null_message
  | PScalar JUndefined => inl destructure_undefined_message
  | _ => inr msg
  end.

(** [new Date(t).toISOString()] for [t] milliseconds since the epoch, years
    0000 to 9999. *)
Fixpoint pad_digits (width : nat) (n : Z) : string :=
  match width with
  | O => ""
  | S w => (pad_digits w (n / 10) ++ string_of_Z (n mod 10))%string
  end.

Definition civil_from_days (days : Z) : Z * Z * Z :=
  let z := days + 719468 in
  let era := z / 146097 in
  let doe := z - era * 146097 in
  let yoe := (doe - doe / 1460 + doe / 36524 - doe / 146096) / 365 in
  let doy := doe - (365 * yoe + yoe / 4 - yoe / 100) in
  let mp := (5 * doy + 2) / 153 in
  let d := doy - (153 * mp + 2) / 5 + 1 in
  let m := if mp <? 10 then mp + 3 else mp - 9 in
  let y := yoe + era * 400 + (if m <=? 2 then 1 else 0) in
  (y, m, d).

Definition toISOString (t : Z) : string :=
  let '(y, m, d) := civil_from_days (t / 86400000) in
  let ms := t mod 86400000 in
  (pad_digits 4 y ++ "-" ++ pad_digits 2 m ++ "-" ++ pad_digits 2 d ++ "T"
   ++ pad_digits 2 (ms / 3600000) ++ ":" ++ pad_digits 2 (ms / 60000 mod 60)
   ++ ":" ++ pad_digits 2 (ms / 1000 mod 60) ++ "." ++ pad_digits 3 (ms mod 1000)
   ++ "Z")%string.

(** ** The store (MySQL through [pool.query]) *)

(** Table [chat_messages]; [id] is the auto-increment key and [created_at]
    is filled by the store from its own clock. *)
Record chat_row : Type := mk_chat_row {
  cm_id : Z;
  cm_channel_name : jsval;
  cm_uid : jsval;
  cm_username : jsval;
  cm_message : jsval;
  cm_created_at : Z
}.

(** Table [meeting_participants]. *)
Record participant_row : Type := mk_participant_row {
  mp_channel_name : jsval;
  mp_uid : jsval;
  mp_is_camera_off : jsval;
  mp_is_muted : jsval
}.

Record store : Type := mk_store {
  chat_messages : list chat_row;
  meeting_participants : list participant_row;
  auto_increment : Z;
  store_now : Z
}.

(** A bound [undefined] is sent as [NULL]. *)
Definition sql_bind (v : jsval) : jsval :=
  match v with
  | JUndefined => JNull
  | _ => v
  end.

(** [column = ?]: never true when either side is [NULL]. *)
Definition sql_eq (column param : jsval) : bool :=
  match column, sql_bind param with
  | JNull, _ | _, JNull => false
  | c, p => strict_eq c p
  end.

Definition ER_PARSE_ERROR : string := "You have an error in your SQL syntax".

(** [LIMIT ?] accepts an unsigned integer literal of at most 64 bits; any
    other bound value (a sign, quotes, [true], a larger number, which is
    also where JavaScript would print an exponent) makes the statement
    invalid and [pool.query] rejects. *)
Definition sql_limit (param : jsval) : string + nat :=
  match param with
  | JNum n =>
      if (0 <=? n) && (n <=? 18446744073709551615)
      then inr (Z.to_nat n) else inl ER_PARSE_ERROR
  | _ => inl ER_PARSE_ERROR
  end.

(** [ORDER BY created_at DESC]: a merge sort by creation time, newest
    first.  SQL leaves the order among rows of equal creation time open;
    the sort picks one, and no statement below relies on which. *)
Module CreatedAtDesc <: TotalLeBool.
Definition t := chat_row.
Definition leb (x y : chat_row) : bool := cm_created_at y <=? cm_created_at x.
Lemma leb_total : forall x y, leb x y = true \/ leb y x = true.
Proof. intros x y. unfold leb. rewrite !Z.leb_le. lia. Qed.
End CreatedAtDesc.

Module ByCreatedAtDesc := Sort CreatedAtDesc.

(** [SELECT * FROM chat_messages WHERE channel_name = ? ORDER BY created_at
    DESC LIMIT ?] *)
Definition select_messages (channelName limit : jsval) (s : store)
  : string + list chat_row :=
  match sql_limit limit with
  | inl err => inl err
  | inr n =>
      inr (firstn n (ByCreatedAtDesc.sort
             (filter (fun r => sql_eq (cm_channel_name r) channelName)
                     (chat_messages s))))
  end.

(** [INSERT INTO chat_messages (channel_name, uid, username, message) VALUES
    (?, ?, ?, ?)]; the result carries [insertId]. *)
Definition insert_message (channelName uid username message : jsval) (s : store)
  : Z * store :=
  let row := mk_chat_row (auto_increment s) (sql_bind channelName) (sql_bind uid)
                         (sql_bind username) (sql_bind message) (store_now s) in
  (auto_increment s,
   mk_store (chat_messages s ++ [row]) (meeting_participants s)
            (auto_increment s + 1) (store_now s)).

Definition participant_matches (channelName uid : jsval) (r : participant_row) : bool :=
  sql_eq (mp_channel_name r) channelName && sql_eq (mp_uid r) uid.

Definition update_participants (f : participant_row -> participant_row)
  (channelName uid : jsval) (s : store) : store :=
  mk_store (chat_messages s)
           (map (fun r => if participant_matches channelName uid r then f r else r)
                (meeting_participants s))
           (auto_increment s) (store_now s).

(** [UPDATE meeting_participants SET is_camera_off = ?, is_muted = ? WHERE
    channel_name = ? AND uid = ?] *)
Definition update_status (isCameraOff isMuted channelName uid : jsval) : store -> store :=
  update_participants
    (fun r => mk_participant_row (mp_channel_name r) (mp_uid r)
                                 (sql_bind isCameraOff) (sql_bind isMuted))
    channelName uid.

(** [UPDATE meeting_participants SET is_camera_off = ? WHERE channel_name = ?
    AND uid = ?] *)
Definition update_camera (isCameraOff channelName uid : jsval) : store -> store :=
  update_participants
    (fun r => mk_participant_row (mp_channel_name r) (mp_uid r)
                                 (sql_bind isCameraOff) (mp_is_muted r))
    channelName uid.

(** [UPDATE meeting_participants SET is_muted = ? WHERE channel_name = ? AND
    uid = ?] *)
Definition update_muted (isMuted channelName uid : jsval) : store -> store :=
  update_participants
    (fun r => mk_participant_row (mp_channel_name r) (mp_uid r)
                                 (mp_is_camera_off r) (sql_bind isMuted))
    channelName uid.

Definition message_matches (messageId channelName : jsval) (r : chat_row) : bool :=
  sql_eq (JNum (cm_id r)) messageId && sql_eq (cm_channel_name r) channelName.

(** [DELETE FROM chat_messages WHERE id = ? AND channel_name = ?] *)
Definition delete_message (messageId channelName : jsval) (s : store) : store :=
  mk_store (filter (fun r => negb (message_matches messageId channelName r))
                   (chat_messages s))
           (meeting_participants s) (auto_increment s) (store_now s).

(** A row as [JSON.stringify] renders it in a result set: [NULL] columns are
    [null], the creation time is an ISO-8601 string. *)
Definition row_json (r : chat_row) : json :=
  JObject [("id", JVal (JNum (cm_id r)));
           ("channel_name", JVal (cm_channel_name r));
           ("uid", JVal (cm_uid r));
           ("username", JVal (cm_username r));
           ("message", JVal (cm_message r));
           ("created_at", JVal (JStr (toISOString (cm_created_at r))))].

(** ** Connections, the channel registry and the broker *)

Definition wsid := nat.

Inductive ready_state : Type := CONNECTING | OPEN | CLOSING | CLOSED.

Definition is_open (r : ready_state) : bool :=
  match r with
  | OPEN => true
  | _ => false
  end.

(** One accepted socket with the variables its handlers close over
    ([clientChannel], [clientUid]) and its [natsSub] property; [sent] is the
    sequence of frames written to the client. *)
Record conn : Type := mk_conn {
  clientChannel : jsval;
  clientUid : jsval;
  natsSub : option nat;
  readyState : ready_state;
  sent : list json
}.

(** A subscription returned by [nc.subscribe], with the socket its
    forwarding loop writes to; [sub_live] is cleared by [unsubscribe]. *)
Record subscription : Type := mk_subscription {
  sub_subject : string;
  sub_ws : wsid;
  sub_live : bool
}.

(** A pending [setTimeout] callback; every callback of the program is one
    [nc.publish]. *)
Record timer : Type := mk_timer {
  timer_delay : Z;
  timer_subject : string;
  timer_payload : json
}.

Record world : Type := mk_world {
  channels : list (jsval * list wsid);
  conns : wsid -> conn;
  subs : list subscription;
  published : list (string * json);
  db : store;
  timers : list timer;
  Date_now : Z;
  running : bool
}.

(** [Set<WebSocket>] *)
Definition Set_has (x : wsid) (s : list wsid) : bool := existsb (Nat.eqb x) s.

Definition Set_add (x : wsid) (s : list wsid) : list wsid :=
  if Set_has x s then s else s ++ [x].

Definition Set_delete (x : wsid) (s : list wsid) : list wsid :=
  filter (fun y => negb (Nat.eqb x y)) s.

(** [Map<channelName, Set<WebSocket>>], in insertion order. *)
Fixpoint Map_get (k : jsval) (m : list (jsval * list wsid)) : option (list wsid) :=
  match m with
  | [] => None
  | (k', v) :: rest => if strict_eq k k' then Some v else Map_get k rest
  end.

Definition Map_has (k : jsval) (m : list (jsval * list wsid)) : bool :=
  match Map_get k m with
  | Some _ => true
  | None => false
  end.

Fixpoint Map_set (k : jsval) (v : list wsid) (m : list (jsval * list wsid))
  : list (jsval * list wsid) :=
  match m with
  | [] => [(k, v)]
  | (k', v') :: rest =>
      if strict_eq k k' then (k', v) :: rest else (k', v') :: Map_set k v rest
  end.

(** [m.get(k).f()] for a mutating set method [f]. *)
Definition Map_mutate (k : jsval) (f : list wsid -> list wsid)
  (m : list (jsval * list wsid)) : list (jsval * list wsid) :=
  match Map_get k m with
  | Some v => Map_set k (f v) m
  | None => m
  end.

(** The members of a channel; no entry means no member. *)
Definition members (k : jsval) (w : world) : list wsid :=
  match Map_get k (channels w) with
  | Some v => v
  | None => []
  end.

Definition set_conn (ws : wsid) (c : conn) (w : world) : world :=
  mk_world (channels w)
           (fun k => if Nat.eqb k ws then c else conns w k)
           (subs w) (published w) (db w) (timers w) (Date_now w) (running w).

Definition set_channels (m : list (jsval * list wsid)) (w : world) : world :=
  mk_world m (conns w) (subs w) (published w) (db w) (timers w) (Date_now w)
           (running w).

Definition set_subs (l : list subscription) (w : world) : world :=
  mk_world (channels w) (conns w) l (published w) (db w) (timers w) (Date_now w)
           (running w).

Definition set_db (s : store) (w : world) : world :=
  mk_world (channels w) (conns w) (subs w) (published w) s (timers w) (Date_now w)
           (running w).

Definition set_timers (l : list timer) (w : world) : world :=
  mk_world (channels w) (conns w) (subs w) (published w) (db w) l (Date_now w)
           (running w).

(** [ws.send(payload)]: written when the socket is open, dropped otherwise. *)
Definition ws_send (ws : wsid) (payload : json) (w : world) : world :=
  let c := conns w ws in
  if is_open (readyState c)
  then set_conn ws (mk_conn (clientChannel c) (clientUid c) (natsSub c)
                            (readyState c) (sent c ++ [payload])) w
  else w.

(** [`meeting.${channelName}`] *)
Definition subject_of (channelName : jsval) : string :=
  ("meeting." ++ String_ channelName)%string.

(** One turn of the forwarding loop of a subscription:
    [if (ws.readyState === WebSocket.OPEN) ws.send(sc.decode(m.data))]. *)
Definition forward (subject : string) (payload : json) (s : subscription) (w : world)
  : world :=
  if sub_live s && (sub_subject s =? subject)%string
  then (if is_open (readyState (conns w (sub_ws s)))
        then ws_send (sub_ws s) payload w else w)
  else w.

Definition deliver (subject : string) (payload : json) (w : world) : world :=
  fold_left (fun acc s => forward subject payload s acc) (subs w) w.

(** What [nc.publish] does with a payload it accepts: the payload is
    logged at the broker and forwarded. *)
Definition nc_publish (subject : string) (payload : json) (w : world) : world :=
  deliver subject payload
    (mk_world (channels w) (conns w) (subs w)
              (published w ++ [(subject, payload)]) (db w) (timers w) (Date_now w)
              (running w)).

(** The [max_payload] the server announces, 1 MiB unless it is configured
    otherwise. *)
Definition max_payload : Z := 1048576.

Definition MAX_PAYLOAD_EXCEEDED : string := "MAX_PAYLOAD_EXCEEDED".

Definition fits (payload : json) : bool := JSON_length payload <=? max_payload.

(** [nc.publish(subject, sc.encode(JSON.stringify(payload)))]: throws when
    the encoded payload is larger than [max_payload], before anything is
    sent. *)
Definition try_publish (subject : string) (payload : json) (w : world)
  : string + world :=
  if fits payload then inr (nc_publish subject payload w)
  else inl MAX_PAYLOAD_EXCEEDED.

(** [nc.subscribe(subject)] together with the forwarding loop started on
    the returned subscription; the result is the new handle. *)
Definition nc_subscribe (subject : string) (ws : wsid) (w : world) : nat * world :=
  (length (subs w), set_subs (subs w ++ [mk_subscription subject ws true]) w).

Fixpoint unsubscribe_at (i : nat) (l : list subscription) : list subscription :=
  match l, i with
  | [], _ => []
  | s :: rest, O => mk_subscription (sub_subject s) (sub_ws s) false :: rest
  | s :: rest, S j => s :: unsubscribe_at j rest
  end.

(** [sub.unsubscribe()] *)
Definition unsubscribe (i : nat) (w : world) : world :=
  set_subs (unsubscribe_at i (subs w)) w.

(** [setTimeout(() => nc.publish(subject, payload), delay)] *)
Definition setTimeout (delay : Z) (subject : string) (payload : json) (w : world)
  : world :=
  set_timers (timers w ++ [mk_timer delay subject payload]) w.

(** ** The action handlers of [ws.on('message')] *)

Definition str (s : string) : json := JVal (JStr s).

(** How a handler body ends: it ran to its end, or a statement threw, in
    the state the statements before it had produced. *)
Inductive outcome : Type :=
| Done (w : world)
| Threw (err : string) (w : world).

(** A statement [nc.publish(...)] inside a handler. *)
Definition publish_or_throw (subject : string) (payload : json) (w : world) : outcome :=
  match try_publish subject payload w with
  | inr w' => Done w'
  | inl err => Threw err w
  end.

Section Handlers.

Variable ws : wsid.
Variable msg : parsed.

(** [const { action, channelName, uid } = msg] *)
Let action := prop msg "action".
Let channelName := prop msg "channelName".
Let uid := prop msg "uid".

(** [case 'join'] *)
Definition handle_join (w : world) : world :=
  let c := conns w ws in
  let w := set_conn ws (mk_conn channelName uid (natsSub c) (readyState c) (sent c)) w in
  let w := if negb (Map_has channelName (channels w))
           then set_channels (Map_set channelName [] (channels w)) w
           else w in
  let w := set_channels (Map_mutate channelName (Set_add ws) (channels w)) w in
  let '(sub, w) := nc_subscribe (subject_of channelName) ws w in
  let c := conns w ws in
  let w := set_conn ws (mk_conn (clientChannel c) (clientUid c) (Some sub)
                                (readyState c) (sent c)) w in
  ws_send ws (JSON_stringify [("action", str "joined");
                              ("channelName", JVal channelName)]) w.

(** [case 'get-messages'] *)
Definition handle_get_messages (w : world) : outcome :=
  match select_messages channelName (js_or (prop msg "limit") (JNum 50)) (db w) with
  | inl err => Threw err w
  | inr rows =>
      Done (ws_send ws (JSON_stringify [("action", str "messages");
                                        ("channelName", JVal channelName);
                                        ("data", JArray (map row_json rows))]) w)
  end.

(** The [newMsg] object of [case 'send-message']. *)
Definition newMsg (insertId : Z) (now : Z) : json :=
  JSON_stringify [("id", JVal (JNum insertId));
                  ("channel_name", JVal channelName);
                  ("uid", JVal uid);
                  ("username", JVal (prop msg "username"));
                  ("message", JVal (prop msg "message"));
                  ("created_at", str (toISOString now))].

(** [case 'send-message'] *)
Definition handle_send_message (w : world) : outcome :=
  let '(insertId, s) :=
    insert_message channelName uid (prop msg "username") (prop msg "message") (db w) in
  let w := set_db s w in
  publish_or_throw (subject_of channelName)
                   (JSON_stringify [("action", str "new-message");
                                    ("channelName", JVal channelName);
                                    ("data", newMsg insertId (Date_now w))]) w.

(** The event published by [case 'update-status']. *)
Definition status_changed (who isCameraOff isMuted : jsval) : json :=
  JSON_stringify [("action", str "participant-status-changed");
                  ("channelName", JVal channelName);
                  ("data", JSON_stringify [("uid", JVal who);
                                           ("isCameraOff", JVal isCameraOff);
                                           ("isMuted", JVal isMuted)])].

(** [case 'update-status'] *)
Definition handle_update_status (w : world) : outcome :=
  let w := set_db (update_status (prop msg "isCameraOff") (prop msg "isMuted")
                                 channelName uid (db w)) w in
  publish_or_throw (subject_of channelName)
                   (status_changed uid (prop msg "isCameraOff") (prop msg "isMuted")) w.

Definition message_deleted : json :=
  JSON_stringify [("action", str "message-deleted");
                  ("channelName", JVal channelName);
                  ("data", JSON_stringify [("messageId", JVal (prop msg "messageId"))])].

(** [case 'delete-message'] *)
Definition handle_delete_message (w : world) : outcome :=
  let w := set_db (delete_message (prop msg "messageId") channelName (db w)) w in
  publish_or_throw (subject_of channelName) message_deleted w.

Definition device_toggled : json :=
  JSON_stringify [("action", str "device-toggled");
                  ("channelName", JVal channelName);
                  ("data", JSON_stringify [("targetUid", JVal (prop msg "targetUid"));
                                           ("device", JVal (prop msg "device"));
                                           ("state", JVal (prop msg "state"))])].

(** The event published from the [setTimeout] callback of
    [case 'toggle-device']. *)
Definition toggled_status : json :=
  status_changed (prop msg "targetUid")
    (if strict_eq (prop msg "device") (JStr "camera")
     then js_not (prop msg "state") else JUndefined)
    (if strict_eq (prop msg "device") (JStr "mic")
     then js_not (prop msg "state") else JUndefined).

(** [case 'toggle-device']: when the first publish throws, the
    [setTimeout] after it is not reached. *)
Definition handle_toggle_device (w : world) : outcome :=
  let target := JStr (String_ (prop msg "targetUid")) in
  let w :=
    if strict_eq (prop msg "device") (JStr "camera")
    then set_db (update_camera (js_not (prop msg "state")) channelName target (db w)) w
    else if strict_eq (prop msg "device") (JStr "mic")
    then set_db (update_muted (js_not (prop msg "state")) channelName target (db w)) w
    else w in
  match try_publish (subject_of channelName) device_toggled w with
  | inl err => Threw err w
  | inr w => Done (setTimeout 100 (subject_of channelName) toggled_status w)
  end.

Definition meeting_ended : json :=
  JSON_stringify [("action", str "meeting-ended");
                  ("channelName", JVal channelName);
                  ("endedBy", JVal (js_or (prop msg "username") (JStr "Host")))].

(** [case 'end-meeting'] (the [console.log] line writes to the process
    output only). *)
Definition handle_end_meeting (w : world) : outcome :=
  publish_or_throw (subject_of channelName) meeting_ended w.

(** The [switch (action)] of src/unnamed/part_000: no [default] case, an
    action that matches no [case] does nothing. *)
Definition dispatch (w : world) : outcome :=
  if strict_eq action (JStr "join") then Done (handle_join w)
  else if strict_eq action (JStr "get-messages") then handle_get_messages w
  else if strict_eq action (JStr "send-message") then handle_send_message w
  else if strict_eq action (JStr "update-status") then handle_update_status w
  else if strict_eq action (JStr "delete-message") then handle_delete_message w
  else if strict_eq action (JStr "toggle-device") then handle_toggle_device w
  else if strict_eq action (JStr "end-meeting") then handle_end_meeting w
  else Done w.

(** The [switch (action)] of src/main.js, which has the first five cases
    only. *)
Definition dispatch_main (w : world) : outcome :=
  if strict_eq action (JStr "join") then Done (handle_join w)
  else if strict_eq action (JStr "get-messages") then handle_get_messages w
  else if strict_eq action (JStr "send-message") then handle_send_message w
  else if strict_eq action (JStr "update-status") then handle_update_status w
  else if strict_eq action (JStr "delete-message") then handle_delete_message w
  else Done w.

End Handlers.

(** The body of the [try] block: parse, destructure, dispatch.  Parsing
    and destructuring throw before anything has happened; a store statement
    or a publish throws in the state the handler has reached by then. *)
Definition try_message (ws : wsid) (raw : frame) (w : world) : outcome :=
  match JSON_parse raw with
  | inl err => Threw err w
  | inr parsed =>
      match destructure parsed with
      | inl err => Threw err w
      | inr msg => dispatch ws msg w
      end
  end.

Definition error_event (err : string) : json :=
  JSON_stringify [("action", str "error"); ("message", str err)].

(** [catch (err) { console.error(...); ws.send(JSON.stringify({ action:
    'error', message: err.message })); }] *)
Definition settle (ws : wsid) (o : outcome) : world :=
  match o with
  | Done w => w
  | Threw err w => ws_send ws (error_event err) w
  end.

(** [ws.on('message', async (raw) => { try { ... } catch (err) { ... } })] *)
Definition onMessage (ws : wsid) (raw : frame) (w : world) : world :=
  settle ws (try_message ws raw w).

(** The same handler in src/main.js. *)
Definition onMessage_main (ws : wsid) (raw : frame) (w : world) : world :=
  settle ws (match JSON_parse raw with
             | inl err => Threw err w
             | inr parsed =>
                 match destructure parsed with
                 | inl err => Threw err w
                 | inr msg => dispatch_main ws msg w
                 end
             end).

(** [ws.on('close', () => { ... })] *)
Definition onClose (ws : wsid) (w : world) : world :=
  let c := conns w ws in
  let w := if truthy (clientChannel c) && Map_has (clientChannel c) (channels w)
           then set_channels (Map_mutate (clientChannel c) (Set_delete ws) (channels w)) w
           else w in
  match natsSub (conns w ws) with
  | Some sub => unsubscribe sub w
  | None => w
  end.

(** ** The event loop *)

Inductive event : Type :=
| EConnect (ws : wsid)
| EMessage (ws : wsid) (raw : frame)
| EInvalidFrame (ws : wsid)
| EClose (ws : wsid)
| ETimer
| EClock (store_ms date_ms : Z).

(** [wss.on('connection', (ws) => { let clientChannel = null; let clientUid
    = null; ... })] *)
Definition onConnection (ws : wsid) (w : world) : world :=
  set_conn ws (mk_conn JNull JNull None OPEN []) w.

(** The socket reaches [CLOSED], then its close handler runs. *)
Definition close (ws : wsid) (w : world) : world :=
  let c := conns w ws in
  onClose ws (set_conn ws (mk_conn (clientChannel c) (clientUid c) (natsSub c)
                                   CLOSED (sent c)) w).

(** The server process ends on an uncaught exception: its sockets are
    closed without their close handlers running, its broker connection and
    with it every subscription is gone, its timers are dropped. *)
Definition crash (w : world) : world :=
  mk_world (channels w)
           (fun k => let c := conns w k in
                     if is_open (readyState c)
                     then mk_conn (clientChannel c) (clientUid c) (natsSub c)
                                  CLOSED (sent c)
                     else c)
           (map (fun s => mk_subscription (sub_subject s) (sub_ws s) false) (subs w))
           (published w) (db w) [] (Date_now w) false.

(** The oldest pending timer fires; all delays of the program are equal, so
    timers fire in the order they were set.  The callback has no [try]: a
    publish that throws ends the process. *)
Definition fire_timer (w : world) : world :=
  match timers w with
  | [] => w
  | t :: rest =>
      match try_publish (timer_subject t) (timer_payload t) (set_timers rest w) with
      | inr w' => w'
      | inl _ => crash (set_timers rest w)
      end
  end.

Definition set_clocks (store_ms date_ms : Z) (w : world) : world :=
  mk_world (channels w) (conns w) (subs w) (published w)
           (mk_store (chat_messages (db w)) (meeting_participants (db w))
                     (auto_increment (db w)) store_ms)
           (timers w) date_ms (running w).

(** A text frame that is not valid UTF-8: the socket emits [error], no
    listener is registered for it, and the uncaught error ends the
    process. *)
Definition onInvalidFrame (ws : wsid) (w : world) : world := crash w.

Definition step (e : event) (w : world) : world :=
  match e with
  | EConnect ws => onConnection ws w
  | EMessage ws raw => onMessage ws raw w
  | EInvalidFrame ws => onInvalidFrame ws w
  | EClose ws => close ws w
  | ETimer => fire_timer w
  | EClock s d => set_clocks s d w
  end.

(** An event can occur while the process runs: a socket connects once,
    sends frames and closes while open; clocks do not run backwards. *)
Definition enabled (e : event) (w : world) : bool :=
  running w &&
  match e with
  | EConnect ws =>
      match readyState (conns w ws) with CONNECTING => true | _ => false end
  | EMessage ws _ | EInvalidFrame ws | EClose ws => is_open (readyState (conns w ws))
  | ETimer => match timers w with [] => false | _ => true end
  | EClock s d => (store_now (db w) <=? s) && (Date_now w <=? d)
  end.

Definition run (es : list event) (w : world) : world :=
  fold_left (fun acc e => step e acc) es w.

(** The server starts on whatever the store already holds, with no socket
    accepted yet. *)
Definition init (s : store) : world :=
  mk_world [] (fun _ => mk_conn JNull JNull None CONNECTING []) [] [] s [] 0 true.

Definition empty_store : store := mk_store [] [] 1 0.

Inductive reachable : world -> Prop :=
| reachable_init s : reachable (init s)
| reachable_step w e : reachable w -> enabled e w = true -> reachable (step e w).

(** ** Notions used in the statements *)

(** Everything of the world except the sockets. *)
Definition same_outside_conns (w w' : world) : Prop :=
  channels w' = channels w /\ subs w' = subs w /\ published w' = published w
  /\ db w' = db w /\ timers w' = timers w /\ Date_now w' = Date_now w.

(** Every socket keeps its handler variables, handle and state. *)
Definition same_conn_state (w w' : world) : Prop :=
  forall k, clientChannel (conns w' k) = clientChannel (conns w k)
            /\ clientUid (conns w' k) = clientUid (conns w k)
            /\ natsSub (conns w' k) = natsSub (conns w k)
            /\ readyState (conns w' k) = readyState (conns w k).

(** Registry, subscriptions and socket states are the same. *)
Definition quiet (w w' : world) : Prop :=
  channels w' = channels w /\ subs w' = subs w /\ same_conn_state w w'.

(** How many live subscriptions on [subject] write to socket [k]. *)
Fixpoint fanout (subject : string) (k : wsid) (l : list subscription) : nat :=
  match l with
  | [] => O
  | s :: rest =>
      (if sub_live s && (sub_subject s =? subject)%string && Nat.eqb (sub_ws s) k
       then 1 else 0)%nat + fanout subject k rest
  end.

Definition deliver_list (subject : string) (payload : json)
  (l : list subscription) (w : world) : world :=
  fold_left (fun acc s => forward subject payload s acc) l w.

(** The rows of a channel, in table order. *)
Definition rows_of (channelName : jsval) (s : store) : list chat_row :=
  filter (fun r => sql_eq (cm_channel_name r) channelName) (chat_messages s).

(** Newest first. *)
Definition newer_or_equal (a b : chat_row) : Prop := cm_created_at b <= cm_created_at a.

Definition messages_event (channelName : jsval) (rows : list chat_row) : json :=
  JSON_stringify [("action", str "messages");
                  ("channelName", JVal channelName);
                  ("data", JArray (map row_json rows))].

(** A socket that never processed a join. *)
Definition never_joined (ws : wsid) (w : world) : Prop :=
  clientChannel (conns w ws) = JNull
  /\ natsSub (conns w ws) = None
  /\ forall c, ~ In ws (members c w).

(** The socket is in state Joined(c): its handler variable names [c], its
    handle [s] is a live subscription of its own on [c]'s subject, and it is
    a member of [c]. *)
Definition joined_to (ws : wsid) (c : jsval) (s : nat) (w : world) : Prop :=
  clientChannel (conns w ws) = c
  /\ natsSub (conns w ws) = Some s
  /\ nth_error (subs w) s = Some (mk_subscription (subject_of c) ws true)
  /\ In ws (members c w).

(** Every event of the list can occur in turn. *)
Fixpoint admissible (es : list event) (w : world) : bool :=
  match es with
  | [] => true
  | e :: rest => enabled e w && admissible rest (step e w)
  end.

(** An open member of a channel holds a live subscription on the channel's
    subject; a handle names a subscription of its own socket; a socket not
    yet accepted has neither membership nor handle. *)
Definition consistent (w : world) : Prop :=
  (forall k c, readyState (conns w k) = OPEN -> In k (members c w) ->
               exists i, nth_error (subs w) i =
                         Some (mk_subscription (subject_of c) k true))
  /\ (forall k i, natsSub (conns w k) = Some i ->
                  exists s, nth_error (subs w) i = Some s /\ sub_ws s = k)
  /\ (forall k, readyState (conns w k) = CONNECTING ->
                natsSub (conns w k) = None /\ forall c, ~ In k (members c w)).

(** The ControlMessage of the specification (its sections 3 and 6): a
    structured message with a string [action] that carries [channelName] and
    [uid].  The action need not be a known kind: unknown kinds are
    well-formed and ignored. *)
Definition well_formed_ControlMessage (raw : frame) : bool :=
  match raw with
  | Parsed (PObject fields) =>
      match lookup "action" fields with
      | JStr _ =>
          negb (strict_eq (lookup "channelName" fields) JUndefined)
          && negb (strict_eq (lookup "uid" fields) JUndefined)
      | _ => false
      end
  | _ => false
  end.

(** The statement of C2 as the specification words it: after the handler a
    record keyed by (channel, participant) exists and holds the supplied
    flags. *)
Definition upserted (msg : parsed) (w' : world) : Prop :=
  exists r, In r (meeting_participants (db w'))
            /\ participant_matches (prop msg "channelName") (prop msg "uid") r = true
            /\ mp_is_camera_off r = sql_bind (prop msg "isCameraOff")
            /\ mp_is_muted r = sql_bind (prop msg "isMuted").

(** ** Sample stores, frames and runs *)

Definition room1_store : store :=
  mk_store [mk_chat_row 1 (JStr "room1") (JStr "u1") (JStr "Alice") (JStr "one") 1000;
            mk_chat_row 2 (JStr "room1") (JStr "u2") (JStr "Bob") (JStr "two") 2000;
            mk_chat_row 3 (JStr "room2") (JStr "u1") (JStr "Alice") (JStr "three") 3000;
            mk_chat_row 4 (JStr "room1") (JStr "u1") (JStr "Alice") (JStr "four") 4000;
            mk_chat_row 5 (JStr "room1") (JStr "u2") (JStr "Bob") (JStr "five") 5000;
            mk_chat_row 6 (JStr "room1") (JStr "u1") (JStr "Alice") (JStr "six") 6000]
           [mk_participant_row (JStr "room1") (JStr "u1") (JBool false) (JBool false);
            mk_participant_row (JStr "room1") (JStr "u2") (JBool false) (JBool true)]
           7 7000.

(** One socket, accepted and not joined, on [room1_store]. *)
Definition lobby : world := step (EConnect O) (init room1_store).

Definition join_room1 : parsed :=
  PObject [("action", JStr "join"); ("channelName", JStr "room1"); ("uid", JStr "u1")].

Definition join_room2 : parsed :=
  PObject [("action", JStr "join"); ("channelName", JStr "room2"); ("uid", JStr "u1")].

Definition join_without_channel : parsed := PObject [("action", JStr "join")].

Definition get_two : parsed :=
  PObject [("action", JStr "get-messages"); ("channelName", JStr "room1");
           ("uid", JStr "u1"); ("limit", JNum 2)].

Definition get_zero : parsed :=
  PObject [("action", JStr "get-messages"); ("channelName", JStr "room1");
           ("uid", JStr "u1"); ("limit", JNum 0)].

Definition get_default : parsed :=
  PObject [("action", JStr "get-messages"); ("channelName", JStr "room1");
           ("uid", JStr "u1")].

Definition send_hi : parsed :=
  PObject [("action", JStr "send-message"); ("channelName", JStr "room1");
           ("uid", JStr "u1"); ("username", JStr "Alice"); ("message", JStr "hi")].

Definition update_unknown : parsed :=
  PObject [("action", JStr "update-status"); ("channelName", JStr "room1");
           ("uid", JStr "u9"); ("isCameraOff", JBool true); ("isMuted", JBool true)].

Definition update_u2 : parsed :=
  PObject [("action", JStr "update-status"); ("channelName", JStr "room1");
           ("uid", JStr "u2"); ("isCameraOff", JBool true); ("isMuted", JBool false)].

Definition delete_missing : parsed :=
  PObject [("action", JStr "delete-message"); ("channelName", JStr "room1");
           ("uid", JStr "u1"); ("messageId", JNum 99)].

Definition toggle_mic_on : parsed :=
  PObject [("action", JStr "toggle-device"); ("channelName", JStr "room1");
           ("uid", JStr "u1"); ("targetUid", JStr "u2");
           ("device", JStr "mic"); ("state", JBool true)].

(** Socket 0 joined to room1. *)
Definition in_room1 : world := onMessage O (Parsed join_room1) lobby.

(** Socket 0 never joins; socket 1 is joined to room1. *)
Definition one_listener : world :=
  run [EConnect 1%nat; EMessage 1%nat (Parsed join_room1)] lobby.

(** Store clock and gateway clock as they are a moment apart: the store
    stamps whole seconds, the gateway reads its own clock after the insert
    has returned. *)
Definition two_clocks : world :=
  run [EClock 1700000000000 1700000000123; EConnect O;
       EMessage O (Parsed join_room1)] (init empty_store).

Definition rejoin_then_close : list event :=
  [EConnect O; EMessage O (Parsed join_room1); EMessage O (Parsed join_room2);
   EClose O].

(** ** Notions and samples for the further properties *)

(** The seven [case] labels of the [switch]. *)
Definition action_kinds : list string :=
  ["join"; "get-messages"; "send-message"; "update-status"; "delete-message";
   "toggle-device"; "end-meeting"].

Definition end_anonymous : parsed :=
  PObject [("action", JStr "end-meeting"); ("channelName", JStr "room1");
           ("uid", JStr "u1")].

Definition leave_room1 : parsed :=
  PObject [("action", JStr "leave"); ("channelName", JStr "room1"); ("uid", JStr "u1")].

Definition toggle_speaker : parsed :=
  PObject [("action", JStr "toggle-device"); ("channelName", JStr "room1");
           ("uid", JStr "u1"); ("targetUid", JStr "u2");
           ("device", JStr "speaker"); ("state", JBool true)].

Definition get_negative : parsed :=
  PObject [("action", JStr "get-messages"); ("channelName", JStr "room1");
           ("uid", JStr "u1"); ("limit", JNum (-1))].

Definition join_empty_name : parsed :=
  PObject [("action", JStr "join"); ("channelName", JStr ""); ("uid", JStr "u1")].

Definition join_text_1 : parsed :=
  PObject [("action", JStr "join"); ("channelName", JStr "1"); ("uid", JStr "u1")].

Definition end_number_1 : parsed :=
  PObject [("action", JStr "end-meeting"); ("channelName", JNum 1);
           ("uid", JStr "u2"); ("username", JStr "Bob")].

(** Socket 0 joined to the channel named by the string "1", socket 1
    accepted. *)
Definition text_channel : world :=
  run [EMessage O (Parsed join_text_1); EConnect 1%nat] lobby.

(** The key of a participant record. *)
Definition participant_key (r : participant_row) : jsval * jsval :=
  (mp_channel_name r, mp_uid r).

(** Every subscription belongs to a socket that keeps a handle. *)
Definition handles_cover_subs (w : world) : Prop :=
  forall i s, nth_error (subs w) i = Some s -> natsSub (conns w (sub_ws s)) <> None.

(** The five actions that publish on the channel's subject at once. *)
Definition broadcast_kinds : list string :=
  ["send-message"; "update-status"; "delete-message"; "toggle-device"; "end-meeting"].

(** Socket 0 joined to room1 and closed, socket 1 joined to room1. *)
Definition one_left : world :=
  run [EMessage O (Parsed join_room1); EConnect 1%nat;
       EMessage 1%nat (Parsed join_room1); EClose O] lobby.

Definition get_elsewhere : parsed :=
  PObject [("action", JStr "get-messages"); ("channelName", JStr "nowhere");
           ("uid", JStr "u1"); ("limit", JNum 10)].

Definition get_all_room1 : parsed :=
  PObject [("action", JStr "get-messages"); ("channelName", JStr "room1");
           ("uid", JStr "u2"); ("limit", JNum 100)].

Definition delete_seventh : parsed :=
  PObject [("action", JStr "delete-message"); ("channelName", JStr "room1");
           ("uid", JStr "u2"); ("messageId", JNum 7)].

(** A string of [2^k] copies of [s]. *)
Fixpoint doubled (k : nat) (s : string) : string :=
  match k with
  | O => s
  | S k' => (doubled k' s ++ doubled k' s)%string
  end.

(** A name of 1 MiB. *)
Definition big_name : string := doubled 20 "a".

Definition big_delete : parsed :=
  PObject [("action", JStr "delete-message"); ("channelName", JStr big_name);
           ("uid", JStr "u1"); ("messageId", JNum 99)].

Definition toggle_absent : parsed :=
  PObject [("action", JStr "toggle-device"); ("channelName", JStr "room1");
           ("uid", JStr "u1"); ("targetUid", JStr "u9");
           ("device", JStr "mic"); ("state", JBool true)].

(** What one [nc.publish] inside the [try] block leaves to observe: the
    event is appended to the broker log when it fits the payload limit;
    when it does not, nothing is published and the sender is written the
    error event of the [catch] block. *)
Definition published_or_refused (ws : wsid) (subject : string) (event : json)
                                (w w' : world) : Prop :=
  (fits event = true -> published w' = published w ++ [(subject, event)])
  /\ (fits event = false ->
      published w' = published w
      /\ sent (conns w' ws) =
         sent (conns w ws) ++
         (if is_open (readyState (conns w ws))
          then [error_event MAX_PAYLOAD_EXCEEDED] else [])).

Definition delete_fourth : parsed :=
  PObject [("action", JStr "delete-message"); ("channelName", JStr "room1");
           ("uid", JStr "u9"); ("messageId", JNum 4)].

(** The event each of the five publishing handlers hands to [nc.publish]. *)
Definition broadcast_event (msg : parsed) (w : world) : json :=
  let action := prop msg "action" in
  if strict_eq action (JStr "send-message")
  then JSON_stringify [("action", str "new-message");
                       ("channelName", JVal (prop msg "channelName"));
                       ("data", newMsg msg (auto_increment (db w)) (Date_now w))]
  else if strict_eq action (JStr "update-status")
  then status_changed msg (prop msg "uid") (prop msg "isCameraOff") (prop msg "isMuted")
  else if strict_eq action (JStr "delete-message") then message_deleted msg
  else if strict_eq action (JStr "toggle-device") then device_toggled msg
  else meeting_ended msg.

(** * Properties *)

(** ** Date rendering, checked on known instants *)

Example toISOString_epoch : toISOString 0 = "1970-01-01T00:00:00.000Z".
Proof. vm_compute. reflexivity. Qed.

Example toISOString_2023 :
  toISOString 1700000000123 = "2023-11-14T22:13:20.123Z".
Proof. vm_compute. reflexivity. Qed.

Example toISOString_leap : toISOString 1709164800000 = "2024-02-29T00:00:00.000Z".
Proof. vm_compute. reflexivity. Qed.

Example toISOString_before_epoch : toISOString (-1) = "1969-12-31T23:59:59.999Z".
Proof. vm_compute. reflexivity. Qed.

Example toISOString_last : toISOString 253402300799999 = "9999-12-31T23:59:59.999Z".
Proof. vm_compute. reflexivity. Qed.

(** ** What a write to a socket and a publish leave alone *)

Lemma same_outside_refl w : same_outside_conns w w.
Proof. repeat split. Qed.

Lemma same_state_refl w : same_conn_state w w.
Proof. intro k. repeat split. Qed.

Lemma same_state_trans w1 w2 w3 :
  same_conn_state w1 w2 -> same_conn_state w2 w3 -> same_conn_state w1 w3.
Proof.
  intros H12 H23 k. destruct (H12 k) as (a & b & c & d).
  destruct (H23 k) as (a' & b' & c' & d'). repeat split; congruence.
Qed.

Lemma ws_send_outside ws p w : same_outside_conns w (ws_send ws p w).
Proof. unfold ws_send. destruct (is_open _); repeat split. Qed.

Lemma ws_send_state ws p w : same_conn_state w (ws_send ws p w).
Proof.
  intro k. unfold ws_send. destruct (is_open _); [|repeat split].
  simpl. destruct (Nat.eqb_spec k ws); subst; repeat split.
Qed.

Lemma ws_send_sent ws p w k :
  sent (conns (ws_send ws p w) k) =
  sent (conns w k) ++
  (if Nat.eqb k ws && is_open (readyState (conns w ws)) then [p] else []).
Proof.
  unfold ws_send. destruct (is_open _) eqn:Ho.
  - simpl. destruct (Nat.eqb_spec k ws); subst; simpl; [reflexivity|].
    now rewrite app_nil_r.
  - rewrite andb_false_r. now rewrite app_nil_r.
Qed.

Lemma forward_outside subject p s w : same_outside_conns w (forward subject p s w).
Proof.
  unfold forward. destruct (_ && _); [|apply same_outside_refl].
  destruct (is_open _); [apply ws_send_outside | apply same_outside_refl].
Qed.

Lemma forward_state subject p s w : same_conn_state w (forward subject p s w).
Proof.
  unfold forward. destruct (_ && _); [|apply same_state_refl].
  destruct (is_open _); [apply ws_send_state | apply same_state_refl].
Qed.

Lemma forward_sent subject p s w k :
  sent (conns (forward subject p s w) k) =
  sent (conns w k) ++
  repeat p (if is_open (readyState (conns w k)) then fanout subject k [s] else O).
Proof.
  unfold forward. simpl fanout. rewrite Nat.add_0_r.
  destruct (sub_live s && (sub_subject s =? subject)%string) eqn:Hm; simpl.
  - destruct (is_open (readyState (conns w (sub_ws s)))) eqn:Ho.
    + rewrite ws_send_sent, Ho, andb_true_r, (Nat.eqb_sym k).
      destruct (Nat.eqb_spec (sub_ws s) k); subst; simpl.
      * now rewrite Ho.
      * destruct (is_open (readyState (conns w k))); reflexivity.
    + destruct (Nat.eqb_spec (sub_ws s) k); subst.
      * rewrite Ho. simpl. now rewrite app_nil_r.
      * destruct (is_open (readyState (conns w k))); simpl; now rewrite app_nil_r.
  - destruct (is_open (readyState (conns w k))); simpl; now rewrite app_nil_r.
Qed.

Lemma deliver_list_outside subject p l :
  forall w, same_outside_conns w (deliver_list subject p l w).
Proof.
  induction l as [|s l IH]; intro w; simpl; [apply same_outside_refl|].
  destruct (IH (forward subject p s w)) as (a & b & c & d & e & f).
  destruct (forward_outside subject p s w) as (a' & b' & c' & d' & e' & f').
  unfold deliver_list in *. repeat split; congruence.
Qed.

Lemma deliver_list_state subject p l :
  forall w, same_conn_state w (deliver_list subject p l w).
Proof.
  induction l as [|s l IH]; intro w; simpl; [apply same_state_refl|].
  eapply same_state_trans; [apply forward_state | apply IH].
Qed.

Lemma deliver_list_sent subject p l k :
  forall w,
    sent (conns (deliver_list subject p l w) k) =
    sent (conns w k) ++
    repeat p (if is_open (readyState (conns w k)) then fanout subject k l else O).
Proof.
  induction l as [|s l IH]; intro w.
  - simpl. destruct (is_open _); simpl; now rewrite app_nil_r.
  - change (deliver_list subject p (s :: l) w)
      with (deliver_list subject p l (forward subject p s w)).
    rewrite IH, forward_sent.
    destruct (forward_state subject p s w k) as (_ & _ & _ & Hr). rewrite Hr.
    rewrite <- app_assoc, <- repeat_app.
    destruct (is_open (readyState (conns w k))); [|reflexivity].
    simpl fanout. now rewrite Nat.add_0_r.
Qed.

(** A publish appends one entry to the broker log, writes the payload once
    per live subscription of the subject to each open socket, and changes
    nothing else. *)
Lemma nc_publish_spec subject p w :
  let w' := nc_publish subject p w in
  channels w' = channels w /\ subs w' = subs w /\ db w' = db w
  /\ timers w' = timers w /\ Date_now w' = Date_now w
  /\ published w' = published w ++ [(subject, p)]
  /\ same_conn_state w w'
  /\ forall k, sent (conns w' k) =
               sent (conns w k) ++
               repeat p (if is_open (readyState (conns w k))
                         then fanout subject k (subs w) else O).
Proof.
  unfold nc_publish, deliver. cbv zeta.
  set (w0 := mk_world _ _ _ _ _ _ _ _).
  change (fold_left _ (subs w0) w0) with (deliver_list subject p (subs w0) w0).
  destruct (deliver_list_outside subject p (subs w0) w0) as (a & b & c & d & e & f).
  repeat split; try assumption.
  - apply (deliver_list_state subject p (subs w0) w0 k).
  - apply (deliver_list_state subject p (subs w0) w0 k).
  - apply (deliver_list_state subject p (subs w0) w0 k).
  - apply (deliver_list_state subject p (subs w0) w0 k).
  - intro k. apply (deliver_list_sent subject p (subs w0) k w0).
Qed.

(** ** Number printing and payload sizes, checked on known values *)

Example Number_toString_known :
  Number_toString 42 = "42"
  /\ Number_toString (-7) = "-7"
  /\ Number_toString 999999999999999999999 = "999999999999999999999"
  /\ Number_toString 1000000000000000000000 = "1e+21"
  /\ Number_toString 1500000000000000000000 = "1.5e+21"
  /\ Number_toString (-1230000000000000000000000) = "-1.23e+24".
Proof. repeat split; vm_compute; reflexivity. Qed.

(** The join acknowledgement for room1 is 41 bytes long; a quote and a
    line feed inside a string take two bytes each. *)
Example JSON_length_known :
  JSON_length (JSON_stringify [("action", str "joined");
                               ("channelName", str "room1")]) = 41
  /\ JSON_length (JSON_stringify [("action", str "error");
                                  ("message", JVal (JStr (String "a" (String (ascii_of_nat 34)
                                     (String "b" (String "010" EmptyString))))))])
     = 37
  /\ JSON_length (JSON_stringify [("data", JArray [JVal (JNum 10); JVal JNull;
                                                   JVal (JBool false)]);
                                  ("skipped", JVal JUndefined)]) = 24.
Proof. repeat split; vm_compute; reflexivity. Qed.

(** ** Publishing from a handler *)

Lemma ws_send_running ws p w : running (ws_send ws p w) = running w.
Proof. unfold ws_send. now destruct (is_open _). Qed.

Lemma forward_running subject p s w : running (forward subject p s w) = running w.
Proof.
  unfold forward. destruct (_ && _); [|reflexivity].
  destruct (is_open _); [apply ws_send_running | reflexivity].
Qed.

Lemma deliver_list_running subject p l :
  forall w, running (deliver_list subject p l w) = running w.
Proof.
  induction l as [|s l IH]; intro w; [reflexivity|].
  change (deliver_list subject p (s :: l) w)
    with (deliver_list subject p l (forward subject p s w)).
  now rewrite IH, forward_running.
Qed.

Lemma nc_publish_running subject p w : running (nc_publish subject p w) = running w.
Proof.
  unfold nc_publish, deliver.
  set (w0 := mk_world _ _ _ _ _ _ _ _).
  change (fold_left _ (subs w0) w0) with (deliver_list subject p (subs w0) w0).
  now rewrite deliver_list_running.
Qed.

Lemma try_publish_fits subject p w :
  fits p = true -> try_publish subject p w = inr (nc_publish subject p w).
Proof. intro H. unfold try_publish. now rewrite H. Qed.


Lemma ws_send_others ws p w k : k <> ws -> conns (ws_send ws p w) k = conns w k.
Proof.
  intro Hk. unfold ws_send. destruct (is_open _); [|reflexivity].
  simpl. now destruct (Nat.eqb_spec k ws).
Qed.

(** A publish statement followed by the handler's [catch]: whatever the
    size of the payload, store, registry, subscriptions, timers and socket
    states stay; a payload that fits is logged once and written once per
    live subscription of the subject; one that does not is not published
    and the sender is written the error. *)
Lemma settle_publish ws subject event w0 :
  let w' := settle ws (publish_or_throw subject event w0) in
  channels w' = channels w0 /\ subs w' = subs w0 /\ db w' = db w0
  /\ timers w' = timers w0 /\ Date_now w' = Date_now w0 /\ running w' = running w0
  /\ same_conn_state w0 w'
  /\ (fits event = true ->
      published w' = published w0 ++ [(subject, event)]
      /\ forall k, sent (conns w' k) =
                   sent (conns w0 k) ++
                   repeat event (if is_open (readyState (conns w0 k))
                                 then fanout subject k (subs w0) else O))
  /\ (fits event = false ->
      published w' = published w0
      /\ sent (conns w' ws) =
         sent (conns w0 ws) ++
         (if is_open (readyState (conns w0 ws))
          then [error_event MAX_PAYLOAD_EXCEEDED] else [])
      /\ forall k, k <> ws -> conns w' k = conns w0 k).
Proof.
  unfold publish_or_throw, try_publish. cbv zeta.
  destruct (fits event) eqn:Hf; simpl settle.
  - destruct (nc_publish_spec subject event w0)
      as (Hc & Hs & Hd & Ht & Hn & Hp & Hst & Hsent).
    cbv zeta in *. pose proof (nc_publish_running subject event w0) as Hr.
    repeat split; try assumption; try discriminate; apply Hst.
  - destruct (ws_send_outside ws (error_event MAX_PAYLOAD_EXCEEDED) w0)
      as (Hc & Hs & Hp & Hd & Ht & Hn).
    pose proof (ws_send_state ws (error_event MAX_PAYLOAD_EXCEEDED) w0) as Hst.
    pose proof (ws_send_running ws (error_event MAX_PAYLOAD_EXCEEDED) w0) as Hr.
    repeat split; try assumption; try discriminate; try apply Hst.
    + rewrite ws_send_sent, Nat.eqb_refl. reflexivity.
    + intros k Hk. now apply ws_send_others.
Qed.

(** ** Dispatch *)

Lemma prop_object msg k v :
  prop msg k = v -> v <> JUndefined -> exists fields, msg = PObject fields.
Proof.
  destruct msg; simpl; intros H Hv; try (now subst; contradiction Hv).
  now exists fields.
Qed.

(** A frame whose [action] is a string is an object, so parsing and
    destructuring succeed and the [switch] decides. *)
Lemma onMessage_action ws msg w a :
  prop msg "action" = JStr a ->
  onMessage ws (Parsed msg) w = settle ws (dispatch ws msg w).
Proof.
  intro H. destruct (prop_object _ _ _ H) as [fields ->]; [discriminate|].
  reflexivity.
Qed.

Lemma onMessage_join ws msg w :
  prop msg "action" = JStr "join" ->
  onMessage ws (Parsed msg) w = handle_join ws msg w.
Proof.
  intro H. rewrite (onMessage_action _ _ _ _ H). unfold dispatch. now rewrite H.
Qed.

Lemma onMessage_get_messages ws msg w :
  prop msg "action" = JStr "get-messages" ->
  onMessage ws (Parsed msg) w = settle ws (handle_get_messages ws msg w).
Proof.
  intro H. rewrite (onMessage_action _ _ _ _ H). unfold dispatch. now rewrite H.
Qed.

Lemma onMessage_send_message ws msg w :
  prop msg "action" = JStr "send-message" ->
  onMessage ws (Parsed msg) w = settle ws (handle_send_message msg w).
Proof.
  intro H. rewrite (onMessage_action _ _ _ _ H). unfold dispatch. now rewrite H.
Qed.

Lemma onMessage_update_status ws msg w :
  prop msg "action" = JStr "update-status" ->
  onMessage ws (Parsed msg) w = settle ws (handle_update_status msg w).
Proof.
  intro H. rewrite (onMessage_action _ _ _ _ H). unfold dispatch. now rewrite H.
Qed.

Lemma onMessage_delete_message ws msg w :
  prop msg "action" = JStr "delete-message" ->
  onMessage ws (Parsed msg) w = settle ws (handle_delete_message msg w).
Proof.
  intro H. rewrite (onMessage_action _ _ _ _ H). unfold dispatch. now rewrite H.
Qed.

Lemma onMessage_toggle_device ws msg w :
  prop msg "action" = JStr "toggle-device" ->
  onMessage ws (Parsed msg) w = settle ws (handle_toggle_device msg w).
Proof.
  intro H. rewrite (onMessage_action _ _ _ _ H). unfold dispatch. now rewrite H.
Qed.

Lemma onMessage_end_meeting ws msg w :
  prop msg "action" = JStr "end-meeting" ->
  onMessage ws (Parsed msg) w = settle ws (handle_end_meeting msg w).
Proof.
  intro H. rewrite (onMessage_action _ _ _ _ H). unfold dispatch. now rewrite H.
Qed.

(** src/main.js and src/unnamed/part_000 agree on every frame except the two
    actions only the latter handles. *)
Lemma onMessage_main_agrees ws raw w :
  (forall msg, raw = Parsed msg ->
               prop msg "action" <> JStr "toggle-device"
               /\ prop msg "action" <> JStr "end-meeting") ->
  onMessage_main ws raw w = onMessage ws raw w.
Proof.
  intro H. unfold onMessage_main, onMessage, try_message.
  destruct raw as [err|msg]; [reflexivity|]. simpl.
  destruct (H msg eq_refl) as [Ht He].
  destruct msg as [v| |fields]; [destruct v; reflexivity | reflexivity |].
  unfold dispatch, dispatch_main. simpl in *.
  destruct (lookup "action" fields) as [| |b|n|s]; try reflexivity.
  simpl.
  repeat match goal with
         | |- context [(s =? ?lit)%string] =>
             destruct (String.eqb_spec s lit); [subst; try reflexivity|]
         end; try reflexivity.
  - now contradiction Ht.
  - now contradiction He.
Qed.

(** ** The store statements *)

Lemma filter_all_true {A} (f : A -> bool) (l : list A) :
  (forall x, In x l -> f x = true) -> filter f l = l.
Proof.
  induction l as [|a l IH]; intro H; simpl; [reflexivity|].
  rewrite (H a (or_introl eq_refl)). f_equal. apply IH.
  intros x Hx. apply H. now right.
Qed.

Lemma delete_message_no_match messageId channelName s :
  (forall r, In r (chat_messages s) -> message_matches messageId channelName r = false) ->
  delete_message messageId channelName s = s.
Proof.
  intro H. unfold delete_message. rewrite filter_all_true.
  - now destruct s.
  - intros r Hr. now rewrite (H r Hr).
Qed.

Lemma update_participants_nth f channelName uid s i r :
  nth_error (meeting_participants s) i = Some r ->
  nth_error (meeting_participants (update_participants f channelName uid s)) i =
  Some (if participant_matches channelName uid r then f r else r).
Proof.
  intro H. unfold update_participants. simpl.
  rewrite nth_error_map, H. reflexivity.
Qed.

Lemma update_participants_length f channelName uid s :
  length (meeting_participants (update_participants f channelName uid s)) =
  length (meeting_participants s).
Proof. unfold update_participants. simpl. apply length_map. Qed.

(** A store statement, then a publish, then the [catch]. *)
Lemma store_then_publish ws s subject event w :
  let w' := settle ws (publish_or_throw subject event (set_db s w)) in
  db w' = s /\ channels w' = channels w /\ subs w' = subs w
  /\ timers w' = timers w /\ running w' = running w /\ same_conn_state w w'
  /\ (fits event = true ->
      published w' = published w ++ [(subject, event)]
      /\ forall k, sent (conns w' k) =
                   sent (conns w k) ++
                   repeat event (if is_open (readyState (conns w k))
                                 then fanout subject k (subs w) else O))
  /\ (fits event = false ->
      published w' = published w
      /\ sent (conns w' ws) =
         sent (conns w ws) ++
         (if is_open (readyState (conns w ws))
          then [error_event MAX_PAYLOAD_EXCEEDED] else [])
      /\ forall k, k <> ws -> conns w' k = conns w k).
Proof.
  destruct (settle_publish ws subject event (set_db s w))
    as (Hc & Hs & Hd & Ht & _ & Hr & Hst & Hfit & Hbig).
  cbv zeta in *. repeat split; try assumption; try apply Hst.
  - now apply Hfit.
  - now apply Hfit.
  - now apply Hbig.
  - now apply Hbig.
  - now apply Hbig.
Qed.

(** ** Payloads larger than the broker accepts *)

Lemma escaped_char_positive c : 1 <= escaped_char_length c.
Proof.
  unfold escaped_char_length.
  repeat match goal with
         | |- context [if ?b then _ else _] => destruct b
         end; lia.
Qed.

Lemma escaped_length_app a b :
  escaped_length (a ++ b)%string = escaped_length a + escaped_length b.
Proof. induction a as [|c a IH]; simpl; [reflexivity|]. rewrite IH. lia. Qed.

Lemma escaped_length_doubled k s :
  escaped_length (doubled k s) = 2 ^ Z.of_nat k * escaped_length s.
Proof.
  induction k as [|k IH].
  - change (doubled O s) with s. change (Z.of_nat 0) with 0.
    rewrite Z.pow_0_r. lia.
  - change (doubled (S k) s) with (doubled k s ++ doubled k s)%string.
    rewrite escaped_length_app, IH, Nat2Z.inj_succ, Z.pow_succ_r by lia. ring.
Qed.

Lemma big_name_length : escaped_length big_name = 1048576.
Proof. unfold big_name. rewrite escaped_length_doubled. reflexivity. Qed.

(** ** delete-message *)

Lemma onMessage_delete_message_steps ws msg w :
  prop msg "action" = JStr "delete-message" ->
  onMessage ws (Parsed msg) w =
  settle ws (publish_or_throw
               (subject_of (prop msg "channelName"))
               (JSON_stringify
                  [("action", str "message-deleted");
                   ("channelName", JVal (prop msg "channelName"));
                   ("data", JSON_stringify [("messageId", JVal (prop msg "messageId"))])])
               (set_db (delete_message (prop msg "messageId") (prop msg "channelName")
                                       (db w)) w)).
Proof. intro H. now rewrite (onMessage_delete_message _ _ _ H). Qed.

(** C3, counterexample.  A delete-message whose channel name is 1 MiB long:
    the DELETE has run when [nc.publish] throws on the oversized event, so
    nothing is published and the sender is written an error event
    instead. *)
Lemma oversized_delete_publishes_nothing :
  prop big_delete "action" = JStr "delete-message"
  /\ published (onMessage O (Parsed big_delete) lobby) = published lobby
  /\ sent (conns (onMessage O (Parsed big_delete) lobby) O) =
     [error_event MAX_PAYLOAD_EXCEEDED].
Proof.
  split; [reflexivity|].
  rewrite (onMessage_delete_message_steps O big_delete lobby eq_refl).
  match goal with
  | |- context [publish_or_throw ?subj ?ev (set_db ?s ?w0)] =>
      destruct (store_then_publish O s subj ev w0)
        as (_ & _ & _ & _ & _ & _ & _ & Hbig);
      assert (Hsize : fits ev = false)
  end.
  { unfold fits. apply Z.leb_gt.
    change (prop big_delete "channelName") with (JStr big_name).
    change (prop big_delete "messageId") with (JNum 99).
    cbn -[Z.add escaped_length big_name].
    change (quoted_length big_name) with (2 + escaped_length big_name).
    rewrite big_name_length. vm_compute. reflexivity. }
  destruct (Hbig Hsize) as (Hp & Hs & _). split; [exact Hp | exact Hs].
Qed.

(** C3, amended.  A delete-message runs the delete by (id, channel) on the
    store, which leaves the whole store as it was when no row matches, and
    then, whether or not a row was deleted, publishes one message-deleted
    event with that id on the channel's subject when the event fits the
    broker's payload limit; when it does not, nothing is published and the
    sender is written an error event. *)
Theorem delete_message_then_publishes ws msg w :
  prop msg "action" = JStr "delete-message" ->
  let messageId := prop msg "messageId" in
  let channelName := prop msg "channelName" in
  let event :=
    JSON_stringify [("action", str "message-deleted");
                    ("channelName", JVal channelName);
                    ("data", JSON_stringify [("messageId", JVal messageId)])] in
  let w' := onMessage ws (Parsed msg) w in
  chat_messages (db w') =
    filter (fun r => negb (sql_eq (JNum (cm_id r)) messageId
                           && sql_eq (cm_channel_name r) channelName))
           (chat_messages (db w))
  /\ meeting_participants (db w') = meeting_participants (db w)
  /\ ((forall r, In r (chat_messages (db w)) ->
                 sql_eq (JNum (cm_id r)) messageId
                 && sql_eq (cm_channel_name r) channelName = false) ->
      db w' = db w)
  /\ channels w' = channels w /\ subs w' = subs w
  /\ (fits event = true ->
      published w' = published w ++ [(subject_of channelName, event)])
  /\ (fits event = false ->
      published w' = published w
      /\ sent (conns w' ws) =
         sent (conns w ws) ++
         (if is_open (readyState (conns w ws))
          then [error_event MAX_PAYLOAD_EXCEEDED] else [])).
Proof.
  intros H messageId channelName event w'. subst w'.
  rewrite (onMessage_delete_message_steps _ _ _ H).
  fold messageId channelName event.
  destruct (store_then_publish ws (delete_message messageId channelName (db w))
              (subject_of channelName) event w)
    as (Hd & Hc & Hs & _ & _ & _ & Hfit & Hbig).
  cbv zeta in *. rewrite Hd.
  split; [reflexivity|]. split; [reflexivity|]. split.
  { intro Hno. now apply delete_message_no_match. }
  split; [exact Hc|]. split; [exact Hs|]. split.
  - intro Hf. now apply Hfit.
  - intro Hf. destruct (Hbig Hf) as (Hp & Hsent & _). now split.
Qed.

Lemma delete_message_then_publishes_witness :
  prop delete_missing "action" = JStr "delete-message"
  /\ db (onMessage O (Parsed delete_missing) lobby) = db lobby
  /\ published (onMessage O (Parsed delete_missing) lobby) =
     [("meeting.room1",
       JObject [("action", str "message-deleted"); ("channelName", str "room1");
                ("data", JObject [("messageId", JVal (JNum 99))])])].
Proof.
  split; [reflexivity|].
  destruct (delete_message_then_publishes O delete_missing lobby eq_refl)
    as (_ & _ & Hno & _ & _ & Hp & _).
  split; [|exact (Hp eq_refl)].
  apply Hno. intros r Hr. simpl in Hr.
  repeat (destruct Hr as [<-|Hr]; [reflexivity|]). contradiction.
Defined.

(** ** The channel registry *)

Lemma strict_eq_eq a b : strict_eq a b = true <-> a = b.
Proof.
  destruct a, b; simpl; split; intro H; try discriminate; try reflexivity.
  - f_equal. now apply Bool.eqb_prop.
  - injection H as ->. apply Bool.eqb_reflx.
  - f_equal. now apply Z.eqb_eq.
  - injection H as ->. apply Z.eqb_refl.
  - f_equal. now apply String.eqb_eq.
  - injection H as ->. apply String.eqb_refl.
Qed.

Lemma strict_eq_refl a : strict_eq a a = true.
Proof. now apply strict_eq_eq. Qed.

Lemma Map_get_set k k' v m :
  Map_get k (Map_set k' v m) = if strict_eq k k' then Some v else Map_get k m.
Proof.
  induction m as [|[k0 v0] m IH]; simpl.
  - reflexivity.
  - destruct (strict_eq k' k0) eqn:E0; simpl.
    + apply strict_eq_eq in E0. subst k0.
      now destruct (strict_eq k k').
    + rewrite IH. destruct (strict_eq k k0) eqn:E1; [|reflexivity].
      apply strict_eq_eq in E1. subst k0.
      destruct (strict_eq k k') eqn:E2; [|reflexivity].
      apply strict_eq_eq in E2. subst k'. now rewrite strict_eq_refl in E0.
Qed.

Lemma Map_get_mutate k c f m :
  Map_get k (Map_mutate c f m) =
  if strict_eq k c then option_map f (Map_get k m) else Map_get k m.
Proof.
  unfold Map_mutate. destruct (Map_get c m) as [v|] eqn:Hc.
  - rewrite Map_get_set. destruct (strict_eq k c) eqn:E; [|reflexivity].
    apply strict_eq_eq in E. subst k. now rewrite Hc.
  - destruct (strict_eq k c) eqn:E; [|reflexivity].
    apply strict_eq_eq in E. subst k. now rewrite Hc.
Qed.

Lemma Set_add_in x s : In x (Set_add x s).
Proof.
  unfold Set_add, Set_has. destruct (existsb (Nat.eqb x) s) eqn:E.
  - apply existsb_exists in E. destruct E as (y & Hy & Heq).
    apply Nat.eqb_eq in Heq. now subst.
  - apply in_or_app. right. now left.
Qed.

Lemma Set_add_keeps x y s : In x s -> In x (Set_add y s).
Proof.
  intro H. unfold Set_add. destruct (Set_has y s); [assumption|].
  apply in_or_app. now left.
Qed.

Lemma Set_add_inv x y s : In x (Set_add y s) -> In x s \/ x = y.
Proof.
  unfold Set_add. destruct (Set_has y s); [now left|].
  intro H. apply in_app_or in H. destruct H as [H|[H|[]]]; [now left | now right].
Qed.

Lemma Set_delete_in x y s : In x (Set_delete y s) <-> In x s /\ x <> y.
Proof.
  unfold Set_delete. rewrite filter_In. split; intros [H1 H2]; split; try assumption.
  - intro Heq. subst. now rewrite Nat.eqb_refl in H2.
  - destruct (Nat.eqb_spec y x); [now subst|reflexivity].
Qed.

(** The state after a join, field by field. *)
Lemma handle_join_spec ws msg w :
  let c := prop msg "channelName" in
  let w' := handle_join ws msg w in
  (forall k, members k w' =
             if strict_eq k c then Set_add ws (members k w) else members k w)
  /\ subs w' = subs w ++ [mk_subscription (subject_of c) ws true]
  /\ clientChannel (conns w' ws) = c
  /\ clientUid (conns w' ws) = prop msg "uid"
  /\ natsSub (conns w' ws) = Some (length (subs w))
  /\ readyState (conns w' ws) = readyState (conns w ws)
  /\ sent (conns w' ws) =
     sent (conns w ws) ++
     (if is_open (readyState (conns w ws))
      then [JSON_stringify [("action", str "joined"); ("channelName", JVal c)]]
      else [])
  /\ (forall k, k <> ws -> conns w' k = conns w k)
  /\ published w' = published w /\ db w' = db w
  /\ timers w' = timers w /\ Date_now w' = Date_now w.
Proof.
  intros c w'. subst w'. unfold handle_join, nc_subscribe. fold c.
  set (w1 := set_conn ws _ w).
  set (w2 := if negb (Map_has c (channels w1)) then _ else w1).
  set (w3 := set_channels _ w2).
  set (w4 := set_conn ws _ (set_subs _ w3)).
  assert (H2 : conns w2 = conns w1 /\ subs w2 = subs w1 /\ published w2 = published w1
               /\ db w2 = db w1 /\ timers w2 = timers w1 /\ Date_now w2 = Date_now w1)
    by (subst w2; destruct (negb _); repeat split).
  destruct H2 as (Hc2 & Hs2 & Hp2 & Hd2 & Ht2 & Hn2).
  assert (Hm : forall k, Map_get k (channels w3) =
                         if strict_eq k c
                         then Some (Set_add ws (members k w))
                         else Map_get k (channels w)).
  { intro k. subst w3. simpl channels. rewrite Map_get_mutate.
    destruct (strict_eq k c) eqn:E; subst w2; unfold Map_has, members;
      change (channels w1) with (channels w).
    - apply strict_eq_eq in E. subst k.
      destruct (Map_get c (channels w)) as [v|] eqn:Hv; simpl.
      + now rewrite Hv.
      + now rewrite Map_get_set, strict_eq_refl.
    - destruct (Map_get c (channels w)); simpl; [reflexivity|].
      now rewrite Map_get_set, E. }
  assert (Hopen : readyState (conns w4 ws) = readyState (conns w ws)).
  { subst w4 w3. simpl. rewrite Nat.eqb_refl. simpl. rewrite Hc2. subst w1.
    simpl. now rewrite Nat.eqb_refl. }
  assert (Hsent4 : sent (conns w4 ws) = sent (conns w ws)).
  { subst w4 w3. simpl. rewrite Nat.eqb_refl. simpl. rewrite Hc2. subst w1.
    simpl. now rewrite Nat.eqb_refl. }
  match goal with
  | |- context [ws_send ws ?p w4] =>
      destruct (ws_send_outside ws p w4) as (Hch & Hsu & Hpu & Hdb & Hti & Hno);
      pose proof (ws_send_state ws p w4 ws) as (Hcc & Hcu & Hns & Hrs);
      pose proof (ws_send_sent ws p w4 ws) as Hse;
      pose proof (fun k (Hk : k <> ws) => ws_send_others ws p w4 k Hk) as Hot
  end.
  split; [|split; [|split; [|split; [|split; [|split; [|split; [|split]]]]]]].
  - intro k. unfold members at 1. rewrite Hch. subst w4. simpl channels.
    rewrite Hm. unfold members. now destruct (strict_eq k c).
  - rewrite Hsu. subst w4 w3. simpl. now rewrite Hs2.
  - rewrite Hcc. subst w4 w3. simpl. rewrite Nat.eqb_refl. simpl. rewrite Hc2.
    subst w1. simpl. now rewrite Nat.eqb_refl.
  - rewrite Hcu. subst w4 w3. simpl. rewrite Nat.eqb_refl. simpl. rewrite Hc2.
    subst w1. simpl. now rewrite Nat.eqb_refl.
  - rewrite Hns. subst w4 w3. simpl. rewrite Nat.eqb_refl. simpl. now rewrite Hs2.
  - now rewrite Hrs.
  - rewrite Hse, Nat.eqb_refl, Hopen, Hsent4. simpl. reflexivity.
  - intros k Hk. rewrite (Hot k Hk). subst w4 w3. simpl.
    destruct (Nat.eqb_spec k ws); [contradiction|]. rewrite Hc2. subst w1. simpl.
    now destruct (Nat.eqb_spec k ws).
  - rewrite Hpu, Hdb, Hti, Hno. subst w4 w3. simpl.
    rewrite Hp2, Hd2, Ht2, Hn2. repeat split.
Qed.

Lemma unsubscribe_at_nth i : forall l j,
  nth_error (unsubscribe_at i l) j =
  if Nat.eqb i j
  then option_map (fun s => mk_subscription (sub_subject s) (sub_ws s) false)
                  (nth_error l j)
  else nth_error l j.
Proof.
  induction i as [|i IH]; intros [|s l] [|j]; simpl; try reflexivity.
  - now destruct (Nat.eqb i j).
  - apply IH.
Qed.

(** The state after a disconnect, field by field. *)
Lemma close_spec ws w :
  let c := clientChannel (conns w ws) in
  let w' := close ws w in
  (forall k, members k w' =
             if truthy c && strict_eq k c
             then Set_delete ws (members k w) else members k w)
  /\ subs w' = match natsSub (conns w ws) with
               | Some i => unsubscribe_at i (subs w)
               | None => subs w
               end
  /\ conns w' ws = mk_conn c (clientUid (conns w ws)) (natsSub (conns w ws))
                           CLOSED (sent (conns w ws))
  /\ (forall k, k <> ws -> conns w' k = conns w k)
  /\ published w' = published w /\ db w' = db w
  /\ timers w' = timers w /\ Date_now w' = Date_now w.
Proof.
  intros c w'. subst w'. unfold close, onClose. fold c.
  set (w1 := set_conn ws _ w).
  assert (Hc1 : conns w1 ws = mk_conn c (clientUid (conns w ws)) (natsSub (conns w ws))
                                      CLOSED (sent (conns w ws)))
    by (subst w1; simpl; now rewrite Nat.eqb_refl).
  rewrite Hc1. cbn [clientChannel].
  set (w2 := if truthy c && Map_has c (channels w1) then _ else w1).
  assert (H2 : conns w2 = conns w1 /\ subs w2 = subs w /\ published w2 = published w
               /\ db w2 = db w /\ timers w2 = timers w /\ Date_now w2 = Date_now w)
    by (subst w2; destruct (_ && _); repeat split).
  destruct H2 as (Hc2 & Hs2 & Hp2 & Hd2 & Ht2 & Hn2).
  assert (Hm : forall k, members k w2 =
                         if truthy c && strict_eq k c
                         then Set_delete ws (members k w) else members k w).
  { intro k. subst w2. unfold members, Map_has. change (channels w1) with (channels w).
    destruct (truthy c); simpl; [|reflexivity].
    destruct (Map_get c (channels w)) as [v|] eqn:Hv; simpl.
    - rewrite Map_get_mutate. destruct (strict_eq k c); [|reflexivity].
      now destruct (Map_get k (channels w)).
    - destruct (strict_eq k c) eqn:E; [|reflexivity].
      apply strict_eq_eq in E. subst k. now rewrite Hv. }
  rewrite Hc2, Hc1. cbn [natsSub].
  destruct (natsSub (conns w ws)) as [i|]; unfold unsubscribe; simpl;
    rewrite ?Hc2, ?Hs2, ?Hp2, ?Hd2, ?Ht2, ?Hn2, ?Hc1;
    (split; [exact Hm|]); repeat split;
    intros k Hk; subst w1; simpl; now destruct (Nat.eqb_spec k ws).
Qed.



(** ** update-status *)

Lemma onMessage_update_status_steps ws msg w :
  prop msg "action" = JStr "update-status" ->
  onMessage ws (Parsed msg) w =
  settle ws (publish_or_throw
               (subject_of (prop msg "channelName"))
               (JSON_stringify
                  [("action", str "participant-status-changed");
                   ("channelName", JVal (prop msg "channelName"));
                   ("data", JSON_stringify [("uid", JVal (prop msg "uid"));
                                            ("isCameraOff", JVal (prop msg "isCameraOff"));
                                            ("isMuted", JVal (prop msg "isMuted"))])])
               (set_db (update_status (prop msg "isCameraOff") (prop msg "isMuted")
                                      (prop msg "channelName") (prop msg "uid") (db w))
                       w)).
Proof. intro H. now rewrite (onMessage_update_status _ _ _ H). Qed.

(** C2, counterexample.  Participant u9 has no record in room1; after its
    update-status the table is what it was and no record keyed by
    (room1, u9) exists. *)
Lemma update_status_creates_no_record :
  prop update_unknown "action" = JStr "update-status"
  /\ meeting_participants (db (onMessage O (Parsed update_unknown) lobby)) =
     meeting_participants (db lobby)
  /\ ~ upserted update_unknown (onMessage O (Parsed update_unknown) lobby).
Proof.
  split; [reflexivity|]. split; [vm_compute; reflexivity|].
  intros (r & Hin & Hm & _). vm_compute in Hin.
  destruct Hin as [<-|[<-|[]]]; vm_compute in Hm; discriminate.
Qed.

(** C2, amended.  An update-status sets the camera and mute flags of every
    existing record keyed by (channel, participant) to the supplied values,
    leaves every other record and the number of records unchanged (a
    missing record is not created), and then publishes one
    participant-status-changed event with the new flags on the channel's
    subject when the event fits the broker's payload limit; when it does
    not, the update stays, nothing is published and the sender is written
    an error event. *)
Theorem update_status_updates_existing ws msg w :
  prop msg "action" = JStr "update-status" ->
  let channelName := prop msg "channelName" in
  let uid := prop msg "uid" in
  let isCameraOff := prop msg "isCameraOff" in
  let isMuted := prop msg "isMuted" in
  let event :=
    JSON_stringify
      [("action", str "participant-status-changed");
       ("channelName", JVal channelName);
       ("data", JSON_stringify [("uid", JVal uid);
                                ("isCameraOff", JVal isCameraOff);
                                ("isMuted", JVal isMuted)])] in
  let w' := onMessage ws (Parsed msg) w in
  length (meeting_participants (db w')) = length (meeting_participants (db w))
  /\ (forall i r,
        nth_error (meeting_participants (db w)) i = Some r ->
        nth_error (meeting_participants (db w')) i =
        Some (if sql_eq (mp_channel_name r) channelName && sql_eq (mp_uid r) uid
              then mk_participant_row (mp_channel_name r) (mp_uid r)
                                      (sql_bind isCameraOff) (sql_bind isMuted)
              else r))
  /\ chat_messages (db w') = chat_messages (db w)
  /\ (fits event = true ->
      published w' = published w ++ [(subject_of channelName, event)])
  /\ (fits event = false ->
      published w' = published w
      /\ sent (conns w' ws) =
         sent (conns w ws) ++
         (if is_open (readyState (conns w ws))
          then [error_event MAX_PAYLOAD_EXCEEDED] else [])).
Proof.
  intros H channelName uid isCameraOff isMuted event w'. subst w'.
  rewrite (onMessage_update_status_steps _ _ _ H).
  fold channelName uid isCameraOff isMuted event.
  destruct (store_then_publish ws
              (update_status isCameraOff isMuted channelName uid (db w))
              (subject_of channelName) event w)
    as (Hd & _ & _ & _ & _ & _ & Hfit & Hbig).
  cbv zeta in *. rewrite Hd.
  split; [apply update_participants_length|]. split.
  { intros i r Hr. unfold update_status.
    now rewrite (update_participants_nth _ _ _ _ _ _ Hr). }
  split; [reflexivity|]. split.
  - intro Hf. now apply Hfit.
  - intro Hf. destruct (Hbig Hf) as (Hp & Hsent & _). now split.
Qed.

Lemma update_status_updates_existing_witness :
  prop update_u2 "action" = JStr "update-status"
  /\ nth_error (meeting_participants
                  (db (onMessage O (Parsed update_u2) lobby))) 1 =
     Some (mk_participant_row (JStr "room1") (JStr "u2") (JBool true) (JBool false))
  /\ published (onMessage O (Parsed update_u2) lobby) =
     [("meeting.room1",
       JObject [("action", str "participant-status-changed");
                ("channelName", str "room1");
                ("data", JObject [("uid", str "u2");
                                  ("isCameraOff", JVal (JBool true));
                                  ("isMuted", JVal (JBool false))])])].
Proof.
  split; [reflexivity|].
  destruct (update_status_updates_existing O update_u2 lobby eq_refl)
    as (_ & Hrow & _ & Hp & _).
  split; [exact (Hrow 1%nat _ eq_refl) | exact (Hp eq_refl)].
Defined.

(** ** The broker log and the timers *)

Lemma nc_publish_published subject p w :
  published (nc_publish subject p w) = published w ++ [(subject, p)].
Proof. now destruct (nc_publish_spec subject p w) as (_ & _ & _ & _ & _ & Hp & _). Qed.

Lemma settle_published ws o :
  published (settle ws o) =
  published (match o with Done w => w | Threw _ w => w end).
Proof. destruct o as [w|err w]; [reflexivity|]. apply ws_send_outside. Qed.

Lemma publish_or_throw_published subject p w :
  exists more,
    published (match publish_or_throw subject p w with Done x => x | Threw _ x => x end)
    = published w ++ more.
Proof.
  unfold publish_or_throw, try_publish. destruct (fits p).
  - rewrite nc_publish_published. eexists. reflexivity.
  - exists []. now rewrite app_nil_r.
Qed.

(** The three effects of the toggle-device handler, in its two cases. *)
Lemma handle_toggle_device_fields ws msg w :
  let w' := settle ws (handle_toggle_device msg w) in
  db w' =
    (if strict_eq (prop msg "device") (JStr "camera")
     then update_camera (js_not (prop msg "state")) (prop msg "channelName")
                        (JStr (String_ (prop msg "targetUid"))) (db w)
     else if strict_eq (prop msg "device") (JStr "mic")
     then update_muted (js_not (prop msg "state")) (prop msg "channelName")
                       (JStr (String_ (prop msg "targetUid"))) (db w)
     else db w)
  /\ channels w' = channels w /\ subs w' = subs w /\ running w' = running w
  /\ same_conn_state w w'
  /\ (fits (device_toggled msg) = true ->
      published w' =
        published w ++ [(subject_of (prop msg "channelName"), device_toggled msg)]
      /\ timers w' =
         timers w ++ [mk_timer 100 (subject_of (prop msg "channelName"))
                               (toggled_status msg)]
      /\ forall k, sent (conns w' k) =
                   sent (conns w k) ++
                   repeat (device_toggled msg)
                          (if is_open (readyState (conns w k))
                           then fanout (subject_of (prop msg "channelName")) k (subs w)
                           else O))
  /\ (fits (device_toggled msg) = false ->
      published w' = published w /\ timers w' = timers w
      /\ sent (conns w' ws) =
         sent (conns w ws) ++
         (if is_open (readyState (conns w ws))
          then [error_event MAX_PAYLOAD_EXCEEDED] else [])
      /\ forall k, k <> ws -> conns w' k = conns w k).
Proof.
  unfold handle_toggle_device. cbv zeta.
  set (w1 := if strict_eq (prop msg "device") (JStr "camera") then _ else _).
  assert (H1 : db w1 =
               (if strict_eq (prop msg "device") (JStr "camera")
                then update_camera (js_not (prop msg "state")) (prop msg "channelName")
                                   (JStr (String_ (prop msg "targetUid"))) (db w)
                else if strict_eq (prop msg "device") (JStr "mic")
                then update_muted (js_not (prop msg "state")) (prop msg "channelName")
                                  (JStr (String_ (prop msg "targetUid"))) (db w)
                else db w)
               /\ channels w1 = channels w /\ subs w1 = subs w /\ conns w1 = conns w
               /\ published w1 = published w /\ timers w1 = timers w
               /\ running w1 = running w).
  { subst w1. destruct (strict_eq (prop msg "device") (JStr "camera"));
      [|destruct (strict_eq (prop msg "device") (JStr "mic"))]; repeat split. }
  destruct H1 as (Hd1 & Hc1 & Hs1 & Hconns & Hp1 & Ht1 & Hr1).
  destruct (settle_publish ws (subject_of (prop msg "channelName")) (device_toggled msg) w1)
    as (Hc & Hs & Hd & Ht & _ & Hr & Hst & Hfit & Hbig).
  cbv zeta in *. unfold publish_or_throw in *. unfold try_publish in *.
  destruct (fits (device_toggled msg)) eqn:Hf; simpl settle in *.
  - destruct (Hfit eq_refl) as (Hp & Hsent).
    unfold setTimeout.
    change (db (set_timers ?l ?x)) with (db x).
    change (channels (set_timers ?l ?x)) with (channels x).
    change (subs (set_timers ?l ?x)) with (subs x).
    change (running (set_timers ?l ?x)) with (running x).
    change (published (set_timers ?l ?x)) with (published x).
    change (conns (set_timers ?l ?x)) with (conns x).
    change (timers (set_timers ?l ?x)) with l.
    rewrite Hd, Hc, Hs, Hr, Hp, Ht, Hd1, Hc1, Hs1, Hr1, Hp1, Ht1.
    repeat split; try discriminate.
    + rewrite <- Hconns. apply Hst.
    + rewrite <- Hconns. apply Hst.
    + rewrite <- Hconns. apply Hst.
    + rewrite <- Hconns. apply Hst.
    + intro k. rewrite Hsent, Hconns, Hs1. reflexivity.
  - destruct (Hbig eq_refl) as (Hp & Hsent & Hot).
    rewrite Hd, Hc, Hs, Hr, Hp, Ht, Hd1, Hc1, Hs1, Hr1, Hp1, Ht1.
    repeat split; try discriminate.
    + rewrite <- Hconns. apply Hst.
    + rewrite <- Hconns. apply Hst.
    + rewrite <- Hconns. apply Hst.
    + rewrite <- Hconns. apply Hst.
    + rewrite Hsent, Hconns. reflexivity.
    + intros k Hk. rewrite (Hot k Hk). now rewrite Hconns.
Qed.

Lemma crash_published w : published (crash w) = published w.
Proof. reflexivity. Qed.

Lemma fire_timer_published w :
  exists more, published (fire_timer w) = published w ++ more.
Proof.
  unfold fire_timer. destruct (timers w) as [|t rest]; [exists []; now rewrite app_nil_r|].
  unfold try_publish. destruct (fits (timer_payload t)).
  - rewrite nc_publish_published. eexists. reflexivity.
  - exists []. now rewrite app_nil_r.
Qed.

Ltac log_of_publish :=
  match goal with
  | |- context [publish_or_throw ?s ?p ?w0] =>
      let more := fresh "more" in
      let Hm := fresh "Hm" in
      destruct (publish_or_throw_published s p w0) as [more Hm];
      exists more; exact Hm
  end.

Lemma onMessage_published ws raw w :
  exists more, published (onMessage ws raw w) = published w ++ more.
Proof.
  unfold onMessage. rewrite settle_published. unfold try_message.
  assert (Hnil : exists more : list (string * json), published w = published w ++ more)
    by (exists []; now rewrite app_nil_r).
  destruct raw as [err|msg]; simpl; [exact Hnil|].
  destruct (destructure msg) as [err|m]; [exact Hnil|].
  unfold dispatch.
  destruct (strict_eq _ _).
  { destruct (handle_join_spec ws m w) as (_ & _ & _ & _ & _ & _ & _ & _ & Hp & _).
    cbv zeta in Hp. rewrite Hp. exact Hnil. }
  destruct (strict_eq _ _).
  { unfold handle_get_messages. destruct (select_messages _ _ _); [exact Hnil|].
    exists []. rewrite app_nil_r. apply ws_send_outside. }
  destruct (strict_eq _ _).
  { unfold handle_send_message, insert_message. cbv zeta. log_of_publish. }
  destruct (strict_eq _ _); [unfold handle_update_status; log_of_publish|].
  destruct (strict_eq _ _); [unfold handle_delete_message; log_of_publish|].
  destruct (strict_eq _ _).
  { unfold handle_toggle_device. cbv zeta. unfold try_publish.
    destruct (fits _).
    - unfold setTimeout. simpl published. rewrite nc_publish_published.
      destruct (strict_eq _ _); [|destruct (strict_eq _ _)]; eexists; reflexivity.
    - destruct (strict_eq _ _); [|destruct (strict_eq _ _)]; exact Hnil. }
  destruct (strict_eq _ _); [unfold handle_end_meeting; log_of_publish | exact Hnil].
Qed.

Lemma step_published e w : exists more, published (step e w) = published w ++ more.
Proof.
  destruct e as [k|k raw|k|k| |s d]; simpl.
  - exists []. now rewrite app_nil_r.
  - apply onMessage_published.
  - exists []. now rewrite app_nil_r.
  - exists []. rewrite app_nil_r.
    now destruct (close_spec k w) as (_ & _ & _ & _ & Hp & _).
  - apply fire_timer_published.
  - exists []. now rewrite app_nil_r.
Qed.

Lemma run_published es : forall w, exists more, published (run es w) = published w ++ more.
Proof.
  induction es as [|e es IH]; intro w.
  - exists []. simpl. now rewrite app_nil_r.
  - change (run (e :: es) w) with (run es (step e w)).
    destruct (step_published e w) as [m1 H1].
    destruct (IH (step e w)) as [m2 H2].
    exists (m1 ++ m2). rewrite H2, H1. now rewrite app_assoc.
Qed.

Lemma run_app es1 es2 w : run (es1 ++ es2) w = run es2 (run es1 w).
Proof. unfold run. apply fold_left_app. Qed.

(** The pending timers whose payloads fit fire one after the other. *)
Lemma fire_prefix l1 : forall w l2,
  timers w = l1 ++ l2 ->
  Forall (fun t => fits (timer_payload t) = true) l1 ->
  published (run (repeat ETimer (length l1)) w) =
    published w ++ map (fun t => (timer_subject t, timer_payload t)) l1
  /\ timers (run (repeat ETimer (length l1)) w) = l2
  /\ running (run (repeat ETimer (length l1)) w) = running w.
Proof.
  induction l1 as [|t rest IH]; intros w l2 Hw Hfit.
  - simpl. now rewrite app_nil_r.
  - change (run (repeat ETimer (length (t :: rest))) w)
      with (run (repeat ETimer (length rest)) (fire_timer w)).
    inversion Hfit as [|t' l' Ht Hrest]; subst.
    unfold fire_timer. rewrite Hw. simpl app. cbv iota beta.
    rewrite (try_publish_fits _ _ _ Ht).
    destruct (nc_publish_spec (timer_subject t) (timer_payload t)
                              (set_timers (rest ++ l2) w))
      as (_ & _ & _ & Htm & _ & Hp & _).
    pose proof (nc_publish_running (timer_subject t) (timer_payload t)
                                   (set_timers (rest ++ l2) w)) as Hr.
    destruct (IH _ l2 Htm Hrest) as (IHp & IHt & IHr).
    rewrite IHp, IHt, IHr, Hp, Hr. simpl. now rewrite <- app_assoc.
Qed.

(** ** toggle-device *)

Lemma onMessage_toggle_device_events msg d :
  prop msg "device" = JStr d -> d = "camera" \/ d = "mic" ->
  device_toggled msg =
    JSON_stringify [("action", str "device-toggled");
                    ("channelName", JVal (prop msg "channelName"));
                    ("data", JSON_stringify [("targetUid", JVal (prop msg "targetUid"));
                                             ("device", str d);
                                             ("state", JVal (prop msg "state"))])]
  /\ toggled_status msg =
     JSON_stringify
       [("action", str "participant-status-changed");
        ("channelName", JVal (prop msg "channelName"));
        ("data", JSON_stringify
                   [("uid", JVal (prop msg "targetUid"));
                    ("isCameraOff",
                     JVal (if (d =? "camera")%string
                           then JBool (negb (truthy (prop msg "state")))
                           else JUndefined));
                    ("isMuted",
                     JVal (if (d =? "mic")%string
                           then JBool (negb (truthy (prop msg "state")))
                           else JUndefined))])].
Proof.
  intros Hd Hcase. unfold device_toggled, toggled_status, status_changed, js_not.
  rewrite Hd. destruct Hcase as [-> | ->]; split; reflexivity.
Qed.

(** C5, counterexample.  A toggle of the microphone of u9, who has no
    record in room1: the table is what it was and no record of u9 holds the
    inverted flag, so nothing was persisted. *)
Lemma toggle_device_without_record_persists_nothing :
  prop toggle_absent "action" = JStr "toggle-device"
  /\ prop toggle_absent "device" = JStr "mic"
  /\ meeting_participants (db (onMessage O (Parsed toggle_absent) lobby)) =
     meeting_participants (db lobby)
  /\ ~ (exists r,
           In r (meeting_participants (db (onMessage O (Parsed toggle_absent) lobby)))
           /\ participant_matches (JStr "room1") (JStr "u9") r = true
           /\ mp_is_muted r = JBool false).
Proof.
  split; [reflexivity|]. split; [reflexivity|]. split; [vm_compute; reflexivity|].
  intros (r & Hin & Hm & _). vm_compute in Hin.
  destruct Hin as [<-|[<-|[]]]; vm_compute in Hm; discriminate.
Qed.

(** C5, amended.  A toggle-device for the camera or the microphone writes
    the inverted state to the flag of every existing record keyed by
    (channel, target participant), creating none.  When the device-toggled
    event fits the broker's payload limit it is published on the channel's
    subject at once and the participant-status-changed event for the
    target, with the inverted flag, is left in a timer: in every later
    broker log device-toggled comes first; once the pending timers have
    fired the status event follows it on the same subject if it fits, and
    if it does not the timer callback throws and the server process ends.
    When device-toggled does not fit, nothing is published, no timer is
    set and the sender is written an error event. *)
Theorem toggle_device_then_status ws msg w d :
  prop msg "action" = JStr "toggle-device" ->
  prop msg "device" = JStr d ->
  d = "camera" \/ d = "mic" ->
  let channelName := prop msg "channelName" in
  let target := prop msg "targetUid" in
  let inverted := JBool (negb (truthy (prop msg "state"))) in
  let toggled :=
    JSON_stringify [("action", str "device-toggled");
                    ("channelName", JVal channelName);
                    ("data", JSON_stringify [("targetUid", JVal target);
                                             ("device", str d);
                                             ("state", JVal (prop msg "state"))])] in
  let status :=
    JSON_stringify
      [("action", str "participant-status-changed");
       ("channelName", JVal channelName);
       ("data", JSON_stringify
                  [("uid", JVal target);
                   ("isCameraOff",
                    JVal (if (d =? "camera")%string then inverted else JUndefined));
                   ("isMuted",
                    JVal (if (d =? "mic")%string then inverted else JUndefined))])] in
  let earlier := map (fun t => (timer_subject t, timer_payload t)) (timers w) in
  let w' := onMessage ws (Parsed msg) w in
  (forall i r,
      nth_error (meeting_participants (db w)) i = Some r ->
      nth_error (meeting_participants (db w')) i =
      Some (if sql_eq (mp_channel_name r) channelName
               && sql_eq (mp_uid r) (JStr (String_ target))
            then mk_participant_row
                   (mp_channel_name r) (mp_uid r)
                   (if (d =? "camera")%string then inverted else mp_is_camera_off r)
                   (if (d =? "mic")%string then inverted else mp_is_muted r)
            else r))
  /\ length (meeting_participants (db w')) = length (meeting_participants (db w))
  /\ (fits toggled = true ->
      published w' = published w ++ [(subject_of channelName, toggled)]
      /\ timers w' = timers w ++ [mk_timer 100 (subject_of channelName) status]
      /\ (forall es, exists more,
             published (run es w') =
             published w ++ (subject_of channelName, toggled) :: more)
      /\ (Forall (fun t => fits (timer_payload t) = true) (timers w) ->
          let fired := run (repeat ETimer (S (length (timers w)))) w' in
          (fits status = true ->
           published fired =
             published w ++ (subject_of channelName, toggled) :: earlier
             ++ [(subject_of channelName, status)])
          /\ (fits status = false ->
              running fired = false
              /\ published fired =
                 published w ++ (subject_of channelName, toggled) :: earlier)))
  /\ (fits toggled = false ->
      published w' = published w /\ timers w' = timers w
      /\ sent (conns w' ws) =
         sent (conns w ws) ++
         (if is_open (readyState (conns w ws))
          then [error_event MAX_PAYLOAD_EXCEEDED] else [])).
Proof.
  intros Ha Hd Hcase channelName target inverted toggled status earlier w'.
  assert (Hw' : w' = settle ws (handle_toggle_device msg w))
    by (subst w'; now rewrite (onMessage_toggle_device _ _ _ Ha)).
  destruct (onMessage_toggle_device_events msg d Hd Hcase) as [Etog Estat].
  fold channelName target inverted in Etog, Estat. fold toggled in Etog.
  fold status in Estat.
  destruct (handle_toggle_device_fields ws msg w)
    as (Hdb & _ & _ & _ & _ & Hfit & Hbig).
  cbv zeta in Hdb, Hfit, Hbig. rewrite <- Hw' in Hdb, Hfit, Hbig.
  rewrite Etog in Hfit, Hbig. rewrite Estat in Hfit.
  fold channelName in Hdb, Hfit, Hbig.
  split; [|split; [|split]].
  - intros i r Hr. rewrite Hdb, Hd.
    destruct Hcase as [-> | ->]; simpl strict_eq; cbv iota;
      [unfold update_camera | unfold update_muted];
      rewrite (update_participants_nth _ _ _ _ _ _ Hr);
      unfold participant_matches; fold target;
      destruct (sql_eq (mp_channel_name r) channelName
                && sql_eq (mp_uid r) (JStr (String_ target))); reflexivity.
  - rewrite Hdb, Hd.
    destruct Hcase as [-> | ->]; simpl strict_eq; cbv iota;
      apply update_participants_length.
  - intro Hf. destruct (Hfit Hf) as (Hpub & Htim & _).
    split; [exact Hpub|]. split; [exact Htim|]. split.
    + intro es. destruct (run_published es w') as [more Hm].
      exists more. rewrite Hm, Hpub. now rewrite <- app_assoc.
    + intros Hall fired.
      destruct (fire_prefix (timers w) w' [mk_timer 100 (subject_of channelName) status]
                            Htim Hall) as (Hp1 & Ht1 & Hr1).
      assert (Hfired : fired = fire_timer (run (repeat ETimer (length (timers w))) w')).
      { subst fired. change (S (length (timers w))) with (1 + length (timers w))%nat.
        rewrite Nat.add_comm, repeat_app, run_app. reflexivity. }
      rewrite Hfired. unfold fire_timer. rewrite Ht1. simpl timer_payload.
      simpl timer_subject. unfold try_publish. split; intro Hs; rewrite Hs.
      * rewrite nc_publish_published. simpl published. rewrite Hp1, Hpub.
        unfold earlier. rewrite <- !app_assoc. reflexivity.
      * split; [reflexivity|]. simpl published. rewrite Hp1, Hpub.
        unfold earlier. rewrite <- !app_assoc. reflexivity.
  - intro Hf. destruct (Hbig Hf) as (Hpub & Htim & Hsent & _). now repeat split.
Qed.

Lemma toggle_device_then_status_witness :
  prop toggle_mic_on "action" = JStr "toggle-device"
  /\ prop toggle_mic_on "device" = JStr "mic"
  /\ nth_error (meeting_participants
                  (db (onMessage O (Parsed toggle_mic_on) lobby))) 1 =
     Some (mk_participant_row (JStr "room1") (JStr "u2") (JBool false) (JBool false))
  /\ published (run [ETimer] (onMessage O (Parsed toggle_mic_on) lobby)) =
     [("meeting.room1",
       JObject [("action", str "device-toggled"); ("channelName", str "room1");
                ("data", JObject [("targetUid", str "u2"); ("device", str "mic");
                                  ("state", JVal (JBool true))])]);
      ("meeting.room1",
       JObject [("action", str "participant-status-changed");
                ("channelName", str "room1");
                ("data", JObject [("uid", str "u2");
                                  ("isMuted", JVal (JBool false))])])].
Proof.
  split; [reflexivity|]. split; [reflexivity|].
  destruct (toggle_device_then_status O toggle_mic_on lobby "mic"
              eq_refl eq_refl (or_intror eq_refl))
    as (Hrow & _ & Hfit & _).
  split; [exact (Hrow 1%nat _ eq_refl)|].
  destruct (Hfit eq_refl) as (_ & _ & _ & Hfire).
  exact (proj1 (Hfire (Forall_nil _)) eq_refl).
Defined.

(** ** get-messages *)

Lemma sorted_newest_first l :
  StronglySorted newer_or_equal (ByCreatedAtDesc.sort l).
Proof.
  assert (H : StronglySorted (fun x y => is_true (CreatedAtDesc.leb x y))
                             (ByCreatedAtDesc.sort l)).
  { apply ByCreatedAtDesc.StronglySorted_sort.
    intros x y z. unfold is_true, CreatedAtDesc.leb. rewrite !Z.leb_le. lia. }
  induction H as [|a l' Hs IH Hall]; constructor; [assumption|].
  eapply Forall_impl; [|exact Hall].
  intros b Hb. unfold newer_or_equal. now apply Z.leb_le in Hb.
Qed.

Lemma StronglySorted_split {A} (R : A -> A -> Prop) (l1 l2 : list A) :
  StronglySorted R (l1 ++ l2) ->
  StronglySorted R l1 /\ forall x y, In x l1 -> In y l2 -> R x y.
Proof.
  induction l1 as [|a l1 IH]; simpl; intro H.
  - split; [constructor | intros x y []].
  - inversion H as [|a' l' Hs Hall]; subst.
    destruct (IH Hs) as [Hs1 Hcross]. split.
    + constructor; [assumption|].
      rewrite Forall_forall in *. intros x Hx. apply Hall, in_or_app. now left.
    + intros x y [<-|Hx] Hy.
      * rewrite Forall_forall in Hall. apply Hall, in_or_app. now right.
      * now apply Hcross.
Qed.

(** What the SELECT returns for a limit of [n] rows. *)
Lemma select_newest channelName n s :
  let rows := firstn n (ByCreatedAtDesc.sort (rows_of channelName s)) in
  length rows = Nat.min n (length (rows_of channelName s))
  /\ (forall r, In r rows ->
                In r (chat_messages s) /\ sql_eq (cm_channel_name r) channelName = true)
  /\ StronglySorted newer_or_equal rows
  /\ exists rest,
      Permutation (rows ++ rest) (rows_of channelName s)
      /\ forall r r', In r rows -> In r' rest -> newer_or_equal r r'.
Proof.
  intro rows. subst rows.
  set (all := rows_of channelName s).
  set (sorted := ByCreatedAtDesc.sort all).
  assert (Hperm : Permutation all sorted) by apply ByCreatedAtDesc.Permuted_sort.
  assert (Hsplit : firstn n sorted ++ skipn n sorted = sorted) by apply firstn_skipn.
  assert (Hsorted : StronglySorted newer_or_equal (firstn n sorted ++ skipn n sorted)).
  { rewrite Hsplit. apply sorted_newest_first. }
  destruct (StronglySorted_split _ _ _ Hsorted) as [Hs1 Hcross].
  split; [|split; [|split; [exact Hs1|]]].
  - rewrite length_firstn. f_equal. symmetry. now apply Permutation_length.
  - intros r Hr.
    assert (Hin : In r all).
    { apply (Permutation_in r (Permutation_sym Hperm)).
      rewrite <- Hsplit. apply in_or_app. now left. }
    unfold all, rows_of in Hin. now apply filter_In in Hin.
  - exists (skipn n sorted). split; [|exact Hcross].
    rewrite Hsplit. now apply Permutation_sym.
Qed.

(** The reply of [case 'get-messages'] for a limit the store accepts. *)
Lemma handle_get_messages_reply ws msg w n :
  readyState (conns w ws) = OPEN ->
  (prop msg "limit" = JNum n /\ 0 < n <= 9007199254740991)
  \/ (truthy (prop msg "limit") = false /\ n = 50) ->
  let channelName := prop msg "channelName" in
  let w' := settle ws (handle_get_messages ws msg w) in
  exists rows,
    sent (conns w' ws) = sent (conns w ws) ++ [messages_event channelName rows]
    /\ (forall k, k <> ws -> conns w' k = conns w k)
    /\ same_outside_conns w w'
    /\ length rows = Nat.min (Z.to_nat n) (length (rows_of channelName (db w)))
    /\ (forall r, In r rows ->
                  In r (chat_messages (db w))
                  /\ sql_eq (cm_channel_name r) channelName = true)
    /\ StronglySorted newer_or_equal rows
    /\ exists rest,
        Permutation (rows ++ rest) (rows_of channelName (db w))
        /\ forall r r', In r rows -> In r' rest -> newer_or_equal r r'.
Proof.
  intros Hopen Hlimit channelName w'. subst w'.
  unfold handle_get_messages, select_messages.
  assert (Hl : sql_limit (js_or (prop msg "limit") (JNum 50)) = inr (Z.to_nat n)).
  { destruct Hlimit as [[Hv Hpos] | [Hv ->]]; unfold js_or.
    - rewrite Hv. simpl. destruct (Z.eqb_spec n 0); [lia|]. simpl.
      destruct (Z.leb_spec 0 n); [|lia].
      destruct (Z.leb_spec n 18446744073709551615); [reflexivity | lia].
    - rewrite Hv. reflexivity. }
  rewrite Hl. cbn [settle]. fold channelName. fold (rows_of channelName (db w)).
  fold (messages_event channelName
          (firstn (Z.to_nat n) (ByCreatedAtDesc.sort (rows_of channelName (db w))))).
  exists (firstn (Z.to_nat n) (ByCreatedAtDesc.sort (rows_of channelName (db w)))).
  split; [|split; [|split]].
  - rewrite ws_send_sent, Nat.eqb_refl, Hopen. reflexivity.
  - intros k Hk. now apply ws_send_others.
  - apply ws_send_outside.
  - apply select_newest.
Qed.

(** C7, counterexample.  With [limit: 0] on a channel holding five messages
    the reply carries all five rows, not at most zero. *)
Lemma get_messages_limit_zero_returns_rows :
  prop get_zero "limit" = JNum 0
  /\ sent (conns (onMessage O (Parsed get_zero) lobby) O) =
     [messages_event (JStr "room1")
        (ByCreatedAtDesc.sort (rows_of (JStr "room1") room1_store))]
  /\ length (rows_of (JStr "room1") room1_store) = 5%nat
  /\ ~ (exists rows,
           sent (conns (onMessage O (Parsed get_zero) lobby) O) =
           sent (conns lobby O) ++ [messages_event (JStr "room1") rows]
           /\ (length rows <= 0)%nat).
Proof.
  split; [reflexivity|]. split; [vm_compute; reflexivity|].
  split; [reflexivity|].
  intros (rows & Hsent & Hlen).
  destruct rows as [|r rows]; [|simpl in Hlen; lia].
  vm_compute in Hsent. discriminate Hsent.
Qed.

(** C7, amended.  A get-messages whose limit is a positive integer N that
    a JavaScript number holds exactly (N at most 2^53 - 1), or is absent or
    falsy and then N = 50, replies to the requesting socket only, publishes
    nothing and changes neither store nor registry; the reply carries the
    min(N, count) most recently created rows of the channel, newest
    first. *)
Theorem get_messages_newest_first ws msg w n :
  prop msg "action" = JStr "get-messages" ->
  readyState (conns w ws) = OPEN ->
  (prop msg "limit" = JNum n /\ 0 < n <= 9007199254740991)
  \/ (truthy (prop msg "limit") = false /\ n = 50) ->
  let channelName := prop msg "channelName" in
  let w' := onMessage ws (Parsed msg) w in
  exists rows,
    sent (conns w' ws) = sent (conns w ws) ++ [messages_event channelName rows]
    /\ (forall k, k <> ws -> conns w' k = conns w k)
    /\ same_outside_conns w w'
    /\ length rows = Nat.min (Z.to_nat n) (length (rows_of channelName (db w)))
    /\ (forall r, In r rows ->
                  In r (chat_messages (db w))
                  /\ sql_eq (cm_channel_name r) channelName = true)
    /\ StronglySorted newer_or_equal rows
    /\ exists rest,
        Permutation (rows ++ rest) (rows_of channelName (db w))
        /\ forall r r', In r rows -> In r' rest -> newer_or_equal r r'.
Proof.
  intros Ha Hopen Hlimit channelName w'. subst w'.
  rewrite (onMessage_get_messages _ _ _ Ha). now apply handle_get_messages_reply.
Qed.

Lemma get_messages_newest_first_witness :
  prop get_two "action" = JStr "get-messages"
  /\ readyState (conns lobby O) = OPEN
  /\ prop get_two "limit" = JNum 2
  /\ exists rows,
      sent (conns (onMessage O (Parsed get_two) lobby) O) =
      sent (conns lobby O) ++ [messages_event (JStr "room1") rows]
      /\ length rows = Nat.min 2 (length (rows_of (JStr "room1") room1_store))
      /\ StronglySorted newer_or_equal rows.
Proof.
  split; [reflexivity|]. split; [reflexivity|]. split; [reflexivity|].
  assert (Hn : 0 < 2 <= 9007199254740991) by lia.
  destruct (get_messages_newest_first O get_two lobby 2 eq_refl eq_refl
              (or_introl (conj eq_refl Hn)))
    as (rows & Hsent & _ & _ & Hlen & _ & Hsorted & _).
  exists rows. split; [exact Hsent|]. split; [exact Hlen | exact Hsorted].
Defined.

(** The instance of the specification: a limit of 2 on a channel holding
    five messages returns the two newest rows, newest first. *)
Example get_two_of_five :
  length (rows_of (JStr "room1") room1_store) = 5%nat
  /\ sent (conns (onMessage O (Parsed get_two) lobby) O) =
     [messages_event (JStr "room1")
        [mk_chat_row 6 (JStr "room1") (JStr "u1") (JStr "Alice") (JStr "six") 6000;
         mk_chat_row 5 (JStr "room1") (JStr "u2") (JStr "Bob") (JStr "five") 5000]].
Proof. split; vm_compute; reflexivity. Qed.

(** C9. A get-messages whose limit is falsy (0, the empty string, false,
    null) behaves exactly as one without a limit: the whole resulting state
    is the same, and an open requesting socket is written one reply that
    carries min(50, count) rows of the channel, none older than a row left
    out, newest first; the default of 50 was substituted, not zero rows
    returned. *)
Theorem get_messages_falsy_limit_is_default ws withLimit without w :
  prop withLimit "action" = JStr "get-messages" ->
  (forall k, k <> "limit" -> prop withLimit k = prop without k) ->
  truthy (prop withLimit "limit") = false ->
  prop without "limit" = JUndefined ->
  readyState (conns w ws) = OPEN ->
  let channelName := prop withLimit "channelName" in
  let w' := onMessage ws (Parsed withLimit) w in
  w' = onMessage ws (Parsed without) w
  /\ exists rows,
      sent (conns w' ws) = sent (conns w ws) ++ [messages_event channelName rows]
      /\ length rows = Nat.min 50 (length (rows_of channelName (db w)))
      /\ (forall r, In r rows ->
                    In r (chat_messages (db w))
                    /\ sql_eq (cm_channel_name r) channelName = true)
      /\ StronglySorted newer_or_equal rows
      /\ (exists rest,
             Permutation (rows ++ rest) (rows_of channelName (db w))
             /\ forall r r', In r rows -> In r' rest -> newer_or_equal r r')
      /\ (forall k, k <> ws -> conns w' k = conns w k)
      /\ same_outside_conns w w'.
Proof.
  intros Ha Hsame Hfalsy Habsent Hopen channelName w'.
  assert (Ha' : prop without "action" = JStr "get-messages")
    by (rewrite <- Hsame; [exact Ha | discriminate]).
  assert (Hc : prop without "channelName" = prop withLimit "channelName")
    by (symmetry; apply Hsame; discriminate).
  assert (Hw' : w' = ws_send ws
                  (messages_event channelName
                     (firstn 50 (ByCreatedAtDesc.sort (rows_of channelName (db w))))) w).
  { subst w'. rewrite (onMessage_get_messages _ _ _ Ha).
    unfold handle_get_messages, js_or. rewrite Hfalsy. reflexivity. }
  split.
  - rewrite Hw'. rewrite (onMessage_get_messages _ _ _ Ha').
    unfold handle_get_messages, js_or. rewrite Habsent, Hc. reflexivity.
  - exists (firstn 50 (ByCreatedAtDesc.sort (rows_of channelName (db w)))).
    rewrite Hw'.
    destruct (select_newest channelName 50 (db w)) as (Hlen & Hin & Hsorted & Hrest).
    split; [rewrite ws_send_sent, Nat.eqb_refl, Hopen; reflexivity|].
    split; [exact Hlen|]. split; [exact Hin|]. split; [exact Hsorted|].
    split; [exact Hrest|]. split.
    + intros k Hk. now apply ws_send_others.
    + apply ws_send_outside.
Qed.

Lemma get_messages_falsy_limit_is_default_witness :
  prop get_zero "action" = JStr "get-messages"
  /\ truthy (prop get_zero "limit") = false
  /\ prop get_default "limit" = JUndefined
  /\ readyState (conns lobby O) = OPEN
  /\ onMessage O (Parsed get_zero) lobby = onMessage O (Parsed get_default) lobby
  /\ exists rows,
      sent (conns (onMessage O (Parsed get_zero) lobby) O) =
      sent (conns lobby O) ++ [messages_event (JStr "room1") rows]
      /\ length rows = 5%nat.
Proof.
  split; [reflexivity|]. split; [reflexivity|]. split; [reflexivity|].
  split; [reflexivity|].
  assert (Hsame : forall k, k <> "limit" -> prop get_zero k = prop get_default k).
  { intros k Hk. simpl.
    repeat match goal with
           | |- context [(k =? ?lit)%string] => destruct (String.eqb_spec k lit)
           end; try reflexivity.
    now contradiction Hk. }
  destruct (get_messages_falsy_limit_is_default O get_zero get_default lobby
              eq_refl Hsame eq_refl eq_refl eq_refl)
    as (Heq & rows & Hsent & Hlen & _).
  split; [exact Heq|]. exists rows. split; [exact Hsent | exact Hlen].
Defined.

(** ** Frames that are not control messages *)

Lemma strict_eq_neq a b : a <> b -> strict_eq a b = false.
Proof.
  intro H. destruct (strict_eq a b) eqn:E; [|reflexivity].
  apply strict_eq_eq in E. contradiction.
Qed.

Lemma dispatch_unknown ws msg w :
  (forall a, In a action_kinds -> prop msg "action" <> JStr a) ->
  dispatch ws msg w = Done w.
Proof.
  intro Hno. unfold dispatch.
  rewrite !strict_eq_neq; [reflexivity| | | | | | |];
    apply Hno; simpl; tauto.
Qed.

(** C8, counterexample.  The frame [{"action":"join"}] lacks the mandatory
    channel name and participant id, yet it is dispatched as a join: the
    socket is registered under the key [undefined], a subscription to
    [meeting.undefined] is opened, and the reply is a [joined]
    acknowledgement, not an error. *)
Lemma join_without_channel_is_dispatched :
  well_formed_ControlMessage (Parsed join_without_channel) = false
  /\ sent (conns (onMessage O (Parsed join_without_channel) lobby) O) =
     [JObject [("action", str "joined")]]
  /\ channels (onMessage O (Parsed join_without_channel) lobby) = [(JUndefined, [O])]
  /\ subs (onMessage O (Parsed join_without_channel) lobby) =
     [mk_subscription "meeting.undefined" O true].
Proof. repeat split. Qed.

(** A frame that is valid JSON but no object, such as [42], is ignored
    without any reply. *)
Example scalar_frame_is_ignored :
  well_formed_ControlMessage (Parsed (PScalar (JNum 42))) = false
  /\ onMessage O (Parsed (PScalar (JNum 42))) lobby = lobby.
Proof. split; reflexivity. Qed.

(** C8, amended.  For every frame on which [JSON.parse] throws, and for the
    frame [null] whose destructuring throws, the handler writes one error
    event carrying the exception's message to the originating socket only;
    the socket stays open and accepts further frames, and registry,
    subscriptions, store, broker log and timers are unchanged.  Every other
    frame that parses is not validated as a ControlMessage: it goes to the
    switch on its action field as it is, so a frame whose action is join
    registers the socket under whatever channel name it carries (even
    none), subscribes it and is acknowledged, and a frame whose action
    matches no case is ignored without reply or effect. *)
Theorem frames_are_not_validated ws raw w :
  running w = true ->
  readyState (conns w ws) = OPEN ->
  let w' := onMessage ws raw w in
  (forall err,
      raw = Invalid err
      \/ (raw = Parsed (PScalar JNull) /\ err = destructure_null_message) ->
      sent (conns w' ws) =
        sent (conns w ws) ++
        [JSON_stringify [("action", str "error"); ("message", str err)]]
      /\ (forall k, k <> ws -> conns w' k = conns w k)
      /\ same_conn_state w w'
      /\ same_outside_conns w w'
      /\ forall next, enabled (EMessage ws next) w' = true)
  /\ (forall msg,
         raw = Parsed msg -> destructure msg = inr msg ->
         w' = settle ws (dispatch ws msg w)
         /\ (prop msg "action" = JStr "join" ->
             In ws (members (prop msg "channelName") w')
             /\ subs w' =
                subs w ++ [mk_subscription (subject_of (prop msg "channelName")) ws true]
             /\ sent (conns w' ws) =
                sent (conns w ws) ++
                [JSON_stringify [("action", str "joined");
                                 ("channelName", JVal (prop msg "channelName"))]])
         /\ ((forall a, In a action_kinds -> prop msg "action" <> JStr a) ->
             w' = w)).
Proof.
  intros Hrun Hopen w'. split.
  - intros err Hraw.
    assert (Hw' : w' = ws_send ws (error_event err) w).
    { subst w'. destruct Hraw as [-> | [-> ->]]; reflexivity. }
    rewrite Hw'. split; [|split; [|split; [|split]]].
    + rewrite ws_send_sent, Nat.eqb_refl, Hopen. reflexivity.
    + intros k Hk. now apply ws_send_others.
    + apply ws_send_state.
    + apply ws_send_outside.
    + intro next. unfold enabled.
      destruct (ws_send_state ws (error_event err) w ws) as (_ & _ & _ & Hr).
      now rewrite ws_send_running, Hrun, Hr, Hopen.
  - intros msg -> Hd.
    assert (Hw' : w' = settle ws (dispatch ws msg w)).
    { subst w'. unfold onMessage, try_message. simpl. now rewrite Hd. }
    split; [exact Hw'|]. split.
    + intro Ha. rewrite Hw'. unfold dispatch. rewrite Ha. simpl strict_eq. cbv iota.
      cbn [settle].
      destruct (handle_join_spec ws msg w) as (Hm & Hs & _ & _ & _ & _ & Hsent & _).
      cbv zeta in Hm, Hs, Hsent. split; [|split].
      * rewrite Hm, strict_eq_refl. apply Set_add_in.
      * exact Hs.
      * rewrite Hsent, Hopen. reflexivity.
    + intro Hno. rewrite Hw', (dispatch_unknown _ _ _ Hno). reflexivity.
Qed.

Lemma frames_are_not_validated_witness :
  running lobby = true
  /\ readyState (conns lobby O) = OPEN
  /\ sent (conns (onMessage O (Invalid "Unexpected token h in JSON at position 0")
                    lobby) O) =
     [JObject [("action", str "error");
               ("message", str "Unexpected token h in JSON at position 0")]]
  /\ same_outside_conns lobby
       (onMessage O (Invalid "Unexpected token h in JSON at position 0") lobby).
Proof.
  split; [reflexivity|]. split; [reflexivity|].
  destruct (proj1 (frames_are_not_validated
                     O (Invalid "Unexpected token h in JSON at position 0")
                     lobby eq_refl eq_refl)
                  "Unexpected token h in JSON at position 0" (or_introl eq_refl))
    as (Hsent & _ & _ & Hout & _).
  split; [exact Hsent | exact Hout].
Defined.

(** ** Handlers and membership *)

Lemma store_then_published_or_refused ws s subject event w :
  let w' := settle ws (publish_or_throw subject event (set_db s w)) in
  db w' = s /\ timers w' = timers w /\ published_or_refused ws subject event w w'.
Proof.
  destruct (store_then_publish ws s subject event w)
    as (Hd & _ & _ & Ht & _ & _ & Hfit & Hbig).
  cbv zeta in *. split; [exact Hd|]. split; [exact Ht|]. split.
  - intro Hf. now apply Hfit.
  - intro Hf. destruct (Hbig Hf) as (Hp & Hs & _). now split.
Qed.

(** Store, broker log and timers after a store statement and a publish do
    not depend on the socket the frame came from. *)
Lemma store_then_publish_any_sender ws other s subject event w :
  let w1 := settle ws (publish_or_throw subject event (set_db s w)) in
  let w2 := settle other (publish_or_throw subject event (set_db s w)) in
  db w2 = db w1 /\ published w2 = published w1 /\ timers w2 = timers w1.
Proof.
  destruct (store_then_publish ws s subject event w)
    as (Hd1 & _ & _ & Ht1 & _ & _ & Hfit1 & Hbig1).
  destruct (store_then_publish other s subject event w)
    as (Hd2 & _ & _ & Ht2 & _ & _ & Hfit2 & Hbig2).
  cbv zeta in *. rewrite Hd1, Hd2, Ht1, Ht2. split; [reflexivity|].
  split; [|reflexivity].
  destruct (fits event) eqn:Hf.
  - rewrite (proj1 (Hfit1 eq_refl)), (proj1 (Hfit2 eq_refl)). reflexivity.
  - rewrite (proj1 (Hbig1 eq_refl)), (proj1 (Hbig2 eq_refl)). reflexivity.
Qed.

Lemma toggled_rows msg s d :
  prop msg "device" = JStr d -> d = "camera" \/ d = "mic" ->
  let channelName := prop msg "channelName" in
  let target := JStr (String_ (prop msg "targetUid")) in
  let s' :=
    if strict_eq (prop msg "device") (JStr "camera")
    then update_camera (js_not (prop msg "state")) channelName target s
    else if strict_eq (prop msg "device") (JStr "mic")
    then update_muted (js_not (prop msg "state")) channelName target s
    else s in
  (forall i r,
      nth_error (meeting_participants s) i = Some r ->
      nth_error (meeting_participants s') i =
      Some (if sql_eq (mp_channel_name r) channelName && sql_eq (mp_uid r) target
            then mk_participant_row
                   (mp_channel_name r) (mp_uid r)
                   (if (d =? "camera")%string
                    then JBool (negb (truthy (prop msg "state")))
                    else mp_is_camera_off r)
                   (if (d =? "mic")%string
                    then JBool (negb (truthy (prop msg "state")))
                    else mp_is_muted r)
            else r))
  /\ length (meeting_participants s') = length (meeting_participants s)
  /\ chat_messages s' = chat_messages s.
Proof.
  intros Hd Hcase channelName target s'. subst s'. rewrite Hd.
  destruct Hcase as [-> | ->]; simpl strict_eq; cbv iota;
    [unfold update_camera | unfold update_muted];
    (split; [|split; [apply update_participants_length | reflexivity]]);
    intros i r Hr; rewrite (update_participants_nth _ _ _ _ _ _ Hr);
    unfold participant_matches, js_not;
    destruct (sql_eq (mp_channel_name r) channelName && sql_eq (mp_uid r) target);
    reflexivity.
Qed.

(** C10. The handlers of get-messages, send-message, update-status,
    delete-message, toggle-device and end-meeting act on the channel named
    in the message for a socket that never joined any channel: the read
    returns that channel's newest rows, the insert adds the row, the
    updates rewrite the flags of the matching records, the delete removes
    the matching row, and each event is published on that channel's subject
    (when it fits the broker's payload limit; otherwise the sender is
    written an error event).  Store, broker log and timers after the
    handler are the same whichever socket sent the frame. *)
Theorem handlers_do_not_require_join ws msg w :
  never_joined ws w ->
  readyState (conns w ws) = OPEN ->
  let channelName := prop msg "channelName" in
  let uid := prop msg "uid" in
  let w' := onMessage ws (Parsed msg) w in
  (prop msg "action" = JStr "get-messages" ->
   forall n,
     (prop msg "limit" = JNum n /\ 0 < n <= 9007199254740991)
     \/ (truthy (prop msg "limit") = false /\ n = 50) ->
     exists rows,
       sent (conns w' ws) = sent (conns w ws) ++ [messages_event channelName rows]
       /\ length rows = Nat.min (Z.to_nat n) (length (rows_of channelName (db w)))
       /\ (forall r, In r rows ->
                     In r (chat_messages (db w))
                     /\ sql_eq (cm_channel_name r) channelName = true)
       /\ StronglySorted newer_or_equal rows
       /\ exists rest,
           Permutation (rows ++ rest) (rows_of channelName (db w))
           /\ forall r r', In r rows -> In r' rest -> newer_or_equal r r')
  /\ (prop msg "action" = JStr "send-message" ->
      chat_messages (db w') =
        chat_messages (db w) ++
        [mk_chat_row (auto_increment (db w)) (sql_bind channelName) (sql_bind uid)
                     (sql_bind (prop msg "username")) (sql_bind (prop msg "message"))
                     (store_now (db w))]
      /\ meeting_participants (db w') = meeting_participants (db w)
      /\ published_or_refused ws (subject_of channelName)
           (JSON_stringify
              [("action", str "new-message");
               ("channelName", JVal channelName);
               ("data", JSON_stringify
                          [("id", JVal (JNum (auto_increment (db w))));
                           ("channel_name", JVal channelName);
                           ("uid", JVal uid);
                           ("username", JVal (prop msg "username"));
                           ("message", JVal (prop msg "message"));
                           ("created_at", str (toISOString (Date_now w)))])])
           w w')
  /\ (prop msg "action" = JStr "update-status" ->
      (forall i r,
          nth_error (meeting_participants (db w)) i = Some r ->
          nth_error (meeting_participants (db w')) i =
          Some (if sql_eq (mp_channel_name r) channelName && sql_eq (mp_uid r) uid
                then mk_participant_row (mp_channel_name r) (mp_uid r)
                                        (sql_bind (prop msg "isCameraOff"))
                                        (sql_bind (prop msg "isMuted"))
                else r))
      /\ length (meeting_participants (db w')) = length (meeting_participants (db w))
      /\ chat_messages (db w') = chat_messages (db w)
      /\ published_or_refused ws (subject_of channelName)
           (JSON_stringify
              [("action", str "participant-status-changed");
               ("channelName", JVal channelName);
               ("data", JSON_stringify
                          [("uid", JVal uid);
                           ("isCameraOff", JVal (prop msg "isCameraOff"));
                           ("isMuted", JVal (prop msg "isMuted"))])])
           w w')
  /\ (prop msg "action" = JStr "delete-message" ->
      chat_messages (db w') =
        filter (fun r => negb (sql_eq (JNum (cm_id r)) (prop msg "messageId")
                               && sql_eq (cm_channel_name r) channelName))
               (chat_messages (db w))
      /\ meeting_participants (db w') = meeting_participants (db w)
      /\ published_or_refused ws (subject_of channelName)
           (JSON_stringify
              [("action", str "message-deleted");
               ("channelName", JVal channelName);
               ("data", JSON_stringify [("messageId", JVal (prop msg "messageId"))])])
           w w')
  /\ (prop msg "action" = JStr "toggle-device" ->
      let inverted := JBool (negb (truthy (prop msg "state"))) in
      let toggled :=
        JSON_stringify
          [("action", str "device-toggled");
           ("channelName", JVal channelName);
           ("data", JSON_stringify [("targetUid", JVal (prop msg "targetUid"));
                                    ("device", JVal (prop msg "device"));
                                    ("state", JVal (prop msg "state"))])] in
      let status :=
        JSON_stringify
          [("action", str "participant-status-changed");
           ("channelName", JVal channelName);
           ("data", JSON_stringify
                      [("uid", JVal (prop msg "targetUid"));
                       ("isCameraOff",
                        JVal (if strict_eq (prop msg "device") (JStr "camera")
                              then inverted else JUndefined));
                       ("isMuted",
                        JVal (if strict_eq (prop msg "device") (JStr "mic")
                              then inverted else JUndefined))])] in
      (forall d, prop msg "device" = JStr d -> d = "camera" \/ d = "mic" ->
         (forall i r,
            nth_error (meeting_participants (db w)) i = Some r ->
            nth_error (meeting_participants (db w')) i =
            Some (if sql_eq (mp_channel_name r) channelName
                     && sql_eq (mp_uid r) (JStr (String_ (prop msg "targetUid")))
                  then mk_participant_row
                         (mp_channel_name r) (mp_uid r)
                         (if (d =? "camera")%string then inverted
                          else mp_is_camera_off r)
                         (if (d =? "mic")%string then inverted else mp_is_muted r)
                  else r))
         /\ length (meeting_participants (db w')) =
            length (meeting_participants (db w)))
      /\ chat_messages (db w') = chat_messages (db w)
      /\ published_or_refused ws (subject_of channelName) toggled w w'
      /\ (fits toggled = true ->
          timers w' = timers w ++ [mk_timer 100 (subject_of channelName) status]))
  /\ (prop msg "action" = JStr "end-meeting" ->
      db w' = db w
      /\ published_or_refused ws (subject_of channelName)
           (JSON_stringify
              [("action", str "meeting-ended");
               ("channelName", JVal channelName);
               ("endedBy", JVal (if truthy (prop msg "username")
                                 then prop msg "username" else JStr "Host"))])
           w w')
  /\ (forall a other,
         prop msg "action" = JStr a ->
         In a ["get-messages"; "send-message"; "update-status"; "delete-message";
               "toggle-device"; "end-meeting"] ->
         db (onMessage other (Parsed msg) w) = db w'
         /\ published (onMessage other (Parsed msg) w) = published w'
         /\ timers (onMessage other (Parsed msg) w) = timers w').
Proof.
  intros _ Hopen channelName uid w'. subst w'.
  split; [|split; [|split; [|split; [|split; [|split]]]]].
  - intros Ha n Hn. rewrite (onMessage_get_messages _ _ _ Ha).
    destruct (handle_get_messages_reply ws msg w n Hopen Hn)
      as (rows & Hsent & _ & _ & Hrows).
    exists rows. split; [exact Hsent | exact Hrows].
  - intro Ha. rewrite (onMessage_send_message _ _ _ Ha).
    unfold handle_send_message, insert_message. cbv zeta.
    match goal with
    | |- context [publish_or_throw ?subj ?ev (set_db ?s w)] =>
        destruct (store_then_published_or_refused ws s subj ev w) as (Hd & _ & Hp)
    end.
    cbv zeta in Hd, Hp. rewrite Hd. split; [reflexivity|]. split; [reflexivity|].
    exact Hp.
  - intro Ha. rewrite (onMessage_update_status _ _ _ Ha). unfold handle_update_status.
    match goal with
    | |- context [publish_or_throw ?subj ?ev (set_db ?s w)] =>
        destruct (store_then_published_or_refused ws s subj ev w) as (Hd & _ & Hp)
    end.
    cbv zeta in Hd, Hp |- *. rewrite Hd. split.
    { intros i r Hr. unfold update_status.
      now rewrite (update_participants_nth _ _ _ _ _ _ Hr). }
    split; [apply update_participants_length|]. split; [reflexivity|]. exact Hp.
  - intro Ha. rewrite (onMessage_delete_message _ _ _ Ha). unfold handle_delete_message.
    match goal with
    | |- context [publish_or_throw ?subj ?ev (set_db ?s w)] =>
        destruct (store_then_published_or_refused ws s subj ev w) as (Hd & _ & Hp)
    end.
    cbv zeta in Hd, Hp |- *. rewrite Hd. split; [reflexivity|]. split; [reflexivity|].
    exact Hp.
  - intros Ha inverted toggled status. rewrite (onMessage_toggle_device _ _ _ Ha).
    destruct (handle_toggle_device_fields ws msg w)
      as (Hd & _ & _ & _ & _ & Hfit & Hbig).
    cbv zeta in Hd, Hfit, Hbig.
    change (device_toggled msg) with toggled in Hfit, Hbig.
    change (toggled_status msg) with status in Hfit.
    fold channelName in Hd, Hfit, Hbig.
    split; [|split; [|split; [split|]]].
    + intros d Hdev Hcase. rewrite Hd.
      destruct (toggled_rows msg (db w) d Hdev Hcase) as (Hrows & Hlen & _).
      split; [exact Hrows | exact Hlen].
    + rewrite Hd.
      destruct (strict_eq (prop msg "device") (JStr "camera")); [reflexivity|].
      destruct (strict_eq (prop msg "device") (JStr "mic")); reflexivity.
    + intro Hf. now apply Hfit.
    + intro Hf. destruct (Hbig Hf) as (Hp & _ & Hs & _). now split.
    + intro Hf. now apply Hfit.
  - intro Ha. rewrite (onMessage_end_meeting _ _ _ Ha). unfold handle_end_meeting.
    destruct (settle_publish ws (subject_of channelName) (meeting_ended msg) w)
      as (_ & _ & Hd & _ & _ & _ & _ & Hfit & Hbig).
    cbv zeta in Hd, Hfit, Hbig. split; [exact Hd|]. split.
    + intro Hf. now apply Hfit.
    + intro Hf. destruct (Hbig Hf) as (Hp & Hs & _). now split.
  - intros a other Ha Hin. simpl in Hin.
    destruct Hin as [<-|[<-|[<-|[<-|[<-|[<-|[]]]]]]].
    + rewrite !(onMessage_get_messages _ _ _ Ha). unfold handle_get_messages.
      destruct (select_messages _ _ _) as [err|rows]; cbn [settle];
        match goal with
        | |- context [ws_send other ?p w] =>
            destruct (ws_send_outside other p w) as (_ & _ & Hp1 & Hd1 & Ht1 & _);
            destruct (ws_send_outside ws p w) as (_ & _ & Hp2 & Hd2 & Ht2 & _)
        end; repeat split; congruence.
    + rewrite !(onMessage_send_message _ _ _ Ha).
      unfold handle_send_message, insert_message. cbv zeta.
      apply store_then_publish_any_sender.
    + rewrite !(onMessage_update_status _ _ _ Ha). unfold handle_update_status.
      apply store_then_publish_any_sender.
    + rewrite !(onMessage_delete_message _ _ _ Ha). unfold handle_delete_message.
      apply store_then_publish_any_sender.
    + rewrite !(onMessage_toggle_device _ _ _ Ha).
      destruct (handle_toggle_device_fields ws msg w)
        as (Hd1 & _ & _ & _ & _ & Hfit1 & Hbig1).
      destruct (handle_toggle_device_fields other msg w)
        as (Hd2 & _ & _ & _ & _ & Hfit2 & Hbig2).
      cbv zeta in *. rewrite Hd1, Hd2. split; [reflexivity|].
      destruct (fits (device_toggled msg)) eqn:Hf.
      * destruct (Hfit1 eq_refl) as (-> & -> & _).
        destruct (Hfit2 eq_refl) as (-> & -> & _). now split.
      * destruct (Hbig1 eq_refl) as (-> & -> & _).
        destruct (Hbig2 eq_refl) as (-> & -> & _). now split.
    + rewrite !(onMessage_end_meeting _ _ _ Ha). unfold handle_end_meeting.
      destruct (settle_publish ws (subject_of (prop msg "channelName"))
                               (meeting_ended msg) w)
        as (_ & _ & Hd1 & Ht1 & _ & _ & _ & Hfit1 & Hbig1).
      destruct (settle_publish other (subject_of (prop msg "channelName"))
                               (meeting_ended msg) w)
        as (_ & _ & Hd2 & Ht2 & _ & _ & _ & Hfit2 & Hbig2).
      cbv zeta in *. rewrite Hd1, Hd2, Ht1, Ht2. split; [reflexivity|].
      split; [|reflexivity].
      destruct (fits (meeting_ended msg)) eqn:Hf.
      * rewrite (proj1 (Hfit1 eq_refl)), (proj1 (Hfit2 eq_refl)). reflexivity.
      * rewrite (proj1 (Hbig1 eq_refl)), (proj1 (Hbig2 eq_refl)). reflexivity.
Qed.

Lemma handlers_do_not_require_join_witness :
  never_joined O one_listener
  /\ readyState (conns one_listener O) = OPEN
  /\ chat_messages (db (onMessage O (Parsed send_hi) one_listener)) =
     chat_messages room1_store ++
     [mk_chat_row 7 (JStr "room1") (JStr "u1") (JStr "Alice") (JStr "hi") 7000]
  /\ nth_error (meeting_participants
                  (db (onMessage O (Parsed update_u2) one_listener))) 1 =
     Some (mk_participant_row (JStr "room1") (JStr "u2") (JBool true) (JBool false))
  /\ chat_messages (db (onMessage O (Parsed delete_fourth) one_listener)) =
     [mk_chat_row 1 (JStr "room1") (JStr "u1") (JStr "Alice") (JStr "one") 1000;
      mk_chat_row 2 (JStr "room1") (JStr "u2") (JStr "Bob") (JStr "two") 2000;
      mk_chat_row 3 (JStr "room2") (JStr "u1") (JStr "Alice") (JStr "three") 3000;
      mk_chat_row 5 (JStr "room1") (JStr "u2") (JStr "Bob") (JStr "five") 5000;
      mk_chat_row 6 (JStr "room1") (JStr "u1") (JStr "Alice") (JStr "six") 6000]
  /\ nth_error (meeting_participants
                  (db (onMessage O (Parsed toggle_mic_on) one_listener))) 1 =
     Some (mk_participant_row (JStr "room1") (JStr "u2") (JBool false) (JBool false))
  /\ published (onMessage O (Parsed end_anonymous) one_listener) =
     [("meeting.room1",
       JObject [("action", str "meeting-ended"); ("channelName", str "room1");
                ("endedBy", str "Host")])]
  /\ published (onMessage O (Parsed delete_fourth) one_listener) =
     [("meeting.room1",
       JObject [("action", str "message-deleted"); ("channelName", str "room1");
                ("data", JObject [("messageId", JVal (JNum 4))])])].
Proof.
  assert (Hnever : never_joined O one_listener).
  { split; [reflexivity|]. split; [reflexivity|].
    intros c Hin. unfold members in Hin. simpl in Hin.
    destruct (strict_eq c (JStr "room1")); simpl in Hin; intuition discriminate. }
  split; [exact Hnever|]. split; [reflexivity|].
  split.
  { destruct (handlers_do_not_require_join O send_hi one_listener Hnever eq_refl)
      as (_ & Hsend & _).
    exact (proj1 (Hsend eq_refl)). }
  split.
  { destruct (handlers_do_not_require_join O update_u2 one_listener Hnever eq_refl)
      as (_ & _ & Hupd & _).
    exact (proj1 (Hupd eq_refl) 1%nat _ eq_refl). }
  split.
  { destruct (handlers_do_not_require_join O delete_fourth one_listener Hnever eq_refl)
      as (_ & _ & _ & Hdel & _).
    exact (proj1 (Hdel eq_refl)). }
  split.
  { destruct (handlers_do_not_require_join O toggle_mic_on one_listener Hnever eq_refl)
      as (_ & _ & _ & _ & Htog & _).
    exact (proj1 (proj1 (Htog eq_refl) "mic" eq_refl (or_intror eq_refl))
                 1%nat _ eq_refl). }
  split.
  { destruct (handlers_do_not_require_join O end_anonymous one_listener Hnever eq_refl)
      as (_ & _ & _ & _ & _ & Hend & _).
    exact (proj1 (proj2 (Hend eq_refl)) eq_refl). }
  destruct (handlers_do_not_require_join O delete_fourth one_listener Hnever eq_refl)
    as (_ & _ & _ & Hdel & _).
  exact (proj1 (proj2 (proj2 (Hdel eq_refl))) eq_refl).
Defined.

(** The frame of the never-joined socket 0 reaches the joined socket 1. *)
Example outsider_broadcast_reaches_member :
  sent (conns (onMessage O (Parsed send_hi) one_listener) 1%nat) =
  [JObject [("action", str "joined"); ("channelName", str "room1")];
   JObject [("action", str "new-message"); ("channelName", str "room1");
            ("data", JObject [("id", JVal (JNum 7)); ("channel_name", str "room1");
                              ("uid", str "u1"); ("username", str "Alice");
                              ("message", str "hi");
                              ("created_at", str "1970-01-01T00:00:00.000Z")])]]
  /\ sent (conns (onMessage O (Parsed send_hi) one_listener) O) = [].
Proof. split; vm_compute; reflexivity. Qed.

(** ** A second join *)

(** C6. A join processed by a socket already in state Joined(c1) adds the
    socket to c2 and opens a subscription on c2's subject without removing
    it from c1 or releasing the c1 subscription: afterwards it is a member of
    both, both subscriptions are live, and its handle names the new one
    only.  The close handler, which goes by that handle, then leaves the
    earlier subscription live. *)
Theorem second_join_accumulates ws msg w c1 s1 :
  joined_to ws c1 s1 w ->
  prop msg "action" = JStr "join" ->
  let c2 := prop msg "channelName" in
  let w' := onMessage ws (Parsed msg) w in
  In ws (members c1 w')
  /\ In ws (members c2 w')
  /\ nth_error (subs w') s1 = Some (mk_subscription (subject_of c1) ws true)
  /\ nth_error (subs w') (length (subs w)) =
     Some (mk_subscription (subject_of c2) ws true)
  /\ s1 <> length (subs w)
  /\ natsSub (conns w' ws) = Some (length (subs w))
  /\ clientChannel (conns w' ws) = c2
  /\ nth_error (subs (close ws w')) s1 =
     Some (mk_subscription (subject_of c1) ws true).
Proof.
  intros (Hch & Hns & Hsub & Hmem) Ha c2 w'. subst w'.
  rewrite (onMessage_join _ _ _ Ha).
  destruct (handle_join_spec ws msg w)
    as (Hm & Hs & Hcc & _ & Hn & _ & _ & _ & _).
  cbv zeta in *. fold c2 in Hm, Hs, Hcc.
  assert (Hlt : (s1 < length (subs w))%nat)
    by (apply nth_error_Some; now rewrite Hsub).
  assert (Hold : nth_error (subs (handle_join ws msg w)) s1 =
                 Some (mk_subscription (subject_of c1) ws true))
    by (rewrite Hs, nth_error_app1; assumption).
  split; [|split; [|split; [|split; [|split; [|split; [|split]]]]]].
  - rewrite Hm. destruct (strict_eq c1 c2); [now apply Set_add_keeps | assumption].
  - rewrite Hm, strict_eq_refl. apply Set_add_in.
  - exact Hold.
  - rewrite Hs, nth_error_app2, Nat.sub_diag; [reflexivity | lia].
  - lia.
  - exact Hn.
  - exact Hcc.
  - destruct (close_spec ws (handle_join ws msg w)) as (_ & Hcs & _).
    cbv zeta in Hcs. rewrite Hcs, Hn, unsubscribe_at_nth.
    destruct (Nat.eqb_spec (length (subs w)) s1); [lia | exact Hold].
Qed.

Lemma second_join_accumulates_witness :
  joined_to O (JStr "room1") O in_room1
  /\ prop join_room2 "action" = JStr "join"
  /\ In O (members (JStr "room1") (onMessage O (Parsed join_room2) in_room1))
  /\ In O (members (JStr "room2") (onMessage O (Parsed join_room2) in_room1))
  /\ nth_error (subs (onMessage O (Parsed join_room2) in_room1)) O =
     Some (mk_subscription "meeting.room1" O true)
  /\ nth_error (subs (onMessage O (Parsed join_room2) in_room1)) 1 =
     Some (mk_subscription "meeting.room2" O true)
  /\ natsSub (conns (onMessage O (Parsed join_room2) in_room1) O) = Some 1%nat.
Proof.
  assert (Hj : joined_to O (JStr "room1") O in_room1).
  { repeat split. simpl. now left. }
  split; [exact Hj|]. split; [reflexivity|].
  destruct (second_join_accumulates O join_room2 in_room1 (JStr "room1") O Hj eq_refl)
    as (H1 & H2 & H3 & H4 & _ & H5 & _).
  repeat split; assumption.
Defined.

(** ** Reachable states keep registry and subscriptions consistent *)

Lemma reachable_run es : forall w,
  reachable w -> admissible es w = true -> reachable (run es w).
Proof.
  induction es as [|e es IH]; intros w Hr Ha; [exact Hr|].
  simpl in Ha. apply andb_true_iff in Ha. destruct Ha as [He Ha].
  change (run (e :: es) w) with (run es (step e w)).
  apply IH; [now apply reachable_step | exact Ha].
Qed.

Lemma quiet_refl w : quiet w w.
Proof. repeat split. Qed.

Lemma quiet_trans w1 w2 w3 : quiet w1 w2 -> quiet w2 w3 -> quiet w1 w3.
Proof.
  intros (a & b & c) (a' & b' & c'). split; [congruence|]. split; [congruence|].
  eapply same_state_trans; eassumption.
Qed.

Lemma quiet_ws_send ws p w : quiet w (ws_send ws p w).
Proof.
  destruct (ws_send_outside ws p w) as (a & b & _).
  split; [exact a|]. split; [exact b|]. apply ws_send_state.
Qed.

Lemma quiet_nc_publish subject p w : quiet w (nc_publish subject p w).
Proof.
  destruct (nc_publish_spec subject p w) as (a & b & _ & _ & _ & _ & c & _).
  split; [exact a|]. split; [exact b | exact c].
Qed.

Lemma quiet_set_db s w : quiet w (set_db s w).
Proof. repeat split. Qed.

Lemma quiet_set_timers l w : quiet w (set_timers l w).
Proof. repeat split. Qed.

Lemma quiet_settle_publish ws subject event w :
  quiet w (settle ws (publish_or_throw subject event w)).
Proof.
  destruct (settle_publish ws subject event w) as (Hc & Hs & _ & _ & _ & _ & Hst & _).
  cbv zeta in *. split; [exact Hc|]. split; [exact Hs | exact Hst].
Qed.

Lemma quiet_handle_toggle_device ws msg w :
  quiet w (settle ws (handle_toggle_device msg w)).
Proof.
  destruct (handle_toggle_device_fields ws msg w) as (_ & Hc & Hs & _ & Hst & _).
  cbv zeta in *. split; [exact Hc|]. split; [exact Hs | exact Hst].
Qed.

(** Only a join touches the registry or the subscriptions. *)
Lemma onMessage_quiet_or_join ws raw w :
  quiet w (onMessage ws raw w)
  \/ exists msg, onMessage ws raw w = handle_join ws msg w.
Proof.
  unfold onMessage, try_message.
  destruct raw as [err|msg]; simpl; [left; apply quiet_ws_send|].
  assert (Hd : quiet w (settle ws (dispatch ws msg w))
               \/ exists m, settle ws (dispatch ws msg w) = handle_join ws m w).
  { unfold dispatch.
    destruct (strict_eq _ _); [right; now exists msg|]. left.
    destruct (strict_eq _ _).
    { unfold handle_get_messages. destruct (select_messages _ _ _);
        apply quiet_ws_send. }
    destruct (strict_eq _ _).
    { unfold handle_send_message, insert_message. cbv zeta.
      eapply quiet_trans; [apply quiet_set_db | apply quiet_settle_publish]. }
    destruct (strict_eq _ _).
    { unfold handle_update_status.
      eapply quiet_trans; [apply quiet_set_db | apply quiet_settle_publish]. }
    destruct (strict_eq _ _).
    { unfold handle_delete_message.
      eapply quiet_trans; [apply quiet_set_db | apply quiet_settle_publish]. }
    destruct (strict_eq _ _); [apply quiet_handle_toggle_device|].
    destruct (strict_eq _ _); [apply quiet_settle_publish | apply quiet_refl]. }
  destruct msg as [v| |fields]; [|exact Hd | exact Hd].
  destruct v; try exact Hd; left; apply quiet_ws_send.
Qed.

Lemma consistent_quiet w w' : quiet w w' -> consistent w -> consistent w'.
Proof.
  intros (Hc & Hs & Hst) (I1 & I2 & I3).
  assert (Hm : forall c, members c w' = members c w)
    by (intro c; unfold members; now rewrite Hc).
  split; [|split].
  - intros k c Ho Hin. destruct (Hst k) as (_ & _ & _ & Hr).
    rewrite Hs. apply I1; [congruence | now rewrite <- Hm].
  - intros k i Hn. destruct (Hst k) as (_ & _ & Hns & _).
    rewrite Hs. apply I2. congruence.
  - intros k Hk. destruct (Hst k) as (_ & _ & Hns & Hr).
    destruct (I3 k) as [Hnone Hnot]; [congruence|].
    split; [congruence|]. intros c. rewrite Hm. apply Hnot.
Qed.

Lemma consistent_init s : consistent (init s).
Proof.
  split; [|split].
  - intros k c Ho. discriminate Ho.
  - intros k i Hn. discriminate Hn.
  - intros k _. split; [reflexivity|]. intros c [].
Qed.

Lemma consistent_connect ws w :
  readyState (conns w ws) = CONNECTING -> consistent w ->
  consistent (onConnection ws w).
Proof.
  intros Hws (I1 & I2 & I3). unfold onConnection.
  assert (Hm : forall c, members c (set_conn ws (mk_conn JNull JNull None OPEN []) w)
                         = members c w) by reflexivity.
  split; [|split].
  - intros k c Ho Hin. rewrite Hm in Hin. simpl in *.
    destruct (Nat.eqb_spec k ws) as [->|Hk].
    + destruct (I3 ws Hws) as [_ Hnot]. now apply Hnot in Hin.
    + now apply I1.
  - intros k i Hn. simpl in *. destruct (Nat.eqb_spec k ws); [discriminate|].
    now apply I2.
  - intros k Hk. simpl in *. destruct (Nat.eqb_spec k ws); [discriminate|].
    destruct (I3 k Hk) as [Hnone Hnot]. split; [exact Hnone|].
    intro c. rewrite Hm. apply Hnot.
Qed.

Lemma consistent_join ws msg w :
  readyState (conns w ws) = OPEN -> consistent w -> consistent (handle_join ws msg w).
Proof.
  intros Hws (I1 & I2 & I3).
  destruct (handle_join_spec ws msg w)
    as (Hm & Hs & _ & _ & Hn & Hr & _ & Hot & _).
  cbv zeta in *.
  split; [|split].
  - intros k c Ho Hin. rewrite Hm in Hin. rewrite Hs.
    assert (Hold : In k (members c w) ->
                   exists i, nth_error (subs w ++
                                        [mk_subscription
                                           (subject_of (prop msg "channelName")) ws true]) i
                             = Some (mk_subscription (subject_of c) k true)).
    { intro Hin'. destruct (Nat.eq_dec k ws) as [->|Hk].
      - destruct (I1 ws c Hws Hin') as [i Hi]. exists i.
        rewrite nth_error_app1; [exact Hi|]. apply nth_error_Some. now rewrite Hi.
      - rewrite (Hot k Hk) in Ho. destruct (I1 k c Ho Hin') as [i Hi]. exists i.
        rewrite nth_error_app1; [exact Hi|]. apply nth_error_Some. now rewrite Hi. }
    destruct (strict_eq c (prop msg "channelName")) eqn:E; [|now apply Hold].
    apply Set_add_inv in Hin. destruct Hin as [Hin | ->]; [now apply Hold|].
    apply strict_eq_eq in E. subst c. exists (length (subs w)).
    now rewrite nth_error_app2, Nat.sub_diag by lia.
  - intros k i Hi. rewrite Hs. destruct (Nat.eq_dec k ws) as [->|Hk].
    + rewrite Hn in Hi. injection Hi as <-. eexists.
      rewrite nth_error_app2, Nat.sub_diag by lia. split; reflexivity.
    + rewrite (Hot k Hk) in Hi. destruct (I2 k i Hi) as (s & Hsi & Hown).
      exists s. split; [|exact Hown].
      rewrite nth_error_app1; [exact Hsi|]. apply nth_error_Some. now rewrite Hsi.
  - intros k Hk. destruct (Nat.eq_dec k ws) as [->|Hne]; [congruence|].
    rewrite (Hot k Hne) in *. destruct (I3 k Hk) as [Hnone Hnot].
    split; [exact Hnone|]. intros c Hin. rewrite Hm in Hin.
    destruct (strict_eq c (prop msg "channelName")); [|now apply (Hnot c)].
    apply Set_add_inv in Hin. destruct Hin as [Hin|Heq]; [now apply (Hnot c)|].
    contradiction.
Qed.

Lemma consistent_close ws w :
  readyState (conns w ws) = OPEN -> consistent w -> consistent (close ws w).
Proof.
  intros Hws (I1 & I2 & I3).
  destruct (close_spec ws w) as (Hm & Hs & Hc & Hot & _).
  cbv zeta in *.
  assert (Hmem : forall k c, In k (members c (close ws w)) -> In k (members c w)).
  { intros k c Hin. rewrite Hm in Hin.
    destruct (_ && _); [now apply Set_delete_in in Hin | exact Hin]. }
  split; [|split].
  - intros k c Ho Hin. destruct (Nat.eq_dec k ws) as [->|Hk].
    + rewrite Hc in Ho. discriminate Ho.
    + rewrite (Hot k Hk) in Ho. destruct (I1 k c Ho (Hmem _ _ Hin)) as [i Hi].
      exists i. rewrite Hs. destruct (natsSub (conns w ws)) as [j|] eqn:Hj; [|exact Hi].
      rewrite unsubscribe_at_nth. destruct (Nat.eqb_spec j i) as [->|]; [|exact Hi].
      destruct (I2 ws i Hj) as (s & Hsi & Hown). rewrite Hi in Hsi.
      injection Hsi as <-. simpl in Hown. congruence.
  - intros k i Hi.
    assert (Hi' : natsSub (conns w k) = Some i).
    { destruct (Nat.eq_dec k ws) as [->|Hk]; [now rewrite Hc in Hi|].
      now rewrite (Hot k Hk) in Hi. }
    destruct (I2 k i Hi') as (s & Hsi & Hown). rewrite Hs.
    destruct (natsSub (conns w ws)) as [j|]; [|now exists s].
    rewrite unsubscribe_at_nth, Hsi.
    destruct (Nat.eqb j i); simpl; eexists; split; try reflexivity; exact Hown.
  - intros k Hk. destruct (Nat.eq_dec k ws) as [->|Hne].
    + rewrite Hc in Hk. discriminate Hk.
    + rewrite (Hot k Hne) in *. destruct (I3 k Hk) as [Hnone Hnot].
      split; [exact Hnone|]. intros c Hin. apply (Hnot c). now apply Hmem.
Qed.

(** After the process has ended no socket is open, and nothing is asked of
    a socket that is not. *)
Lemma consistent_crash w : consistent w -> consistent (crash w).
Proof.
  intros (I1 & I2 & I3).
  assert (Hm : forall c, members c (crash w) = members c w) by reflexivity.
  split; [|split].
  - intros k c Ho. simpl in Ho.
    destruct (is_open (readyState (conns w k))) eqn:E; [discriminate Ho|].
    rewrite Ho in E. discriminate E.
  - intros k i Hn.
    assert (Hn' : natsSub (conns w k) = Some i).
    { simpl in Hn. now destruct (is_open (readyState (conns w k))). }
    destruct (I2 k i Hn') as (s & Hs & Hown).
    exists (mk_subscription (sub_subject s) (sub_ws s) false).
    split; [|exact Hown].
    simpl subs. rewrite nth_error_map, Hs. reflexivity.
  - intros k Hk.
    assert (Hk' : readyState (conns w k) = CONNECTING).
    { simpl in Hk. now destruct (is_open (readyState (conns w k))) eqn:E. }
    destruct (I3 k Hk') as [Hnone Hnot]. split.
    + simpl. now destruct (is_open (readyState (conns w k))).
    + intro c. rewrite Hm. apply Hnot.
Qed.

Lemma consistent_step e w :
  consistent w -> enabled e w = true -> consistent (step e w).
Proof.
  intros Hc He. unfold enabled in He. apply andb_true_iff in He.
  destruct He as [_ He].
  destruct e as [k|k raw|k|k| |s d]; simpl in *.
  - apply consistent_connect; [|exact Hc].
    now destruct (readyState (conns w k)).
  - assert (Ho : readyState (conns w k) = OPEN)
      by (now destruct (readyState (conns w k))).
    destruct (onMessage_quiet_or_join k raw w) as [Hq | [msg ->]].
    + now apply (consistent_quiet w).
    + now apply consistent_join.
  - now apply consistent_crash.
  - apply consistent_close; [|exact Hc].
    now destruct (readyState (conns w k)).
  - unfold fire_timer. destruct (timers w) as [|t rest]; [exact Hc|].
    assert (Hq : consistent (set_timers rest w))
      by (apply (consistent_quiet w); [apply quiet_set_timers | exact Hc]).
    unfold try_publish. destruct (fits (timer_payload t)).
    + apply (consistent_quiet (set_timers rest w)); [apply quiet_nc_publish | exact Hq].
    + now apply consistent_crash.
  - apply (consistent_quiet w); [|exact Hc]. repeat split.
Qed.

Lemma reachable_consistent w : reachable w -> consistent w.
Proof.
  induction 1 as [s | w e _ IH He]; [apply consistent_init|].
  now apply consistent_step.
Qed.

Lemma fanout_live subject k l i :
  nth_error l i = Some (mk_subscription subject k true) ->
  (0 < fanout subject k l)%nat.
Proof.
  revert i. induction l as [|s l IH]; intros [|i] H; simpl in *; try discriminate.
  - injection H as ->. simpl. rewrite String.eqb_refl, Nat.eqb_refl. simpl. lia.
  - specialize (IH i H). lia.
Qed.

(** ** send-message *)

(** C4, counterexample.  The frame of the specification's example, sent by
    a joined socket: the persisted row carries the store's creation time,
    the published record the gateway's, so the record in the event is not
    the persisted record as the store returns it. *)
Lemma new_message_is_not_the_persisted_row :
  reachable two_clocks
  /\ chat_messages (db (onMessage O (Parsed send_hi) two_clocks)) =
     [mk_chat_row 1 (JStr "room1") (JStr "u1") (JStr "Alice") (JStr "hi")
                  1700000000000]
  /\ row_json (mk_chat_row 1 (JStr "room1") (JStr "u1") (JStr "Alice") (JStr "hi")
                           1700000000000) =
     JObject [("id", JVal (JNum 1)); ("channel_name", str "room1");
              ("uid", str "u1"); ("username", str "Alice"); ("message", str "hi");
              ("created_at", str "2023-11-14T22:13:20.000Z")]
  /\ published (onMessage O (Parsed send_hi) two_clocks) =
     [("meeting.room1",
       JObject [("action", str "new-message"); ("channelName", str "room1");
                ("data",
                 JObject [("id", JVal (JNum 1)); ("channel_name", str "room1");
                          ("uid", str "u1"); ("username", str "Alice");
                          ("message", str "hi");
                          ("created_at", str "2023-11-14T22:13:20.123Z")])])]
  /\ ~ (exists row,
           In row (chat_messages (db (onMessage O (Parsed send_hi) two_clocks)))
           /\ published (onMessage O (Parsed send_hi) two_clocks) =
              [("meeting.room1",
                JObject [("action", str "new-message"); ("channelName", str "room1");
                         ("data", row_json row)])]).
Proof.
  split; [apply reachable_run; [apply reachable_init | reflexivity]|].
  split; [vm_compute; reflexivity|]. split; [vm_compute; reflexivity|].
  split; [vm_compute; reflexivity|].
  intros (row & Hin & Hpub). vm_compute in Hin. destruct Hin as [<-|[]].
  vm_compute in Hpub. discriminate Hpub.
Qed.

(** C4, amended.  A send-message inserts exactly one row, whose id and
    creation time the store assigns.  When the new-message event fits the
    broker's payload limit it is published exactly once on the channel's
    subject; the event carries that id, the channel, uid, username and text
    of the frame, and a creation time read from the gateway's clock, and
    every open socket joined to the channel, the sender among them when it
    is joined, is written the event.  When the event does not fit, the row
    stays inserted, nothing is published and the sender alone is written an
    error event. *)
Theorem send_message_reaches_members ws msg w :
  reachable w ->
  prop msg "action" = JStr "send-message" ->
  let channelName := prop msg "channelName" in
  let uid := prop msg "uid" in
  let username := prop msg "username" in
  let message := prop msg "message" in
  let row := mk_chat_row (auto_increment (db w)) (sql_bind channelName) (sql_bind uid)
                         (sql_bind username) (sql_bind message) (store_now (db w)) in
  let event :=
    JSON_stringify
      [("action", str "new-message");
       ("channelName", JVal channelName);
       ("data", JSON_stringify [("id", JVal (JNum (auto_increment (db w))));
                                ("channel_name", JVal channelName);
                                ("uid", JVal uid);
                                ("username", JVal username);
                                ("message", JVal message);
                                ("created_at", str (toISOString (Date_now w)))])] in
  let w' := onMessage ws (Parsed msg) w in
  chat_messages (db w') = chat_messages (db w) ++ [row]
  /\ meeting_participants (db w') = meeting_participants (db w)
  /\ (fits event = true ->
      published w' = published w ++ [(subject_of channelName, event)]
      /\ (forall k, readyState (conns w k) = OPEN -> In k (members channelName w) ->
                    exists n, (0 < n)%nat
                              /\ sent (conns w' k) = sent (conns w k) ++ repeat event n)
      /\ (In ws (members channelName w) -> readyState (conns w ws) = OPEN ->
          In event (sent (conns w' ws))))
  /\ (fits event = false ->
      published w' = published w
      /\ sent (conns w' ws) =
         sent (conns w ws) ++
         (if is_open (readyState (conns w ws))
          then [error_event MAX_PAYLOAD_EXCEEDED] else [])
      /\ forall k, k <> ws -> conns w' k = conns w k).
Proof.
  intros Hr Ha channelName uid username message row event w'.
  assert (Hw' : w' = settle ws (handle_send_message msg w))
    by (subst w'; now rewrite (onMessage_send_message _ _ _ Ha)).
  destruct (reachable_consistent w Hr) as (I1 & _ & _).
  unfold handle_send_message, insert_message in Hw'. cbv zeta in Hw'.
  match type of Hw' with
  | _ = settle ws (publish_or_throw ?subj ?ev (set_db ?s w)) =>
      destruct (store_then_publish ws s subj ev w)
        as (Hd & _ & _ & _ & _ & _ & Hfit & Hbig)
  end.
  cbv zeta in Hd, Hfit, Hbig. rewrite <- Hw' in Hd, Hfit, Hbig.
  split; [now rewrite Hd|]. split; [now rewrite Hd|]. split.
  - intro Hf. destruct (Hfit Hf) as (Hp & Hsent).
    assert (Hall : forall k, readyState (conns w k) = OPEN ->
                             In k (members channelName w) ->
                             exists n, (0 < n)%nat
                                       /\ sent (conns w' k) =
                                          sent (conns w k) ++ repeat event n).
    { intros k Ho Hin. destruct (I1 k channelName Ho Hin) as [i Hi].
      exists (fanout (subject_of channelName) k (subs w)).
      split; [now apply (fanout_live _ _ _ i)|].
      rewrite Hsent. now rewrite Ho. }
    split; [exact Hp|]. split; [exact Hall|].
    intros Hin Ho. destruct (Hall ws Ho Hin) as (n & Hn & Hs).
    rewrite Hs. apply in_or_app. right. destruct n; [lia | now left].
  - intro Hf. exact (Hbig Hf).
Qed.

Lemma send_message_reaches_members_witness :
  reachable two_clocks
  /\ prop send_hi "action" = JStr "send-message"
  /\ chat_messages (db (onMessage O (Parsed send_hi) two_clocks)) =
     [mk_chat_row 1 (JStr "room1") (JStr "u1") (JStr "Alice") (JStr "hi")
                  1700000000000]
  /\ In (JObject [("action", str "new-message"); ("channelName", str "room1");
                  ("data",
                   JObject [("id", JVal (JNum 1)); ("channel_name", str "room1");
                            ("uid", str "u1"); ("username", str "Alice");
                            ("message", str "hi");
                            ("created_at", str "2023-11-14T22:13:20.123Z")])])
        (sent (conns (onMessage O (Parsed send_hi) two_clocks) O)).
Proof.
  assert (Hr : reachable two_clocks)
    by (apply reachable_run; [apply reachable_init | reflexivity]).
  split; [exact Hr|]. split; [reflexivity|].
  destruct (send_message_reaches_members O send_hi two_clocks Hr eq_refl)
    as (Hrow & _ & Hfit & _).
  split; [exact Hrow|].
  destruct (Hfit eq_refl) as (_ & _ & Hself).
  apply Hself; [simpl; now left | reflexivity].
Defined.

(** ** Disconnect *)

(** C1, the failing run.  A socket joins room1, joins room2 and closes.  The
    close handler removes it from room2 and releases the room2 subscription,
    the only ones its variables still name: the socket stays in room1's
    member set and its room1 subscription stays live. *)
Theorem close_after_rejoin_leaks :
  let w := run rejoin_then_close (init room1_store) in
  reachable w
  /\ readyState (conns w O) = CLOSED
  /\ clientChannel (conns w O) = JStr "room2"
  /\ members (JStr "room2") w = []
  /\ members (JStr "room1") w = [O]
  /\ subs w = [mk_subscription "meeting.room1" O true;
               mk_subscription "meeting.room2" O false].
Proof.
  split; [apply reachable_run; [apply reachable_init | reflexivity]|].
  repeat split.
Qed.

(** What the close handler does achieve: the socket leaves the member set
    of the channel its variable names, when that name is truthy, and the
    subscription its handle names is no longer live. *)
Lemma close_releases_current ws w c s sub :
  clientChannel (conns w ws) = c -> truthy c = true ->
  natsSub (conns w ws) = Some s -> nth_error (subs w) s = Some sub ->
  ~ In ws (members c (close ws w))
  /\ nth_error (subs (close ws w)) s =
     Some (mk_subscription (sub_subject sub) (sub_ws sub) false).
Proof.
  intros Hc Ht Hn Hs. destruct (close_spec ws w) as (Hm & Hsu & _).
  cbv zeta in *. rewrite Hc in Hm. split.
  - rewrite Hm, Ht, strict_eq_refl. simpl. intro Hin.
    apply Set_delete_in in Hin. now destruct Hin.
  - rewrite Hsu, Hn, unsubscribe_at_nth, Nat.eqb_refl, Hs. reflexivity.
Qed.

(** A closed socket is written nothing by a publish. *)
Lemma closed_socket_gets_no_payload subject p w k :
  readyState (conns w k) = CLOSED ->
  sent (conns (nc_publish subject p w) k) = sent (conns w k).
Proof.
  intro Hc. destruct (nc_publish_spec subject p w) as (_ & _ & _ & _ & _ & _ & _ & Hs).
  cbv zeta in Hs. rewrite Hs, Hc. simpl. now rewrite app_nil_r.
Qed.

(** * Further properties of the handlers *)

(** ** end-meeting *)

(** X1. An end-meeting touches neither store, registry, subscriptions nor
    timers and closes no socket.  Its meeting-ended event names the
    sender's username, or "Host" when the username is absent or falsy; it
    is published once on the channel's subject when it fits the broker's
    payload limit, and otherwise nothing is published and the sender is
    written an error event. *)
Theorem end_meeting_only_announces ws msg w :
  prop msg "action" = JStr "end-meeting" ->
  let channelName := prop msg "channelName" in
  let username := prop msg "username" in
  let event :=
    JSON_stringify [("action", str "meeting-ended");
                    ("channelName", JVal channelName);
                    ("endedBy",
                     JVal (if truthy username then username else JStr "Host"))] in
  let w' := onMessage ws (Parsed msg) w in
  db w' = db w /\ timers w' = timers w
  /\ channels w' = channels w /\ subs w' = subs w
  /\ (forall k, readyState (conns w' k) = readyState (conns w k))
  /\ (fits event = true ->
      published w' = published w ++ [(subject_of channelName, event)])
  /\ (fits event = false ->
      published w' = published w
      /\ sent (conns w' ws) =
         sent (conns w ws) ++
         (if is_open (readyState (conns w ws))
          then [error_event MAX_PAYLOAD_EXCEEDED] else [])
      /\ forall k, k <> ws -> conns w' k = conns w k).
Proof.
  intros Ha channelName username event w'. subst w'.
  rewrite (onMessage_end_meeting _ _ _ Ha). unfold handle_end_meeting.
  destruct (settle_publish ws (subject_of (prop msg "channelName")) (meeting_ended msg) w)
    as (Hc & Hs & Hd & Ht & _ & _ & Hst & Hfit & Hbig).
  cbv zeta in *.
  split; [exact Hd|]. split; [exact Ht|]. split; [exact Hc|]. split; [exact Hs|].
  split; [intro k; apply Hst|]. split.
  - intro Hf. now apply Hfit.
  - intro Hf. now apply Hbig.
Qed.

Lemma end_meeting_only_announces_witness :
  prop end_anonymous "action" = JStr "end-meeting"
  /\ published (onMessage O (Parsed end_anonymous) lobby) =
     [("meeting.room1",
       JObject [("action", str "meeting-ended"); ("channelName", str "room1");
                ("endedBy", str "Host")])]
  /\ readyState (conns (onMessage O (Parsed end_anonymous) lobby) O) = OPEN.
Proof.
  split; [reflexivity|].
  destruct (end_meeting_only_announces O end_anonymous lobby eq_refl)
    as (_ & _ & _ & _ & Hr & Hp & _).
  split; [exact (Hp eq_refl) | exact (Hr O)].
Defined.

(** ** Frames the switch does not handle *)

(** X2. A frame that destructures and whose action is none of the seven
    case labels (an unknown action, no action, a number, a string, an
    array) changes nothing at all and gets no reply: the switch has no
    default case. *)
Theorem unknown_action_is_ignored ws msg w :
  destructure msg = inr msg ->
  (forall a, In a action_kinds -> prop msg "action" <> JStr a) ->
  onMessage ws (Parsed msg) w = w.
Proof.
  intros Hd Hno. unfold onMessage, try_message. simpl. rewrite Hd.
  now rewrite (dispatch_unknown _ _ _ Hno).
Qed.

Lemma unknown_action_is_ignored_witness :
  destructure leave_room1 = inr leave_room1
  /\ onMessage O (Parsed leave_room1) in_room1 = in_room1.
Proof.
  split; [reflexivity|].
  apply unknown_action_is_ignored; [reflexivity|].
  intros a Hin. simpl in Hin.
  repeat (destruct Hin as [<-|Hin]; [discriminate|]). contradiction.
Defined.

(** X3. src/main.js has no case for toggle-device and end-meeting: there
    such a frame changes nothing, while src/unnamed/part_000 publishes the
    device-toggled or meeting-ended event for it (or, when the event
    exceeds the broker's payload limit, writes the sender an error event);
    on every other frame the two versions do the same. *)
Theorem main_ignores_device_and_end ws msg w :
  prop msg "action" = JStr "toggle-device" \/ prop msg "action" = JStr "end-meeting" ->
  let channelName := prop msg "channelName" in
  onMessage_main ws (Parsed msg) w = w
  /\ (prop msg "action" = JStr "toggle-device" ->
      published_or_refused ws (subject_of channelName)
        (JSON_stringify
           [("action", str "device-toggled");
            ("channelName", JVal channelName);
            ("data", JSON_stringify [("targetUid", JVal (prop msg "targetUid"));
                                     ("device", JVal (prop msg "device"));
                                     ("state", JVal (prop msg "state"))])])
        w (onMessage ws (Parsed msg) w))
  /\ (prop msg "action" = JStr "end-meeting" ->
      published_or_refused ws (subject_of channelName)
        (JSON_stringify
           [("action", str "meeting-ended");
            ("channelName", JVal channelName);
            ("endedBy", JVal (if truthy (prop msg "username")
                              then prop msg "username" else JStr "Host"))])
        w (onMessage ws (Parsed msg) w))
  /\ forall other sender,
      (forall m, other = Parsed m ->
                 prop m "action" <> JStr "toggle-device"
                 /\ prop m "action" <> JStr "end-meeting") ->
      onMessage_main sender other w = onMessage sender other w.
Proof.
  intros Ha channelName. split; [|split; [|split]].
  - assert (Hobj : exists fields, msg = PObject fields)
      by (destruct Ha as [Ha|Ha]; apply (prop_object _ _ _ Ha); discriminate).
    destruct Hobj as [fields ->].
    unfold onMessage_main, JSON_parse, destructure, dispatch_main.
    destruct Ha as [Ha|Ha]; rewrite Ha; reflexivity.
  - intro Ht. rewrite (onMessage_toggle_device _ _ _ Ht).
    destruct (handle_toggle_device_fields ws msg w)
      as (_ & _ & _ & _ & _ & Hfit & Hbig).
    cbv zeta in Hfit, Hbig. split.
    + intro Hf. now apply Hfit.
    + intro Hf. destruct (Hbig Hf) as (Hp & _ & Hs & _). now split.
  - intro He. rewrite (onMessage_end_meeting _ _ _ He). unfold handle_end_meeting.
    destruct (settle_publish ws (subject_of (prop msg "channelName"))
                             (meeting_ended msg) w)
      as (_ & _ & _ & _ & _ & _ & _ & Hfit & Hbig).
    cbv zeta in Hfit, Hbig. split.
    + intro Hf. now apply Hfit.
    + intro Hf. destruct (Hbig Hf) as (Hp & Hs & _). now split.
  - intros other sender Hother. now apply onMessage_main_agrees.
Qed.

Lemma main_ignores_device_and_end_witness :
  prop end_anonymous "action" = JStr "end-meeting"
  /\ onMessage_main O (Parsed end_anonymous) lobby = lobby
  /\ published (onMessage O (Parsed end_anonymous) lobby) =
     [("meeting.room1",
       JObject [("action", str "meeting-ended"); ("channelName", str "room1");
                ("endedBy", str "Host")])]
  /\ onMessage_main O (Parsed join_room1) lobby = onMessage O (Parsed join_room1) lobby.
Proof.
  split; [reflexivity|].
  destruct (main_ignores_device_and_end O end_anonymous lobby (or_intror eq_refl))
    as (Hm & _ & Hend & Hagree).
  split; [exact Hm|]. split; [exact (proj1 (Hend eq_refl) eq_refl)|].
  apply Hagree. intros m Hm'. injection Hm' as <-. split; discriminate.
Defined.

(** ** toggle-device for another device *)

(** X4. A toggle-device whose device is neither "camera" nor "mic" updates
    no record.  When its device-toggled event fits the broker's payload
    limit the event is still published and the status event still
    scheduled, which then carries the target's uid and neither flag; when
    it does not fit, nothing is published, no timer is set and the sender
    is written an error event. *)
Theorem toggle_other_device_still_announces ws msg w :
  prop msg "action" = JStr "toggle-device" ->
  prop msg "device" <> JStr "camera" ->
  prop msg "device" <> JStr "mic" ->
  let channelName := prop msg "channelName" in
  let toggled :=
    JSON_stringify [("action", str "device-toggled");
                    ("channelName", JVal channelName);
                    ("data",
                     JSON_stringify [("targetUid", JVal (prop msg "targetUid"));
                                     ("device", JVal (prop msg "device"));
                                     ("state", JVal (prop msg "state"))])] in
  let w' := onMessage ws (Parsed msg) w in
  db w' = db w
  /\ (fits toggled = true ->
      published w' = published w ++ [(subject_of channelName, toggled)]
      /\ timers w' =
         timers w ++
         [mk_timer 100 (subject_of channelName)
            (JSON_stringify [("action", str "participant-status-changed");
                             ("channelName", JVal channelName);
                             ("data",
                              JSON_stringify [("uid", JVal (prop msg "targetUid"))])])])
  /\ (fits toggled = false ->
      published w' = published w /\ timers w' = timers w
      /\ sent (conns w' ws) =
         sent (conns w ws) ++
         (if is_open (readyState (conns w ws))
          then [error_event MAX_PAYLOAD_EXCEEDED] else [])).
Proof.
  intros Ha Hcam Hmic channelName toggled w'. subst w'.
  rewrite (onMessage_toggle_device _ _ _ Ha).
  destruct (handle_toggle_device_fields ws msg w)
    as (Hd & _ & _ & _ & _ & Hfit & Hbig).
  cbv zeta in Hd, Hfit, Hbig.
  rewrite (strict_eq_neq _ _ Hcam), (strict_eq_neq _ _ Hmic) in Hd.
  split; [exact Hd|]. split.
  - intro Hf. destruct (Hfit Hf) as (Hp & Ht & _). split; [exact Hp|].
    rewrite Ht. unfold toggled_status, status_changed.
    rewrite (strict_eq_neq _ _ Hcam), (strict_eq_neq _ _ Hmic).
    unfold JSON_stringify. simpl. now destruct (prop msg "targetUid").
  - intro Hf. destruct (Hbig Hf) as (Hp & Ht & Hs & _). now repeat split.
Qed.

Lemma toggle_other_device_still_announces_witness :
  prop toggle_speaker "action" = JStr "toggle-device"
  /\ db (onMessage O (Parsed toggle_speaker) lobby) = db lobby
  /\ timers (onMessage O (Parsed toggle_speaker) lobby) =
     [mk_timer 100 "meeting.room1"
        (JObject [("action", str "participant-status-changed");
                  ("channelName", str "room1");
                  ("data", JObject [("uid", str "u2")])])].
Proof.
  split; [reflexivity|].
  destruct (toggle_other_device_still_announces O toggle_speaker lobby eq_refl)
    as (Hd & Hfit & _); try discriminate.
  split; [exact Hd | exact (proj2 (Hfit eq_refl))].
Defined.

(** ** get-messages with a limit the store rejects *)

(** X5. A get-messages whose limit is a negative number, a non-empty
    string or [true] makes the store reject the SELECT: the sender is
    written one error event with the store's message and no result set,
    and nothing else changes. *)
Theorem get_messages_rejected_limit ws msg w :
  prop msg "action" = JStr "get-messages" ->
  readyState (conns w ws) = OPEN ->
  (exists n, prop msg "limit" = JNum n /\ n < 0)
  \/ (exists s, prop msg "limit" = JStr s /\ s <> "")
  \/ prop msg "limit" = JBool true ->
  let w' := onMessage ws (Parsed msg) w in
  sent (conns w' ws) =
    sent (conns w ws) ++
    [JSON_stringify [("action", str "error"); ("message", str ER_PARSE_ERROR)]]
  /\ (forall k, k <> ws -> conns w' k = conns w k)
  /\ same_outside_conns w w'.
Proof.
  intros Ha Hopen Hlim w'. subst w'.
  rewrite (onMessage_get_messages _ _ _ Ha). unfold handle_get_messages, select_messages.
  assert (Hl : sql_limit (js_or (prop msg "limit") (JNum 50)) = inl ER_PARSE_ERROR).
  { unfold js_or. destruct Hlim as [(n & -> & Hn) | [(s & -> & Hs) | ->]]; simpl.
    - destruct (Z.eqb_spec n 0); [lia|]. simpl. destruct (Z.leb_spec 0 n); [lia|reflexivity].
    - destruct (String.eqb_spec s ""); [contradiction | reflexivity].
    - reflexivity. }
  rewrite Hl. cbn [settle]. split; [|split].
  - rewrite ws_send_sent, Nat.eqb_refl, Hopen. reflexivity.
  - intros k Hk. now apply ws_send_others.
  - apply ws_send_outside.
Qed.

Lemma get_messages_rejected_limit_witness :
  prop get_negative "action" = JStr "get-messages"
  /\ readyState (conns lobby O) = OPEN
  /\ sent (conns (onMessage O (Parsed get_negative) lobby) O) =
     [JObject [("action", str "error"); ("message", str ER_PARSE_ERROR)]].
Proof.
  split; [reflexivity|]. split; [reflexivity|].
  refine (proj1 (get_messages_rejected_limit O get_negative lobby eq_refl eq_refl _)).
  left. exists (-1). split; [reflexivity | lia].
Defined.

(** ** join *)

Lemma Set_has_In x s : Set_has x s = true <-> In x s.
Proof.
  unfold Set_has. rewrite existsb_exists. split.
  - intros (y & Hy & Heq). apply Nat.eqb_eq in Heq. now subst.
  - intro H. exists x. split; [exact H | apply Nat.eqb_refl].
Qed.

Lemma Set_add_NoDup x s : NoDup s -> NoDup (Set_add x s).
Proof.
  intro H. unfold Set_add. destruct (Set_has x s) eqn:E; [exact H|].
  apply NoDup_app; [exact H | repeat constructor; intros [] |].
  intros y Hy [<-|[]]. apply Set_has_In in Hy. congruence.
Qed.

Lemma fanout_app subject k l1 l2 :
  fanout subject k (l1 ++ l2) = (fanout subject k l1 + fanout subject k l2)%nat.
Proof. induction l1 as [|s l1 IH]; simpl; [reflexivity|]. rewrite IH. lia. Qed.

(** X6. A join by an open socket acknowledges to that socket only, adds it
    to the named channel's set (created on first use, no duplicate entry),
    leaves every other channel's set and every other socket as they were,
    opens one subscription on the channel's subject, and neither persists
    nor publishes anything. *)
Theorem join_registers_and_acknowledges ws msg w :
  prop msg "action" = JStr "join" ->
  readyState (conns w ws) = OPEN ->
  let c := prop msg "channelName" in
  let w' := onMessage ws (Parsed msg) w in
  sent (conns w' ws) =
    sent (conns w ws) ++
    [JSON_stringify [("action", str "joined"); ("channelName", JVal c)]]
  /\ In ws (members c w')
  /\ (forall k, k <> ws -> (In k (members c w') <-> In k (members c w)))
  /\ (NoDup (members c w) -> NoDup (members c w'))
  /\ (forall c', c' <> c -> members c' w' = members c' w)
  /\ (forall k, k <> ws -> conns w' k = conns w k)
  /\ subs w' = subs w ++ [mk_subscription (subject_of c) ws true]
  /\ published w' = published w /\ db w' = db w /\ timers w' = timers w.
Proof.
  intros Ha Hopen c w'. subst w'. rewrite (onMessage_join _ _ _ Ha).
  destruct (handle_join_spec ws msg w)
    as (Hm & Hs & _ & _ & _ & _ & Hsent & Hot & Hp & Hd & Ht & _).
  cbv zeta in *. fold c in Hm, Hs, Hsent.
  rewrite Hopen in Hsent. simpl in Hsent.
  split; [exact Hsent|]. split; [|split; [|split; [|split]]].
  - rewrite Hm, strict_eq_refl. apply Set_add_in.
  - intros k Hk. rewrite Hm, strict_eq_refl. split.
    + intro Hin. apply Set_add_inv in Hin. destruct Hin; [assumption | contradiction].
    + apply Set_add_keeps.
  - rewrite Hm, strict_eq_refl. apply Set_add_NoDup.
  - intros c' Hc'. rewrite Hm. now rewrite (strict_eq_neq _ _ Hc').
  - repeat split; assumption.
Qed.

Lemma join_registers_and_acknowledges_witness :
  prop join_room1 "action" = JStr "join"
  /\ readyState (conns lobby O) = OPEN
  /\ sent (conns (onMessage O (Parsed join_room1) lobby) O) =
     [JObject [("action", str "joined"); ("channelName", str "room1")]]
  /\ In O (members (JStr "room1") (onMessage O (Parsed join_room1) lobby)).
Proof.
  split; [reflexivity|]. split; [reflexivity|].
  destruct (join_registers_and_acknowledges O join_room1 lobby eq_refl eq_refl)
    as (Hs & Hin & _).
  split; [exact Hs | exact Hin].
Defined.

(** X7. A socket in state Joined(c) that joins c again stays in c's set
    once, but holds two live subscriptions on c's subject: every payload
    published on that subject afterwards is written to it at least twice. *)
Theorem rejoin_same_channel_doubles_delivery ws msg w c s1 :
  joined_to ws c s1 w ->
  readyState (conns w ws) = OPEN ->
  prop msg "action" = JStr "join" ->
  prop msg "channelName" = c ->
  let w' := onMessage ws (Parsed msg) w in
  members c w' = members c w
  /\ forall payload, exists n,
      (2 <= n)%nat
      /\ sent (conns (nc_publish (subject_of c) payload w') ws) =
         sent (conns w' ws) ++ repeat payload n.
Proof.
  intros (_ & _ & Hsub & Hmem) Hopen Ha Hc w'. subst w'.
  rewrite (onMessage_join _ _ _ Ha).
  destruct (handle_join_spec ws msg w)
    as (Hm & Hs & _ & _ & _ & Hr & _).
  cbv zeta in *. rewrite Hc in Hm, Hs. split.
  - rewrite Hm, strict_eq_refl. unfold Set_add.
    now rewrite (proj2 (Set_has_In ws (members c w)) Hmem).
  - intro payload.
    destruct (nc_publish_spec (subject_of c) payload (handle_join ws msg w))
      as (_ & _ & _ & _ & _ & _ & _ & Hsent).
    cbv zeta in Hsent. rewrite Hsent, Hr, Hopen, Hs, fanout_app. simpl is_open.
    cbv iota. eexists. split; [|reflexivity].
    pose proof (fanout_live _ _ _ _ Hsub) as Hold.
    assert (Hnew : fanout (subject_of c) ws [mk_subscription (subject_of c) ws true]
                   = 1%nat).
    { simpl. now rewrite String.eqb_refl, Nat.eqb_refl. }
    rewrite Hnew. lia.
Qed.

Lemma rejoin_same_channel_doubles_delivery_witness :
  joined_to O (JStr "room1") O in_room1
  /\ readyState (conns in_room1 O) = OPEN
  /\ members (JStr "room1") (onMessage O (Parsed join_room1) in_room1) = [O]
  /\ exists n, (2 <= n)%nat
               /\ sent (conns (nc_publish "meeting.room1" (str "ping")
                                 (onMessage O (Parsed join_room1) in_room1)) O) =
                  sent (conns (onMessage O (Parsed join_room1) in_room1) O)
                  ++ repeat (str "ping") n.
Proof.
  assert (Hj : joined_to O (JStr "room1") O in_room1).
  { repeat split. simpl. now left. }
  split; [exact Hj|]. split; [reflexivity|].
  destruct (rejoin_same_channel_doubles_delivery
              O join_room1 in_room1 (JStr "room1") O Hj eq_refl eq_refl eq_refl)
    as (Hm & Hdup).
  split; [exact Hm | exact (Hdup (str "ping"))].
Defined.

(** ** close *)

(** X8. Closing a socket that never joined is safe: no channel set and no
    subscription changes, no other socket changes, nothing is persisted or
    published; the socket itself only becomes CLOSED. *)
Theorem close_without_join_touches_nothing ws w :
  clientChannel (conns w ws) = JNull ->
  natsSub (conns w ws) = None ->
  let w' := close ws w in
  (forall c, members c w' = members c w)
  /\ subs w' = subs w
  /\ readyState (conns w' ws) = CLOSED
  /\ sent (conns w' ws) = sent (conns w ws)
  /\ (forall k, k <> ws -> conns w' k = conns w k)
  /\ published w' = published w /\ db w' = db w /\ timers w' = timers w.
Proof.
  intros Hc Hn w'. subst w'.
  destruct (close_spec ws w) as (Hm & Hs & Hcs & Hot & Hp & Hd & Ht & _).
  cbv zeta in *. rewrite Hc in Hm. rewrite Hn in Hs. rewrite Hcs.
  repeat split; assumption.
Qed.

Lemma close_without_join_touches_nothing_witness :
  clientChannel (conns lobby O) = JNull
  /\ natsSub (conns lobby O) = None
  /\ subs (close O lobby) = subs lobby
  /\ readyState (conns (close O lobby) O) = CLOSED.
Proof.
  split; [reflexivity|]. split; [reflexivity|].
  destruct (close_without_join_touches_nothing O lobby eq_refl eq_refl)
    as (_ & Hs & Hr & _).
  split; [exact Hs | exact Hr].
Defined.

(** X9. The close handler tests the channel name for truthiness: a socket
    whose last join named a falsy channel (the empty string, 0, false,
    null or no name at all) is not removed from any channel set when it
    closes, so it stays a member of that channel; its subscription is
    released all the same. *)
Theorem close_keeps_falsy_channel_member ws w c s sub :
  clientChannel (conns w ws) = c ->
  truthy c = false ->
  natsSub (conns w ws) = Some s ->
  nth_error (subs w) s = Some sub ->
  let w' := close ws w in
  (forall k, members k w' = members k w)
  /\ (In ws (members c w) -> In ws (members c w'))
  /\ nth_error (subs w') s =
     Some (mk_subscription (sub_subject sub) (sub_ws sub) false).
Proof.
  intros Hc Hf Hn Hs w'. subst w'.
  destruct (close_spec ws w) as (Hm & Hsu & _).
  cbv zeta in *. rewrite Hc, Hf in Hm. simpl in Hm.
  split; [exact Hm|]. split; [now rewrite Hm|].
  rewrite Hsu, Hn, unsubscribe_at_nth, Nat.eqb_refl, Hs. reflexivity.
Qed.

Lemma close_keeps_falsy_channel_member_witness :
  clientChannel (conns (onMessage O (Parsed join_empty_name) lobby) O) = JStr ""
  /\ truthy (JStr "") = false
  /\ In O (members (JStr "") (close O (onMessage O (Parsed join_empty_name) lobby)))
  /\ readyState (conns (close O (onMessage O (Parsed join_empty_name) lobby)) O)
     = CLOSED.
Proof.
  split; [reflexivity|]. split; [reflexivity|].
  destruct (close_keeps_falsy_channel_member
              O (onMessage O (Parsed join_empty_name) lobby) (JStr "") O
              (mk_subscription "meeting." O true) eq_refl eq_refl eq_refl eq_refl)
    as (_ & Hin & _).
  split; [apply Hin; simpl; now left | reflexivity].
Defined.

(** ** Channel names and subjects *)

(** X10. Channel sets are keyed by the channel name as a value, subjects by
    its text: two names with the same text, such as the number 1 and the
    string "1", are different channels in the registry but one subject at
    the broker, so an open member of one is written the events sent to the
    other (here a meeting-ended event that fits the broker's payload
    limit).  Numbers are taken among those JavaScript prints digit for
    digit.  Between string names the subject determines the name. *)
Theorem same_text_channels_share_events ws msg w k c1 :
  reachable w ->
  readyState (conns w k) = OPEN ->
  In k (members c1 w) ->
  prop msg "action" = JStr "end-meeting" ->
  safe_integer c1 = true ->
  safe_integer (prop msg "channelName") = true ->
  String_ c1 = String_ (prop msg "channelName") ->
  let event :=
    JSON_stringify [("action", str "meeting-ended");
                    ("channelName", JVal (prop msg "channelName"));
                    ("endedBy", JVal (if truthy (prop msg "username")
                                      then prop msg "username" else JStr "Host"))] in
  fits event = true ->
  let w' := onMessage ws (Parsed msg) w in
  (exists n,
      (0 < n)%nat
      /\ published w' = published w ++ [(subject_of c1, event)]
      /\ sent (conns w' k) = sent (conns w k) ++ repeat event n)
  /\ forall a b, subject_of (JStr a) = subject_of (JStr b) -> a = b.
Proof.
  intros Hr Hopen Hin Ha _ _ Htext event Hf w'. subst w'. split.
  - rewrite (onMessage_end_meeting _ _ _ Ha). unfold handle_end_meeting.
    assert (Hsubj : subject_of (prop msg "channelName") = subject_of c1)
      by (unfold subject_of; now rewrite Htext).
    rewrite Hsubj.
    destruct (settle_publish ws (subject_of c1) (meeting_ended msg) w)
      as (_ & _ & _ & _ & _ & _ & _ & Hfit & _).
    cbv zeta in Hfit. destruct (Hfit Hf) as (Hp & Hsent).
    destruct (reachable_consistent w Hr) as (I1 & _).
    destruct (I1 k c1 Hopen Hin) as [i Hi].
    exists (fanout (subject_of c1) k (subs w)).
    split; [now apply (fanout_live _ _ _ i)|]. split; [exact Hp|].
    rewrite Hsent, Hopen. reflexivity.
  - intros a b H. unfold subject_of in H. simpl in H. now injection H.
Qed.

Lemma same_text_channels_share_events_witness :
  reachable text_channel
  /\ In O (members (JStr "1") text_channel)
  /\ members (JNum 1) text_channel = []
  /\ String_ (JStr "1") = String_ (prop end_number_1 "channelName")
  /\ exists n,
      (0 < n)%nat
      /\ published (onMessage 1%nat (Parsed end_number_1) text_channel) =
         published text_channel ++
         [("meeting.1",
           JObject [("action", str "meeting-ended");
                    ("channelName", JVal (JNum 1)); ("endedBy", str "Bob")])]
      /\ sent (conns (onMessage 1%nat (Parsed end_number_1) text_channel) O) =
         sent (conns text_channel O) ++
         repeat (JObject [("action", str "meeting-ended");
                          ("channelName", JVal (JNum 1)); ("endedBy", str "Bob")]) n.
Proof.
  assert (Hr : reachable text_channel).
  { apply reachable_run; [|reflexivity].
    apply (reachable_step (init room1_store) (EConnect O));
      [apply reachable_init | reflexivity]. }
  split; [exact Hr|]. split; [simpl; now left|]. split; [reflexivity|].
  split; [reflexivity|].
  exact (proj1 (same_text_channels_share_events
                  1%nat end_number_1 text_channel O (JStr "1") Hr eq_refl
                  (or_introl eq_refl) eq_refl eq_refl eq_refl eq_refl eq_refl)).
Defined.

(** ** Socket states and the end of the process *)







(** ** What holds along every run *)

Lemma conn_eq (a b : conn) :
  clientChannel a = clientChannel b -> clientUid a = clientUid b ->
  natsSub a = natsSub b -> readyState a = readyState b -> sent a = sent b -> a = b.
Proof. destruct a, b; simpl; intros; congruence. Qed.

Lemma nc_publish_closed_conn subject p w k :
  readyState (conns w k) = CLOSED -> conns (nc_publish subject p w) k = conns w k.
Proof.
  intro Hc.
  destruct (nc_publish_spec subject p w) as (_ & _ & _ & _ & _ & _ & Hst & Hs).
  cbv zeta in *. destruct (Hst k) as (a & b & c & d).
  apply conn_eq; try assumption. rewrite Hs, Hc. simpl. apply app_nil_r.
Qed.

Lemma settle_publish_closed_conn ws subject event w k :
  readyState (conns w k) = CLOSED ->
  conns (settle ws (publish_or_throw subject event w)) k = conns w k.
Proof.
  intro Hc. unfold publish_or_throw, try_publish.
  destruct (fits event); cbn [settle].
  - now apply nc_publish_closed_conn.
  - destruct (Nat.eq_dec k ws) as [->|Hk]; [|now apply ws_send_others].
    unfold ws_send. now rewrite Hc.
Qed.

Lemma handle_toggle_device_closed_conn ws msg w k :
  readyState (conns w k) = CLOSED ->
  conns (settle ws (handle_toggle_device msg w)) k = conns w k.
Proof.
  intro Hc.
  destruct (handle_toggle_device_fields ws msg w)
    as (_ & _ & _ & _ & Hst & Hfit & Hbig).
  cbv zeta in *. destruct (Hst k) as (a & b & c & d).
  apply conn_eq; try assumption.
  destruct (fits (device_toggled msg)) eqn:Hf.
  - destruct (Hfit eq_refl) as (_ & _ & Hs). rewrite Hs, Hc. simpl. apply app_nil_r.
  - destruct (Hbig eq_refl) as (_ & _ & Hs & Hot).
    destruct (Nat.eq_dec k ws) as [->|Hk]; [|now rewrite (Hot k Hk)].
    rewrite Hs, Hc. simpl. apply app_nil_r.
Qed.

Lemma ws_send_closed_conn ws p w k :
  readyState (conns w k) = CLOSED -> conns (ws_send ws p w) k = conns w k.
Proof.
  intro Hc. destruct (Nat.eq_dec k ws) as [->|Hk]; [|now apply ws_send_others].
  unfold ws_send. now rewrite Hc.
Qed.

Lemma onMessage_closed_conn ws raw w k :
  k <> ws -> readyState (conns w k) = CLOSED ->
  conns (onMessage ws raw w) k = conns w k.
Proof.
  intros Hk Hc. unfold onMessage, try_message.
  destruct raw as [err|msg]; simpl; [now apply ws_send_others|].
  destruct (destructure msg) as [err|m]; [now apply ws_send_others|].
  unfold dispatch.
  destruct (strict_eq _ _).
  { destruct (handle_join_spec ws m w) as (_ & _ & _ & _ & _ & _ & _ & Hot & _).
    now apply Hot. }
  destruct (strict_eq _ _).
  { unfold handle_get_messages. destruct (select_messages _ _ _);
      now apply ws_send_others. }
  destruct (strict_eq _ _).
  { unfold handle_send_message, insert_message. cbv zeta.
    now rewrite settle_publish_closed_conn. }
  destruct (strict_eq _ _).
  { unfold handle_update_status. cbv zeta. now rewrite settle_publish_closed_conn. }
  destruct (strict_eq _ _).
  { unfold handle_delete_message. cbv zeta. now rewrite settle_publish_closed_conn. }
  destruct (strict_eq _ _); [now apply handle_toggle_device_closed_conn|].
  destruct (strict_eq _ _); [|reflexivity].
  unfold handle_end_meeting. now rewrite settle_publish_closed_conn.
Qed.

Lemma crash_closed_conn w k :
  readyState (conns w k) = CLOSED -> conns (crash w) k = conns w k.
Proof. intro Hc. simpl. now rewrite Hc. Qed.

Lemma step_closed_conn e w k :
  enabled e w = true -> readyState (conns w k) = CLOSED ->
  conns (step e w) k = conns w k.
Proof.
  intros He Hc. unfold enabled in He. apply andb_true_iff in He.
  destruct He as [_ He].
  destruct e as [ws|ws raw|ws|ws| |s d]; simpl in *.
  - destruct (Nat.eqb_spec k ws) as [->|]; [|reflexivity].
    rewrite Hc in He. discriminate He.
  - apply onMessage_closed_conn; [|exact Hc].
    intros ->. rewrite Hc in He. discriminate He.
  - now rewrite Hc.
  - destruct (close_spec ws w) as (_ & _ & _ & Hot & _). apply Hot.
    intros ->. rewrite Hc in He. discriminate He.
  - unfold fire_timer. destruct (timers w) as [|t rest]; [reflexivity|].
    unfold try_publish. destruct (fits (timer_payload t)).
    + now rewrite nc_publish_closed_conn.
    + simpl. now rewrite Hc.
  - reflexivity.
Qed.

(** X12. Once a socket is closed nothing is ever written to it again and
    nothing about it changes, whatever frames, joins, disconnects and
    timers follow and whatever is published on the subjects it was
    subscribed to. *)
Theorem closed_socket_is_left_alone es : forall w k,
  readyState (conns w k) = CLOSED ->
  admissible es w = true ->
  conns (run es w) k = conns w k
  /\ sent (conns (run es w) k) = sent (conns w k).
Proof.
  induction es as [|e es IH]; intros w k Hc Ha; [split; reflexivity|].
  simpl in Ha. apply andb_true_iff in Ha. destruct Ha as [He Ha].
  change (run (e :: es) w) with (run es (step e w)).
  pose proof (step_closed_conn e w k He Hc) as Hstep.
  destruct (IH (step e w) k) as [H1 H2]; [now rewrite Hstep | exact Ha |].
  rewrite H1, Hstep. split; reflexivity.
Qed.

Lemma closed_socket_is_left_alone_witness :
  readyState (conns one_left O) = CLOSED
  /\ admissible [EMessage 1%nat (Parsed send_hi); EMessage 1%nat (Parsed end_anonymous)]
                one_left = true
  /\ sent (conns (run [EMessage 1%nat (Parsed send_hi);
                       EMessage 1%nat (Parsed end_anonymous)] one_left) O) =
     sent (conns one_left O).
Proof.
  split; [reflexivity|]. split; [reflexivity|].
  exact (proj2 (closed_socket_is_left_alone
                  [EMessage 1%nat (Parsed send_hi); EMessage 1%nat (Parsed end_anonymous)]
                  one_left O eq_refl eq_refl)).
Defined.

(** X13. In every state the server can reach, an open socket that is in a
    channel's set holds a live subscription of its own on that channel's
    subject, and the handle of every socket names a subscription that
    writes to that socket. *)
Theorem members_hold_live_subscriptions w :
  reachable w ->
  (forall k c, readyState (conns w k) = OPEN -> In k (members c w) ->
               exists i, nth_error (subs w) i =
                         Some (mk_subscription (subject_of c) k true))
  /\ (forall k i, natsSub (conns w k) = Some i ->
                  exists s, nth_error (subs w) i = Some s /\ sub_ws s = k).
Proof.
  intro Hr. destruct (reachable_consistent w Hr) as (I1 & I2 & _).
  split; assumption.
Qed.

Lemma members_hold_live_subscriptions_witness :
  reachable one_listener
  /\ exists i, nth_error (subs one_listener) i =
               Some (mk_subscription (subject_of (JStr "room1")) 1%nat true).
Proof.
  assert (Hr : reachable one_listener).
  { apply reachable_run; [|reflexivity].
    apply (reachable_step (init room1_store) (EConnect O));
      [apply reachable_init | reflexivity]. }
  split; [exact Hr|].
  apply (proj1 (members_hold_live_subscriptions one_listener Hr) 1%nat (JStr "room1"));
    [reflexivity | simpl; now left].
Defined.
Lemma update_participants_keys f channelName uid s :
  (forall r, participant_key (f r) = participant_key r) ->
  map participant_key (meeting_participants (update_participants f channelName uid s)) =
  map participant_key (meeting_participants s).
Proof.
  intro Hf. unfold update_participants. simpl. rewrite map_map.
  apply map_ext. intro r. now destruct (participant_matches channelName uid r).
Qed.

(** What one frame can do to the store: nothing, the INSERT, one of the
    three UPDATEs, or the DELETE. *)
Lemma onMessage_db ws raw w :
  db (onMessage ws raw w) = db w
  \/ (exists c u n m, db (onMessage ws raw w) = snd (insert_message c u n m (db w)))
  \/ (exists f c u,
         (forall r, participant_key (f r) = participant_key r)
         /\ db (onMessage ws raw w) = update_participants f c u (db w))
  \/ (exists i c, db (onMessage ws raw w) = delete_message i c (db w)).
Proof.
  assert (Hsend : forall p, db (ws_send ws p w) = db w)
    by (intro p; apply ws_send_outside).
  unfold onMessage, try_message.
  destruct raw as [err|msg]; simpl; [left; apply Hsend|].
  destruct (destructure msg) as [err|m]; [left; apply Hsend|].
  unfold dispatch.
  destruct (strict_eq _ _).
  { left. now destruct (handle_join_spec ws m w)
      as (_ & _ & _ & _ & _ & _ & _ & _ & _ & Hd & _). }
  destruct (strict_eq _ _).
  { left. unfold handle_get_messages. destruct (select_messages _ _ _); apply Hsend. }
  destruct (strict_eq _ _).
  { right. left. unfold handle_send_message, insert_message. cbv zeta.
    match goal with
    | |- context [publish_or_throw ?subj ?ev (set_db ?s w)] =>
        destruct (store_then_publish ws s subj ev w) as (Hd & _)
    end.
    cbv zeta in Hd.
    exists (prop m "channelName"), (prop m "uid"), (prop m "username"),
           (prop m "message").
    exact Hd. }
  destruct (strict_eq _ _).
  { right. right. left. unfold handle_update_status.
    match goal with
    | |- context [publish_or_throw ?subj ?ev (set_db ?s w)] =>
        destruct (store_then_publish ws s subj ev w) as (Hd & _)
    end.
    cbv zeta in Hd |- *. rewrite Hd. unfold update_status.
    do 3 eexists. split; [|reflexivity]. reflexivity. }
  destruct (strict_eq _ _).
  { right. right. right. unfold handle_delete_message.
    match goal with
    | |- context [publish_or_throw ?subj ?ev (set_db ?s w)] =>
        destruct (store_then_publish ws s subj ev w) as (Hd & _)
    end.
    cbv zeta in Hd |- *. rewrite Hd. do 2 eexists. reflexivity. }
  destruct (strict_eq _ _).
  { destruct (handle_toggle_device_fields ws m w) as (Hd & _).
    cbv zeta in Hd. rewrite Hd.
    destruct (strict_eq _ _).
    { right. right. left. unfold update_camera. do 3 eexists.
      split; [|reflexivity]. reflexivity. }
    destruct (strict_eq _ _); [|now left].
    right. right. left. unfold update_muted. do 3 eexists.
    split; [|reflexivity]. reflexivity. }
  destruct (strict_eq _ _); [|now left].
  left. unfold handle_end_meeting.
  now destruct (settle_publish ws (subject_of (prop m "channelName"))
                               (meeting_ended m) w)
    as (_ & _ & Hd & _).
Qed.

Lemma fire_timer_db w :
  db (fire_timer w) = db w.
Proof.
  unfold fire_timer. destruct (timers w) as [|t rest]; [reflexivity|].
  unfold try_publish. destruct (fits (timer_payload t)); [|reflexivity].
  now destruct (nc_publish_spec (timer_subject t) (timer_payload t) (set_timers rest w))
    as (_ & _ & Hd & _).
Qed.

Lemma onMessage_participant_keys ws raw w :
  map participant_key (meeting_participants (db (onMessage ws raw w))) =
  map participant_key (meeting_participants (db w)).
Proof.
  destruct (onMessage_db ws raw w)
    as [-> | [(c & u & n & m & ->) | [(f & c & u & Hf & ->) | (i & c & ->)]]];
    try reflexivity.
  now apply update_participants_keys.
Qed.

(** X14. The server never creates, deletes or re-keys a participant
    record: after any sequence of events the table holds the same
    (channel, participant) keys in the same order as before; only the two
    flags of a record can change. *)
Theorem participant_keys_never_change es : forall w,
  map participant_key (meeting_participants (db (run es w))) =
  map participant_key (meeting_participants (db w)).
Proof.
  induction es as [|e es IH]; intro w; [reflexivity|].
  change (run (e :: es) w) with (run es (step e w)). rewrite IH.
  destruct e as [ws|ws raw|ws|ws| |s d]; simpl.
  - reflexivity.
  - apply onMessage_participant_keys.
  - reflexivity.
  - destruct (close_spec ws w) as (_ & _ & _ & _ & _ & Hd & _).
    cbv zeta in Hd. now rewrite Hd.
  - now rewrite fire_timer_db.
  - reflexivity.
Qed.

Lemma onMessage_chat_rows ws raw w :
  (forall r, In r (chat_messages (db (onMessage ws raw w))) ->
             In r (chat_messages (db w)) \/ auto_increment (db w) <= cm_id r)
  /\ auto_increment (db w) <= auto_increment (db (onMessage ws raw w)).
Proof.
  destruct (onMessage_db ws raw w)
    as [-> | [(c & u & n & m & ->) | [(f & c & u & Hf & ->) | (i & c & ->)]]];
    simpl.
  - split; [now left | lia].
  - split; [|lia].
    intros r Hin. apply in_app_or in Hin. destruct Hin as [Hin|[<-|[]]];
      [now left | right; simpl; lia].
  - split; [now left | lia].
  - split; [|lia]. intros r Hin. apply filter_In in Hin. now left.
Qed.

Lemma step_chat_rows e w :
  (forall r, In r (chat_messages (db (step e w))) ->
             In r (chat_messages (db w)) \/ auto_increment (db w) <= cm_id r)
  /\ auto_increment (db w) <= auto_increment (db (step e w)).
Proof.
  destruct e as [ws|ws raw|ws|ws| |s d]; simpl.
  - split; [now left | lia].
  - apply onMessage_chat_rows.
  - split; [now left | lia].
  - destruct (close_spec ws w) as (_ & _ & _ & _ & _ & Hd & _).
    cbv zeta in Hd. rewrite Hd. split; [now left | lia].
  - rewrite fire_timer_db. split; [now left | lia].
  - split; [now left | lia].
Qed.

(** X15. A stored chat message is never rewritten: after any sequence of
    events every row of the table either was in the table before, field
    for field, or carries an id the store handed out during the run. *)
Theorem chat_rows_are_never_rewritten es : forall w r,
  In r (chat_messages (db (run es w))) ->
  In r (chat_messages (db w)) \/ auto_increment (db w) <= cm_id r.
Proof.
  assert (H : forall w,
             (forall r, In r (chat_messages (db (run es w))) ->
                        In r (chat_messages (db w)) \/ auto_increment (db w) <= cm_id r)
             /\ auto_increment (db w) <= auto_increment (db (run es w))).
  { induction es as [|e es IH]; intro w; [split; [now left | simpl; lia]|].
    change (run (e :: es) w) with (run es (step e w)).
    destruct (IH (step e w)) as [IHr IHa].
    destruct (step_chat_rows e w) as [Hr Ha].
    split; [|lia].
    intros r Hin. destruct (IHr r Hin) as [Hold|Hnew]; [now apply Hr | right; lia]. }
  intros w r. apply H.
Qed.

Lemma chat_rows_are_never_rewritten_witness :
  In (mk_chat_row 2 (JStr "room1") (JStr "u2") (JStr "Bob") (JStr "two") 2000)
     (chat_messages (db (run [EMessage O (Parsed send_hi);
                              EMessage O (Parsed delete_missing)] lobby)))
  /\ (In (mk_chat_row 2 (JStr "room1") (JStr "u2") (JStr "Bob") (JStr "two") 2000)
         (chat_messages (db lobby))
      \/ auto_increment (db lobby) <= 2).
Proof.
  assert (Hin : In (mk_chat_row 2 (JStr "room1") (JStr "u2") (JStr "Bob") (JStr "two") 2000)
                   (chat_messages (db (run [EMessage O (Parsed send_hi);
                                            EMessage O (Parsed delete_missing)] lobby))))
    by (vm_compute; tauto).
  split; [exact Hin|].
  exact (chat_rows_are_never_rewritten _ lobby _ Hin).
Defined.
Lemma quiet_handles w w' : quiet w w' -> handles_cover_subs w -> handles_cover_subs w'.
Proof.
  intros (_ & Hs & Hst) H i s Hi. rewrite Hs in Hi.
  destruct (Hst (sub_ws s)) as (_ & _ & Hn & _). rewrite Hn. now apply (H i).
Qed.

Lemma handles_crash w : handles_cover_subs w -> handles_cover_subs (crash w).
Proof.
  intros H i s Hi. simpl subs in Hi. rewrite nth_error_map in Hi.
  destruct (nth_error (subs w) i) as [s0|] eqn:Hs0; [|discriminate Hi].
  simpl in Hi. injection Hi as <-. simpl sub_ws.
  specialize (H i s0 Hs0). simpl.
  now destruct (is_open (readyState (conns w (sub_ws s0)))).
Qed.

Lemma handles_step e w :
  consistent w -> handles_cover_subs w -> enabled e w = true ->
  handles_cover_subs (step e w).
Proof.
  intros (_ & _ & I3) H He. unfold enabled in He. apply andb_true_iff in He.
  destruct He as [_ He].
  destruct e as [k|k raw|k|k| |s d]; simpl in *.
  - intros i s Hi. simpl in *. destruct (Nat.eqb_spec (sub_ws s) k) as [Hk|Hk].
    + exfalso. apply (H i s Hi). rewrite Hk. apply I3.
      now destruct (readyState (conns w k)).
    + now apply (H i).
  - destruct (onMessage_quiet_or_join k raw w) as [Hq | [msg ->]].
    + now apply (quiet_handles w).
    + destruct (handle_join_spec k msg w)
        as (_ & Hs & _ & _ & Hn & _ & _ & Hot & _).
      cbv zeta in *. intros i s Hi. rewrite Hs in Hi.
      destruct (Nat.eq_dec (sub_ws s) k) as [Hk|Hk]; [rewrite Hk, Hn; discriminate|].
      rewrite (Hot _ Hk).
      destruct (Nat.lt_ge_cases i (length (subs w))) as [Hlt|Hge].
      * rewrite nth_error_app1 in Hi by exact Hlt. now apply (H i).
      * rewrite nth_error_app2 in Hi by exact Hge.
        destruct (i - length (subs w))%nat as [|j]; simpl in Hi.
        -- injection Hi as <-. simpl in Hk. contradiction.
        -- now destruct j.
  - now apply handles_crash.
  - destruct (close_spec k w) as (_ & Hs & Hc & Hot & _).
    cbv zeta in *. intros i s Hi.
    assert (Hold : exists s0, nth_error (subs w) i = Some s0 /\ sub_ws s0 = sub_ws s).
    { rewrite Hs in Hi. destruct (natsSub (conns w k)) as [j|]; [|now exists s].
      rewrite unsubscribe_at_nth in Hi.
      destruct (Nat.eqb j i); [|now exists s].
      destruct (nth_error (subs w) i) as [s0|]; [|discriminate].
      simpl in Hi. injection Hi as <-. now exists s0. }
    destruct Hold as (s0 & Hs0 & Hown). specialize (H i s0 Hs0). rewrite Hown in H.
    destruct (Nat.eq_dec (sub_ws s) k) as [Hk|Hk].
    + rewrite Hk in *. now rewrite Hc.
    + now rewrite (Hot _ Hk).
  - unfold fire_timer. destruct (timers w) as [|t rest]; [exact H|].
    assert (Hq : handles_cover_subs (set_timers rest w))
      by (apply (quiet_handles w); [apply quiet_set_timers | exact H]).
    unfold try_publish. destruct (fits (timer_payload t)).
    + apply (quiet_handles (set_timers rest w)); [apply quiet_nc_publish | exact Hq].
    + now apply handles_crash.
  - apply (quiet_handles w); [|exact H]. repeat split.
Qed.

Lemma reachable_handles w : reachable w -> handles_cover_subs w.
Proof.
  induction 1 as [s | w e Hr IH He].
  - intros [|i] sub Hi; discriminate Hi.
  - apply handles_step; [now apply reachable_consistent | exact IH | exact He].
Qed.

Lemma fanout_none subject k l :
  (forall i s, nth_error l i = Some s -> sub_ws s <> k) -> fanout subject k l = O.
Proof.
  induction l as [|s l IH]; intro H; simpl; [reflexivity|].
  rewrite IH by (intros i s' Hi; apply (H (S i) s' Hi)).
  pose proof (H O s eq_refl) as Hs.
  destruct (Nat.eqb_spec (sub_ws s) k); [contradiction|].
  now rewrite andb_false_r.
Qed.

(** Each of the five publishing handlers is one publish of its event on
    the channel's subject. *)
Lemma broadcast_effect ws msg w a :
  In a broadcast_kinds -> prop msg "action" = JStr a ->
  let subject := subject_of (prop msg "channelName") in
  let event := broadcast_event msg w in
  let w' := onMessage ws (Parsed msg) w in
  (fits event = true ->
   published w' = published w ++ [(subject, event)]
   /\ forall k, sent (conns w' k) =
                sent (conns w k) ++
                repeat event (if is_open (readyState (conns w k))
                              then fanout subject k (subs w) else O))
  /\ (fits event = false ->
      published w' = published w
      /\ sent (conns w' ws) =
         sent (conns w ws) ++
         (if is_open (readyState (conns w ws))
          then [error_event MAX_PAYLOAD_EXCEEDED] else [])
      /\ forall k, k <> ws -> conns w' k = conns w k).
Proof.
  intros Hin Ha. simpl in Hin. unfold broadcast_event. rewrite Ha.
  destruct Hin as [<-|[<-|[<-|[<-|[<-|[]]]]]]; simpl strict_eq; cbv iota zeta.
  - rewrite (onMessage_send_message _ _ _ Ha).
    unfold handle_send_message, insert_message. cbv zeta.
    match goal with
    | |- context [publish_or_throw ?subj ?ev (set_db ?s w)] =>
        destruct (store_then_publish ws s subj ev w)
          as (_ & _ & _ & _ & _ & _ & Hfit & Hbig)
    end.
    split; [exact Hfit | exact Hbig].
  - rewrite (onMessage_update_status _ _ _ Ha). unfold handle_update_status.
    match goal with
    | |- context [publish_or_throw ?subj ?ev (set_db ?s w)] =>
        destruct (store_then_publish ws s subj ev w)
          as (_ & _ & _ & _ & _ & _ & Hfit & Hbig)
    end.
    split; [exact Hfit | exact Hbig].
  - rewrite (onMessage_delete_message _ _ _ Ha). unfold handle_delete_message.
    match goal with
    | |- context [publish_or_throw ?subj ?ev (set_db ?s w)] =>
        destruct (store_then_publish ws s subj ev w)
          as (_ & _ & _ & _ & _ & _ & Hfit & Hbig)
    end.
    split; [exact Hfit | exact Hbig].
  - rewrite (onMessage_toggle_device _ _ _ Ha).
    destruct (handle_toggle_device_fields ws msg w)
      as (_ & _ & _ & _ & _ & Hfit & Hbig).
    cbv zeta in Hfit, Hbig. split.
    + intro Hf. destruct (Hfit Hf) as (Hp & _ & Hs). now split.
    + intro Hf. destruct (Hbig Hf) as (Hp & _ & Hs & Hot). now repeat split.
  - rewrite (onMessage_end_meeting _ _ _ Ha). unfold handle_end_meeting.
    destruct (settle_publish ws (subject_of (prop msg "channelName"))
                             (meeting_ended msg) w)
      as (_ & _ & _ & _ & _ & _ & _ & Hfit & Hbig).
    split; [exact Hfit | exact Hbig].
Qed.

(** X16. A send-message, update-status, delete-message, toggle-device or
    end-meeting whose event fits the broker's payload limit publishes that
    one event on the channel's subject, and every socket is written
    copies of that event and no reply of the handler's own: an open member
    of the channel at least one copy, a socket that is not open none, and,
    in a reachable state, a socket without a subscription handle (the
    sender included) none.  When the event does not fit, nothing is
    published and no socket but the sender is written anything. *)
Theorem broadcast_reaches_subscribers_only ws msg w a :
  reachable w ->
  In a broadcast_kinds ->
  prop msg "action" = JStr a ->
  let subject := subject_of (prop msg "channelName") in
  let event := broadcast_event msg w in
  let w' := onMessage ws (Parsed msg) w in
  (fits event = true ->
   published w' = published w ++ [(subject, event)]
   /\ forall k, exists n,
        sent (conns w' k) = sent (conns w k) ++ repeat event n
        /\ (readyState (conns w k) = OPEN ->
            In k (members (prop msg "channelName") w) -> (0 < n)%nat)
        /\ (readyState (conns w k) <> OPEN -> n = O)
        /\ (natsSub (conns w k) = None -> n = O))
  /\ (fits event = false ->
      published w' = published w
      /\ forall k, k <> ws -> conns w' k = conns w k).
Proof.
  intros Hr Hin Ha subject event w'.
  destruct (broadcast_effect ws msg w a Hin Ha) as [Hfit Hbig].
  cbv zeta in Hfit, Hbig. fold subject event w' in Hfit, Hbig. split.
  - intro Hf. destruct (Hfit Hf) as (Hp & Hs). split; [exact Hp|].
    intro k.
    exists (if is_open (readyState (conns w k)) then fanout subject k (subs w) else O).
    split; [apply Hs|]. split; [|split].
    + intros Ho Hmem. rewrite Ho. simpl.
      destruct (reachable_consistent w Hr) as (I1 & _).
      destruct (I1 k _ Ho Hmem) as [i Hi]. now apply (fanout_live _ _ _ i).
    + intro Hno. destruct (readyState (conns w k)); try reflexivity.
      now contradiction Hno.
    + intro Hn. rewrite fanout_none;
        [now destruct (is_open (readyState (conns w k)))|].
      intros i s Hi Hown. apply (reachable_handles w Hr i s Hi). now rewrite Hown.
  - intro Hf. destruct (Hbig Hf) as (Hp & _ & Hot). now split.
Qed.

Lemma broadcast_reaches_subscribers_only_witness :
  reachable one_listener
  /\ prop send_hi "action" = JStr "send-message"
  /\ natsSub (conns one_listener O) = None
  /\ published (onMessage O (Parsed send_hi) one_listener) =
     [("meeting.room1",
       JObject [("action", str "new-message"); ("channelName", str "room1");
                ("data", JObject [("id", JVal (JNum 7)); ("channel_name", str "room1");
                                  ("uid", str "u1"); ("username", str "Alice");
                                  ("message", str "hi");
                                  ("created_at", str "1970-01-01T00:00:00.000Z")])])]
  /\ exists n, sent (conns (onMessage O (Parsed send_hi) one_listener) O) =
               sent (conns one_listener O) ++
               repeat (broadcast_event send_hi one_listener) n
               /\ n = O.
Proof.
  assert (Hr : reachable one_listener).
  { apply reachable_run; [|reflexivity].
    apply (reachable_step (init room1_store) (EConnect O));
      [apply reachable_init | reflexivity]. }
  split; [exact Hr|]. split; [reflexivity|]. split; [reflexivity|].
  destruct (broadcast_reaches_subscribers_only O send_hi one_listener "send-message" Hr)
    as (Hfit & _); [simpl; tauto | reflexivity |].
  destruct (Hfit eq_refl) as (Hp & Hs).
  split; [exact Hp|].
  destruct (Hs O) as (n & Hn & _ & _ & Hnone).
  exists n. split; [exact Hn | exact (Hnone eq_refl)].
Defined.

(** X17. A get-messages for a channel without any stored message is
    answered with an empty result set, not with an error. *)
Theorem get_messages_of_empty_channel ws msg w n :
  prop msg "action" = JStr "get-messages" ->
  readyState (conns w ws) = OPEN ->
  sql_limit (js_or (prop msg "limit") (JNum 50)) = inr n ->
  (forall r, In r (chat_messages (db w)) ->
             sql_eq (cm_channel_name r) (prop msg "channelName") = false) ->
  sent (conns (onMessage ws (Parsed msg) w) ws) =
  sent (conns w ws) ++
  [JSON_stringify [("action", str "messages");
                   ("channelName", JVal (prop msg "channelName"));
                   ("data", JArray [])]].
Proof.
  intros Ha Hopen Hl Hnone.
  rewrite (onMessage_get_messages _ _ _ Ha). unfold handle_get_messages, select_messages.
  rewrite Hl. cbn [settle].
  assert (Hf : filter (fun r => sql_eq (cm_channel_name r) (prop msg "channelName"))
                      (chat_messages (db w)) = []).
  { induction (chat_messages (db w)) as [|r l IH]; [reflexivity|]. simpl.
    rewrite (Hnone r (or_introl eq_refl)). apply IH.
    intros r' Hr'. apply Hnone. now right. }
  rewrite Hf. rewrite ws_send_sent, Nat.eqb_refl, Hopen.
  now destruct n.
Qed.

Lemma get_messages_of_empty_channel_witness :
  prop get_elsewhere "action" = JStr "get-messages"
  /\ readyState (conns lobby O) = OPEN
  /\ sent (conns (onMessage O (Parsed get_elsewhere) lobby) O) =
     [JObject [("action", str "messages"); ("channelName", str "nowhere");
               ("data", JArray [])]].
Proof.
  split; [reflexivity|]. split; [reflexivity|].
  apply (get_messages_of_empty_channel O get_elsewhere lobby 10%nat);
    try reflexivity.
  intros r Hr. simpl in Hr.
  repeat (destruct Hr as [<-|Hr]; [reflexivity|]). contradiction.
Defined.

(** ** Sending, then reading or deleting *)

Lemma sql_eq_bound c : sql_bind c <> JNull -> sql_eq (sql_bind c) c = true.
Proof.
  intro H. destruct c; simpl in *; try contradiction; unfold sql_eq; simpl.
  - apply Bool.eqb_reflx.
  - apply Z.eqb_refl.
  - apply String.eqb_refl.
Qed.

Lemma handle_send_message_db ws msg w :
  db (settle ws (handle_send_message msg w)) =
  mk_store (chat_messages (db w) ++
            [mk_chat_row (auto_increment (db w)) (sql_bind (prop msg "channelName"))
                         (sql_bind (prop msg "uid")) (sql_bind (prop msg "username"))
                         (sql_bind (prop msg "message")) (store_now (db w))])
           (meeting_participants (db w)) (auto_increment (db w) + 1) (store_now (db w)).
Proof.
  unfold handle_send_message, insert_message. cbv zeta.
  match goal with
  | |- context [publish_or_throw ?subj ?ev (set_db ?s w)] =>
      destruct (store_then_publish ws s subj ev w) as (Hd & _)
  end.
  exact Hd.
Qed.

Lemma handle_send_message_quiet ws msg w :
  quiet w (settle ws (handle_send_message msg w)).
Proof.
  unfold handle_send_message, insert_message. cbv zeta.
  eapply quiet_trans; [apply quiet_set_db | apply quiet_settle_publish].
Qed.

(** X18. A message sent to a channel whose name is neither null nor
    missing is returned by a following get-messages on that channel
    whenever the limit exceeds the number of messages the channel held:
    the result set contains the inserted row, with the id and creation
    time the store gave it. *)
Theorem sent_message_is_read_back sender reader send get w n :
  prop send "action" = JStr "send-message" ->
  prop get "action" = JStr "get-messages" ->
  prop get "channelName" = prop send "channelName" ->
  sql_bind (prop send "channelName") <> JNull ->
  readyState (conns w reader) = OPEN ->
  sql_limit (js_or (prop get "limit") (JNum 50)) = inr n ->
  (length (rows_of (prop send "channelName") (db w)) < n)%nat ->
  let w1 := onMessage sender (Parsed send) w in
  let w2 := onMessage reader (Parsed get) w1 in
  exists rows,
    sent (conns w2 reader) =
      sent (conns w1 reader) ++ [messages_event (prop send "channelName") rows]
    /\ In (mk_chat_row (auto_increment (db w)) (sql_bind (prop send "channelName"))
                       (sql_bind (prop send "uid")) (sql_bind (prop send "username"))
                       (sql_bind (prop send "message")) (store_now (db w)))
          rows.
Proof.
  intros Hs Hg Hc Hnn Hopen Hl Hlen w1 w2. subst w2 w1.
  rewrite (onMessage_send_message _ _ _ Hs), (onMessage_get_messages _ _ _ Hg).
  unfold handle_get_messages, select_messages. rewrite Hl, Hc. cbn [settle].
  set (c := prop send "channelName") in *.
  set (row := mk_chat_row _ _ _ _ _ _).
  assert (Hrows : filter (fun r => sql_eq (cm_channel_name r) c)
                         (chat_messages
                            (db (settle sender (handle_send_message send w)))) =
                  rows_of c (db w) ++ [row]).
  { rewrite handle_send_message_db. simpl chat_messages. rewrite filter_app.
    simpl. fold c. rewrite (sql_eq_bound c Hnn). reflexivity. }
  rewrite Hrows.
  destruct (handle_send_message_quiet sender send w) as (_ & _ & Hst).
  destruct (Hst reader) as (_ & _ & _ & Hr).
  eexists. split.
  - rewrite ws_send_sent, Nat.eqb_refl, Hr, Hopen. reflexivity.
  - rewrite firstn_all2.
    + apply (Permutation_in row (ByCreatedAtDesc.Permuted_sort _)).
      apply in_or_app. right. now left.
    + rewrite <- (Permutation_length (ByCreatedAtDesc.Permuted_sort _)).
      rewrite length_app. simpl. lia.
Qed.

Lemma sent_message_is_read_back_witness :
  prop send_hi "action" = JStr "send-message"
  /\ readyState (conns one_listener 1%nat) = OPEN
  /\ (length (rows_of (prop send_hi "channelName") (db one_listener)) < 100)%nat
  /\ exists rows,
      sent (conns (onMessage 1%nat (Parsed get_all_room1)
                     (onMessage O (Parsed send_hi) one_listener)) 1%nat) =
      sent (conns (onMessage O (Parsed send_hi) one_listener) 1%nat)
      ++ [messages_event (JStr "room1") rows]
      /\ In (mk_chat_row 7 (JStr "room1") (JStr "u1") (JStr "Alice") (JStr "hi") 7000)
            rows.
Proof.
  split; [reflexivity|]. split; [reflexivity|]. split; [simpl; lia|].
  apply (sent_message_is_read_back O 1%nat send_hi get_all_room1 one_listener 100%nat);
    try reflexivity; [discriminate | simpl; lia].
Defined.

(** X19. A message that was sent is removed by a delete-message carrying
    the id the store assigned and the same channel name (neither null nor
    missing); rows with another id stay.  Any socket may send the delete,
    not only the author. *)
Theorem sent_message_can_be_deleted sender other send del w :
  prop send "action" = JStr "send-message" ->
  prop del "action" = JStr "delete-message" ->
  prop del "channelName" = prop send "channelName" ->
  prop del "messageId" = JNum (auto_increment (db w)) ->
  sql_bind (prop send "channelName") <> JNull ->
  let row := mk_chat_row (auto_increment (db w)) (sql_bind (prop send "channelName"))
                         (sql_bind (prop send "uid")) (sql_bind (prop send "username"))
                         (sql_bind (prop send "message")) (store_now (db w)) in
  let w1 := onMessage sender (Parsed send) w in
  let w2 := onMessage other (Parsed del) w1 in
  In row (chat_messages (db w1))
  /\ ~ In row (chat_messages (db w2))
  /\ forall r, In r (chat_messages (db w)) -> cm_id r <> auto_increment (db w) ->
               In r (chat_messages (db w2)).
Proof.
  intros Hs Hd Hc Hid Hnn row w1 w2. subst w2 w1.
  rewrite (onMessage_send_message _ _ _ Hs), (onMessage_delete_message _ _ _ Hd).
  unfold handle_delete_message.
  match goal with
  | |- context [publish_or_throw ?subj ?ev (set_db ?s ?w0)] =>
      destruct (store_then_publish other s subj ev w0) as (Hdb & _)
  end.
  cbv zeta in Hdb |- *. rewrite Hdb. rewrite Hid, Hc.
  rewrite handle_send_message_db. unfold delete_message. simpl chat_messages.
  fold row. split; [|split].
  - apply in_or_app. right. now left.
  - intro Hin. apply filter_In in Hin. destruct Hin as [_ Hkeep].
    unfold message_matches in Hkeep. simpl in Hkeep.
    rewrite (sql_eq_bound _ Hnn) in Hkeep.
    unfold sql_eq in Hkeep. simpl in Hkeep. rewrite Z.eqb_refl in Hkeep.
    discriminate Hkeep.
  - intros r Hin Hne. apply filter_In. split; [apply in_or_app; now left|].
    unfold message_matches, sql_eq at 1. simpl.
    destruct (Z.eqb_spec (cm_id r) (auto_increment (db w))); [contradiction|].
    reflexivity.
Qed.

Lemma sent_message_can_be_deleted_witness :
  prop send_hi "action" = JStr "send-message"
  /\ prop delete_seventh "messageId" = JNum (auto_increment (db one_listener))
  /\ In (mk_chat_row 7 (JStr "room1") (JStr "u1") (JStr "Alice") (JStr "hi") 7000)
        (chat_messages (db (onMessage O (Parsed send_hi) one_listener)))
  /\ ~ In (mk_chat_row 7 (JStr "room1") (JStr "u1") (JStr "Alice") (JStr "hi") 7000)
          (chat_messages (db (onMessage 1%nat (Parsed delete_seventh)
                                (onMessage O (Parsed send_hi) one_listener)))).
Proof.
  split; [reflexivity|]. split; [reflexivity|].
  destruct (sent_message_can_be_deleted O 1%nat send_hi delete_seventh one_listener)
    as (Hin & Hout & _); try reflexivity; [discriminate|].
  split; [exact Hin | exact Hout].
Defined.
